(** * ParkPulseCommunity: the proposal / vote / funding ledger

    A shallow embedding of the Solidity contract [ParkPulseCommunity]
    (pragma ^0.8.20) and the properties of its state machine.

    Conventions of the embedding:
    - [uint64], [uint256] and [address] values are integers of [Z]; the
      checked arithmetic of Solidity 0.8 is written out: an operation whose
      mathematical result leaves the type aborts the call with [Panic 17]
      (0x11);
    - a Solidity [mapping] is total, every key holding the zero value of its
      type until written: it is a [gmap] read through a default;
    - a function body is a computation in a state-and-error monad [M]; a
      [require] that fails, or a panic, aborts the whole call, and the
      transaction then leaves the storage as it was ([step]);
    - [block.timestamp], [msg.sender] and the answer of the recipient of an
      outgoing value call are inputs of the call ([Env]); [msg.value] is an
      argument of the two payable entry points only, the others being
      non-payable;
    - the recipient of [withdrawFunds] runs its code while it is paid and
      may call back into the contract: [withdrawFunds_during] takes what
      these calls do, and [Nested] is a call with its calls back. A
      transaction ([Tx], [step], [run]) is a call whose recipient makes none;
      calls back leave no state that such transactions do not reach
      ([nested_is_run]), so what holds in every reachable state holds with
      calls back as well. *)

From stdpp Require Import gmap strings list fin_maps sorting.
From Stdlib Require Import ZArith Lia.
From Equations Require Import Equations.

Open Scope Z_scope.

(** ** Machine integers *)

Definition uint64_max : Z := 2 ^ 64 - 1.
Definition uint256_max : Z := 2 ^ 256 - 1.

(** ** Data model *)

Inductive ProposalStatus := Active | Accepted | Declined.

#[global] Instance ProposalStatus_eq_dec : EqDecision ProposalStatus.
Proof. solve_decision. Defined.

Record EnvironmentalData := {
  ndviBefore : Z;
  ndviAfter : Z;
  pm25Before : Z;
  pm25After : Z;
  pm25IncreasePercent : Z;
  vegetationLossPercent : Z
}.

Record Demographics := {
  children : Z;
  adults : Z;
  seniors : Z;
  totalAffectedPopulation : Z
}.

Record Donation := {
  donor : Z;
  amount : Z;
  timestamp : Z
}.

Record Proposal := {
  id : Z;
  parkName : string;
  parkId : string;
  description : string;
  endDate : Z;
  status : ProposalStatus;
  yesVotes : Z;
  noVotes : Z;
  environmentalData : EnvironmentalData;
  demographics : Demographics;
  creatorAccountId : string;
  fundingGoal : Z;
  totalFundsRaised : Z;
  fundingEnabled : bool
}.

(** The zero value of each struct: what an unwritten mapping slot reads as. *)
Definition zero_EnvironmentalData : EnvironmentalData :=
  {| ndviBefore := 0; ndviAfter := 0; pm25Before := 0; pm25After := 0;
     pm25IncreasePercent := 0; vegetationLossPercent := 0 |}.

Definition zero_Demographics : Demographics :=
  {| children := 0; adults := 0; seniors := 0; totalAffectedPopulation := 0 |}.

Definition zero_Proposal : Proposal :=
  {| id := 0; parkName := ""; parkId := ""; description := ""; endDate := 0;
     status := Active; yesVotes := 0; noVotes := 0;
     environmentalData := zero_EnvironmentalData;
     demographics := zero_Demographics; creatorAccountId := "";
     fundingGoal := 0; totalFundsRaised := 0; fundingEnabled := false |}.

(** Field assignments [proposals[i].f = v]. *)
Definition with_status (v : ProposalStatus) (p : Proposal) : Proposal :=
  {| id := id p; parkName := parkName p; parkId := parkId p;
     description := description p; endDate := endDate p; status := v;
     yesVotes := yesVotes p; noVotes := noVotes p;
     environmentalData := environmentalData p; demographics := demographics p;
     creatorAccountId := creatorAccountId p; fundingGoal := fundingGoal p;
     totalFundsRaised := totalFundsRaised p;
     fundingEnabled := fundingEnabled p |}.

Definition with_yesVotes (v : Z) (p : Proposal) : Proposal :=
  {| id := id p; parkName := parkName p; parkId := parkId p;
     description := description p; endDate := endDate p; status := status p;
     yesVotes := v; noVotes := noVotes p;
     environmentalData := environmentalData p; demographics := demographics p;
     creatorAccountId := creatorAccountId p; fundingGoal := fundingGoal p;
     totalFundsRaised := totalFundsRaised p;
     fundingEnabled := fundingEnabled p |}.

Definition with_noVotes (v : Z) (p : Proposal) : Proposal :=
  {| id := id p; parkName := parkName p; parkId := parkId p;
     description := description p; endDate := endDate p; status := status p;
     yesVotes := yesVotes p; noVotes := v;
     environmentalData := environmentalData p; demographics := demographics p;
     creatorAccountId := creatorAccountId p; fundingGoal := fundingGoal p;
     totalFundsRaised := totalFundsRaised p;
     fundingEnabled := fundingEnabled p |}.

Definition with_fundingGoal (v : Z) (p : Proposal) : Proposal :=
  {| id := id p; parkName := parkName p; parkId := parkId p;
     description := description p; endDate := endDate p; status := status p;
     yesVotes := yesVotes p; noVotes := noVotes p;
     environmentalData := environmentalData p; demographics := demographics p;
     creatorAccountId := creatorAccountId p; fundingGoal := v;
     totalFundsRaised := totalFundsRaised p;
     fundingEnabled := fundingEnabled p |}.

Definition with_totalFundsRaised (v : Z) (p : Proposal) : Proposal :=
  {| id := id p; parkName := parkName p; parkId := parkId p;
     description := description p; endDate := endDate p; status := status p;
     yesVotes := yesVotes p; noVotes := noVotes p;
     environmentalData := environmentalData p; demographics := demographics p;
     creatorAccountId := creatorAccountId p; fundingGoal := fundingGoal p;
     totalFundsRaised := v; fundingEnabled := fundingEnabled p |}.

Definition with_fundingEnabled (v : bool) (p : Proposal) : Proposal :=
  {| id := id p; parkName := parkName p; parkId := parkId p;
     description := description p; endDate := endDate p; status := status p;
     yesVotes := yesVotes p; noVotes := noVotes p;
     environmentalData := environmentalData p; demographics := demographics p;
     creatorAccountId := creatorAccountId p; fundingGoal := fundingGoal p;
     totalFundsRaised := totalFundsRaised p; fundingEnabled := v |}.

(** ** Contract storage *)

(** The state variables of the contract, with the two pieces of account state
    its code can observe: its own address and its balance. *)
Record State := {
  proposals : gmap Z Proposal;
  userVotes : gmap (Z * Z) bool;
  hasVoted : gmap (Z * Z) bool;
  proposalDonations : gmap Z (list Donation);
  userDonationTotal : gmap (Z * Z) Z;
  proposalCounter : Z;
  owner : Z;
  this : Z;
  balance : Z
}.

(** Reads of the mappings. *)
Definition proposal_at (s : State) (proposalId : Z) : Proposal :=
  default zero_Proposal (proposals s !! proposalId).

Definition userVotes_at (s : State) (proposalId voter : Z) : bool :=
  default false (userVotes s !! (proposalId, voter)).

Definition hasVoted_at (s : State) (proposalId voter : Z) : bool :=
  default false (hasVoted s !! (proposalId, voter)).

Definition proposalDonations_at (s : State) (proposalId : Z) : list Donation :=
  default [] (proposalDonations s !! proposalId).

Definition userDonationTotal_at (s : State) (proposalId user : Z) : Z :=
  default 0 (userDonationTotal s !! (proposalId, user)).

(** Writes of the state variables. *)
Definition set_proposal (proposalId : Z) (p : Proposal) (s : State) : State :=
  {| proposals := <[proposalId := p]> (proposals s);
     userVotes := userVotes s; hasVoted := hasVoted s;
     proposalDonations := proposalDonations s;
     userDonationTotal := userDonationTotal s;
     proposalCounter := proposalCounter s; owner := owner s;
     this := this s; balance := balance s |}.

Definition set_userVotes (proposalId voter : Z) (v : bool) (s : State) : State :=
  {| proposals := proposals s;
     userVotes := <[(proposalId, voter) := v]> (userVotes s);
     hasVoted := hasVoted s;
     proposalDonations := proposalDonations s;
     userDonationTotal := userDonationTotal s;
     proposalCounter := proposalCounter s; owner := owner s;
     this := this s; balance := balance s |}.

Definition set_hasVoted (proposalId voter : Z) (v : bool) (s : State) : State :=
  {| proposals := proposals s; userVotes := userVotes s;
     hasVoted := <[(proposalId, voter) := v]> (hasVoted s);
     proposalDonations := proposalDonations s;
     userDonationTotal := userDonationTotal s;
     proposalCounter := proposalCounter s; owner := owner s;
     this := this s; balance := balance s |}.

Definition set_proposalDonations (proposalId : Z) (l : list Donation)
    (s : State) : State :=
  {| proposals := proposals s; userVotes := userVotes s;
     hasVoted := hasVoted s;
     proposalDonations := <[proposalId := l]> (proposalDonations s);
     userDonationTotal := userDonationTotal s;
     proposalCounter := proposalCounter s; owner := owner s;
     this := this s; balance := balance s |}.

Definition set_userDonationTotal (proposalId user : Z) (v : Z)
    (s : State) : State :=
  {| proposals := proposals s; userVotes := userVotes s;
     hasVoted := hasVoted s; proposalDonations := proposalDonations s;
     userDonationTotal := <[(proposalId, user) := v]> (userDonationTotal s);
     proposalCounter := proposalCounter s; owner := owner s;
     this := this s; balance := balance s |}.

Definition set_proposalCounter (v : Z) (s : State) : State :=
  {| proposals := proposals s; userVotes := userVotes s;
     hasVoted := hasVoted s; proposalDonations := proposalDonations s;
     userDonationTotal := userDonationTotal s;
     proposalCounter := v; owner := owner s;
     this := this s; balance := balance s |}.

Definition set_balance (v : Z) (s : State) : State :=
  {| proposals := proposals s; userVotes := userVotes s;
     hasVoted := hasVoted s; proposalDonations := proposalDonations s;
     userDonationTotal := userDonationTotal s;
     proposalCounter := proposalCounter s; owner := owner s;
     this := this s; balance := v |}.

(** ** Events and outgoing transfers *)

Inductive Event :=
  | ProposalCreated (proposalId : Z) (name pid : string) (endDate_ : Z)
      (creator : string)
  | VoteCast (proposalId voter : Z) (vote_ : bool)
  | ProposalStatusUpdated (proposalId : Z) (newStatus : ProposalStatus)
  | ContractInitialized (deployer : Z)
  | DonationReceived (proposalId donor_ amount_ timestamp_ : Z)
  | FundingGoalSet (proposalId goal : Z)
  | FundsWithdrawn (proposalId recipient amount_ timestamp_ : Z).

Inductive effect :=
  | Emit (e : Event)
  | Transfer (recipient amount_ : Z).

(** ** The call monad *)

Inductive result (A : Type) :=
  | Ok (a : A)
  | Revert (reason : string)
  | Panic (code : Z).
Arguments Ok {A} a.
Arguments Revert {A} reason.
Arguments Panic {A} code.

Definition M (A : Type) : Type := State -> result (A * State * list effect).

Definition ret {A} (a : A) : M A := fun s => Ok (a, s, []).

Definition bind {A B} (m : M A) (f : A -> M B) : M B := fun s =>
  match m s with
  | Ok (a, s1, l1) =>
      match f a s1 with
      | Ok (b, s2, l2) => Ok (b, s2, l1 ++ l2)
      | Revert r => Revert r
      | Panic c => Panic c
      end
  | Revert r => Revert r
  | Panic c => Panic c
  end.

#[global] Instance M_ret : MRet M := @ret.
#[global] Instance M_bind : MBind M := fun A B f m => bind m f.

Definition get : M State := fun s => Ok (s, s, []).
Definition modify (f : State -> State) : M unit := fun s => Ok (tt, f s, []).
Definition emit (e : Event) : M unit := fun s => Ok (tt, s, [Emit e]).
Definition revert {A} (reason : string) : M A := fun _ => Revert reason.
Definition panic {A} (code : Z) : M A := fun _ => Panic code.

Definition require (cond : bool) (reason : string) : M unit :=
  if cond then ret tt else revert reason.

(** Checked arithmetic of Solidity 0.8 on a type whose largest value is
    [max]. *)
Definition checked_add (max a b : Z) : M Z :=
  if a + b <=? max then ret (a + b) else panic 17.

Definition checked_mul (max a b : Z) : M Z :=
  if a * b <=? max then ret (a * b) else panic 17.

(** What a call sees of its transaction and of the world. [call_ok] is the
    answer of the recipient's code to an outgoing value call. *)
Record Env := {
  msg_sender : Z;
  block_timestamp : Z;
  call_ok : bool
}.

(** ** Modifiers *)

Definition onlyOwner (e : Env) : M unit :=
  s ← get;
  require (bool_decide (msg_sender e = owner s))
    "Only owner can call this function".

Definition proposalExists (proposalId : Z) : M unit :=
  s ← get;
  require (negb (id (proposal_at s proposalId) =? 0))
    "Proposal does not exist".

Definition proposalActive (proposalId : Z) : M unit :=
  s ← get;
  require (bool_decide (status (proposal_at s proposalId) = Active))
    "Proposal is not active".

Definition hasNotVoted (proposalId voter : Z) : M unit :=
  s ← get;
  require (negb (hasVoted_at s proposalId voter)) "User has already voted".

Definition votingPeriodActive (e : Env) (proposalId : Z) : M unit :=
  s ← get;
  require (block_timestamp e <=? endDate (proposal_at s proposalId))
    "Voting period has ended".

(** ** Constructor

    The state left by the deployment at address [this_] by [deployer]; the
    [ContractInitialized] event it emits is not part of the state. *)

Definition constructor (this_ deployer : Z) : State :=
  {| proposals := ∅; userVotes := ∅; hasVoted := ∅; proposalDonations := ∅;
     userDonationTotal := ∅; proposalCounter := 0; owner := deployer;
     this := this_; balance := 0 |}.

(** ** State-changing functions *)

Definition createProposal (e : Env) (parkName_ parkId_ description_ : string)
    (endDate_ : Z) (environmentalData_ : EnvironmentalData)
    (demographics_ : Demographics) (creatorAccountId_ : string)
    (fundraisingEnabled : bool) (fundingGoal_ : Z) : M Z :=
  require (Z.of_nat (String.length parkName_) >? 0)
    "Park name cannot be empty";;
  require (Z.of_nat (String.length parkId_) >? 0) "Park ID cannot be empty";;
  require (Z.of_nat (String.length creatorAccountId_) >? 0)
    "Creator account ID cannot be empty";;
  require (endDate_ >? block_timestamp e) "End date must be in the future";;
  s ← get;
  c ← checked_add uint64_max (proposalCounter s) 1;
  modify (set_proposalCounter c);;
  let proposalId := c in
  modify (set_proposal proposalId
    {| id := proposalId; parkName := parkName_; parkId := parkId_;
       description := description_; endDate := endDate_; status := Active;
       yesVotes := 0; noVotes := 0; environmentalData := environmentalData_;
       demographics := demographics_; creatorAccountId := creatorAccountId_;
       fundingGoal := fundingGoal_; totalFundsRaised := 0;
       fundingEnabled := false |});;
  emit (ProposalCreated proposalId parkName_ parkId_ endDate_
          creatorAccountId_);;
  mret proposalId.

Definition vote (e : Env) (proposalId : Z) (voteValue : bool) (voter : Z)
    : M unit :=
  proposalExists proposalId;;
  proposalActive proposalId;;
  hasNotVoted proposalId voter;;
  votingPeriodActive e proposalId;;
  modify (set_userVotes proposalId voter voteValue);;
  modify (set_hasVoted proposalId voter true);;
  (if voteValue then
     s ← get;
     y ← checked_add uint64_max (yesVotes (proposal_at s proposalId)) 1;
     modify (set_proposal proposalId
               (with_yesVotes y (proposal_at s proposalId)))
   else
     s ← get;
     n ← checked_add uint64_max (noVotes (proposal_at s proposalId)) 1;
     modify (set_proposal proposalId
               (with_noVotes n (proposal_at s proposalId))));;
  emit (VoteCast proposalId voter voteValue).

Definition updateProposalStatus (e : Env) (proposalId : Z) : M unit :=
  onlyOwner e;;
  proposalExists proposalId;;
  proposalActive proposalId;;
  s ← get;
  require (block_timestamp e >? endDate (proposal_at s proposalId))
    "Voting period has not ended";;
  newStatus ←
    (if yesVotes (proposal_at s proposalId) >? noVotes (proposal_at s proposalId)
     then
       (if fundingGoal (proposal_at s proposalId) >? 0 then
          modify (fun s => set_proposal proposalId
                    (with_fundingEnabled true (proposal_at s proposalId)) s)
        else mret tt);;
       mret Accepted
     else mret Declined);
  modify (fun s => set_proposal proposalId
            (with_status newStatus (proposal_at s proposalId)) s);;
  emit (ProposalStatusUpdated proposalId newStatus).

Definition forceCloseProposal (e : Env) (proposalId : Z)
    (newStatus : ProposalStatus) : M unit :=
  onlyOwner e;;
  proposalExists proposalId;;
  proposalActive proposalId;;
  modify (fun s => set_proposal proposalId
            (with_status newStatus (proposal_at s proposalId)) s);;
  s ← get;
  (if bool_decide (newStatus = Accepted)
      && (fundingGoal (proposal_at s proposalId) >? 0)
   then modify (set_proposal proposalId
                  (with_fundingEnabled true (proposal_at s proposalId)))
   else mret tt);;
  emit (ProposalStatusUpdated proposalId newStatus).

Definition setFundingGoal (e : Env) (proposalId goal : Z) : M unit :=
  onlyOwner e;;
  proposalExists proposalId;;
  s ← get;
  require (bool_decide (status (proposal_at s proposalId) = Accepted))
    "Proposal must be accepted";;
  modify (set_proposal proposalId
            (with_fundingGoal goal (proposal_at s proposalId)));;
  emit (FundingGoalSet proposalId goal).

(** A payable entry point: the value sent is credited to the contract before
    its body runs. *)
Definition receive_value (msg_value : Z) : M unit :=
  modify (fun s => set_balance (balance s + msg_value) s).

Definition donateToProposal (e : Env) (msg_value : Z) (proposalId : Z)
    : M unit :=
  receive_value msg_value;;
  proposalExists proposalId;;
  s ← get;
  require (bool_decide (status (proposal_at s proposalId) = Accepted))
    "Proposal not accepted";;
  require (fundingEnabled (proposal_at s proposalId)) "Funding not enabled";;
  require (msg_value >? 0) "Must send HBAR";;
  modify (set_proposalDonations proposalId
            (proposalDonations_at s proposalId ++
             [{| donor := msg_sender e; amount := msg_value;
                 timestamp := block_timestamp e |}]));;
  u ← checked_add uint256_max
        (userDonationTotal_at s proposalId (msg_sender e)) msg_value;
  modify (set_userDonationTotal proposalId (msg_sender e) u);;
  s ← get;
  t ← checked_add uint256_max
        (totalFundsRaised (proposal_at s proposalId)) msg_value;
  modify (set_proposal proposalId
            (with_totalFundsRaised t (proposal_at s proposalId)));;
  emit (DonationReceived proposalId (msg_sender e) msg_value
          (block_timestamp e)).

(** [recipient.call{value: amount_}("")]. The value leaves the contract when
    its balance covers it; the code of the recipient then runs with all the
    gas that is left, and may call back into the contract before it answers:
    [code] is what these calls do to the contract, [accepts] the answer. When
    the recipient does not accept, the call returns [false] and all that its
    code did is undone with the transfer. A call of the contract to itself
    runs its own empty [receive] and moves nothing. *)
Definition call_value (code : M unit) (accepts : bool) (recipient amount_ : Z)
    : M bool := fun s =>
  if amount_ <=? balance s then
    if bool_decide (recipient = this s) then
      Ok (true, s, [Transfer recipient amount_])
    else
      match code (set_balance (balance s - amount_) s) with
      | Ok (_, s', l) =>
          if accepts then Ok (true, s', Transfer recipient amount_ :: l)
          else Ok (false, s, [])
      | _ => Ok (false, s, [])
      end
  else Ok (false, s, []).

(** [withdrawFunds], with the calls that the recipient makes back into the
    contract while it is paid. *)
Definition withdrawFunds_during (code : M unit) (e : Env)
    (proposalId recipient : Z) : M unit :=
  onlyOwner e;;
  proposalExists proposalId;;
  s ← get;
  require (totalFundsRaised (proposal_at s proposalId) >? 0)
    "No funds to withdraw";;
  let amount_ := totalFundsRaised (proposal_at s proposalId) in
  modify (set_proposal proposalId
            (with_totalFundsRaised 0 (proposal_at s proposalId)));;
  success ← call_value code (call_ok e) recipient amount_;
  require success "Transfer failed";;
  emit (FundsWithdrawn proposalId recipient amount_ (block_timestamp e)).

(** [withdrawFunds] to a recipient that makes no call back: an account
    without code, or a contract that only takes the value. *)
Definition withdrawFunds (e : Env) (proposalId recipient : Z) : M unit :=
  withdrawFunds_during (mret tt) e proposalId recipient.

(** [receive() external payable {}] *)
Definition receive (msg_value : Z) : M unit :=
  receive_value msg_value.

(** ** View functions *)

Definition view {A} (m : M A) (s : State) : result A :=
  match m s with
  | Ok (a, _, _) => Ok a
  | Revert r => Revert r
  | Panic c => Panic c
  end.

Definition getProposal (proposalId : Z) : M Proposal :=
  proposalExists proposalId;;
  s ← get; mret (proposal_at s proposalId).

Definition getVoteCounts (proposalId : Z) : M (Z * Z) :=
  proposalExists proposalId;;
  s ← get;
  mret (yesVotes (proposal_at s proposalId), noVotes (proposal_at s proposalId)).

Definition getUserVote (proposalId user : Z) : M (bool * bool) :=
  proposalExists proposalId;;
  s ← get;
  mret (userVotes_at s proposalId user, hasVoted_at s proposalId user).

Definition hasUserVoted (proposalId user : Z) : M bool :=
  proposalExists proposalId;;
  s ← get; mret (hasVoted_at s proposalId user).

Definition getTotalProposals : M Z :=
  s ← get; mret (proposalCounter s).

Definition getDonationProgress (proposalId : Z) : M (Z * Z * Z) :=
  proposalExists proposalId;;
  s ← get;
  let raised := totalFundsRaised (proposal_at s proposalId) in
  let goal := fundingGoal (proposal_at s proposalId) in
  percentage ←
    (if goal >? 0 then
       n ← checked_mul uint256_max raised 100;
       mret (n / goal)
     else mret 0);
  mret (raised, goal, percentage).

Definition getProposalDonations (proposalId : Z) : M (list Donation) :=
  proposalExists proposalId;;
  s ← get; mret (proposalDonations_at s proposalId).

Definition getUserDonationTotal (proposalId user : Z) : M Z :=
  proposalExists proposalId;;
  s ← get; mret (userDonationTotal_at s proposalId user).

(** ** Transactions *)

Inductive Call :=
  | CreateProposal (parkName_ parkId_ description_ : string) (endDate_ : Z)
      (environmentalData_ : EnvironmentalData) (demographics_ : Demographics)
      (creatorAccountId_ : string) (fundraisingEnabled : bool)
      (fundingGoal_ : Z)
  | Vote (proposalId : Z) (voteValue : bool) (voter : Z)
  | UpdateProposalStatus (proposalId : Z)
  | ForceCloseProposal (proposalId : Z) (newStatus : ProposalStatus)
  | SetFundingGoal (proposalId goal : Z)
  | DonateToProposal (msg_value proposalId : Z)
  | WithdrawFunds (proposalId recipient : Z)
  | Receive (msg_value : Z).

Inductive Returned :=
  | RetNone
  | RetUint64 (n : Z).

Record Tx := {
  tx_env : Env;
  tx_call : Call
}.

Definition exec (t : Tx) : M Returned :=
  let e := tx_env t in
  match tx_call t with
  | CreateProposal n i d dl ed dm c fe g =>
      r ← createProposal e n i d dl ed dm c fe g; mret (RetUint64 r)
  | Vote p v a => vote e p v a;; mret RetNone
  | UpdateProposalStatus p => updateProposalStatus e p;; mret RetNone
  | ForceCloseProposal p st => forceCloseProposal e p st;; mret RetNone
  | SetFundingGoal p g => setFundingGoal e p g;; mret RetNone
  | DonateToProposal v p => donateToProposal e v p;; mret RetNone
  | WithdrawFunds p r => withdrawFunds e p r;; mret RetNone
  | Receive v => receive v;; mret RetNone
  end.

(** A transaction that aborts leaves the storage as it found it. *)
Definition commit {A} (m : M A) (s : State) : State :=
  match m s with
  | Ok (_, s', _) => s'
  | _ => s
  end.

Definition succeeds {A} (m : M A) (s : State) : bool :=
  match m s with
  | Ok _ => true
  | _ => false
  end.

Definition step (s : State) (t : Tx) : State := commit (exec t) s.

Definition run (s : State) (txs : list Tx) : State := fold_left step txs s.

Inductive reachable : State -> Prop :=
  | reachable_init this_ deployer : reachable (constructor this_ deployer)
  | reachable_step s t : reachable s -> reachable (step s t).

(** ** Histories

    The history of a run records, for every transaction, what it answered:
    the returned value and the effects of a call that went through, or the
    reason it was aborted. *)

Definition outcome (t : Tx) (s : State) : result (Returned * list effect) :=
  match exec t s with
  | Ok (r, _, l) => Ok (r, l)
  | Revert r => Revert r
  | Panic c => Panic c
  end.

Record Receipt := {
  receipt_tx : Tx;
  receipt_result : result (Returned * list effect)
}.

Definition receipt (s : State) (t : Tx) : Receipt :=
  {| receipt_tx := t; receipt_result := outcome t s |}.

Fixpoint history (s : State) (txs : list Tx) : list Receipt :=
  match txs with
  | [] => []
  | t :: txs' => receipt s t :: history (step s t) txs'
  end.

(** The id returned by a successful [createProposal]. *)
Definition created_id (r : Receipt) : option Z :=
  match tx_call (receipt_tx r), receipt_result r with
  | CreateProposal _ _ _ _ _ _ _ _ _, Ok (RetUint64 n, _) => Some n
  | _, _ => None
  end.

Definition created_ids (h : list Receipt) : list Z := omap created_id h.

(** The voter of a successful [vote] on [proposalId]. *)
Definition vote_cast (proposalId : Z) (r : Receipt) : option Z :=
  match tx_call (receipt_tx r), receipt_result r with
  | Vote p _ voter, Ok _ => if bool_decide (p = proposalId) then Some voter else None
  | _, _ => None
  end.

Definition voters (proposalId : Z) (h : list Receipt) : list Z :=
  omap (vote_cast proposalId) h.

(** The donation made by a successful [donateToProposal] on [proposalId]. *)
Definition donation_made (proposalId : Z) (r : Receipt) : option Donation :=
  match tx_call (receipt_tx r), receipt_result r with
  | DonateToProposal v p, Ok _ =>
      if bool_decide (p = proposalId) then
        Some {| donor := msg_sender (tx_env (receipt_tx r)); amount := v;
                timestamp := block_timestamp (tx_env (receipt_tx r)) |}
      else None
  | _, _ => None
  end.

Definition donations_made (proposalId : Z) (h : list Receipt) : list Donation :=
  omap (donation_made proposalId) h.

(** The value sent out by a successful [withdrawFunds] on [proposalId]. *)
Definition transferred (l : list effect) : Z :=
  foldr (fun x acc => match x with Transfer _ a => a + acc | Emit _ => acc end)
    0 l.

Definition withdrawal (proposalId : Z) (r : Receipt) : option Z :=
  match tx_call (receipt_tx r), receipt_result r with
  | WithdrawFunds p _, Ok (_, l) =>
      if bool_decide (p = proposalId) then Some (transferred l) else None
  | _, _ => None
  end.

Definition withdrawals (proposalId : Z) (h : list Receipt) : list Z :=
  omap (withdrawal proposalId) h.

Definition sum_amounts (l : list Donation) : Z :=
  foldr (fun d acc => amount d + acc) 0 l.

Definition sum_list (l : list Z) : Z := foldr Z.add 0 l.

Definition donated_by (user : Z) (l : list Donation) : list Donation :=
  filter (fun d => donor d = user) l.

(** ** Properties of states *)

(** Whether the value call of [withdrawFunds] goes through. *)
Definition transfer_accepted (e : Env) (s : State) (recipient amount_ : Z)
    : bool :=
  (amount_ <=? balance s) && (bool_decide (recipient = this s) || call_ok e).

(** The order of the checks on a vote as the specification of [vote] words
    it, not as the code has it: the reason of the first of the four
    conditions that does not hold, taken in the order existence, activity,
    first vote, deadline. *)
Definition first_failed_precondition (e : Env) (s : State)
    (proposalId voter : Z) : option string :=
  if bool_decide (id (proposal_at s proposalId) = 0) then
    Some "Proposal does not exist"
  else if negb (bool_decide (status (proposal_at s proposalId) = Active)) then
    Some "Proposal is not active"
  else if hasVoted_at s proposalId voter then
    Some "User has already voted"
  else if negb (bool_decide
                  (block_timestamp e <= endDate (proposal_at s proposalId))) then
    Some "Voting period has ended"
  else None.

Definition funding_invariant (s : State) : Prop :=
  forall proposalId,
    id (proposal_at s proposalId) <> 0 ->
    (status (proposal_at s proposalId) = Active ->
     fundingEnabled (proposal_at s proposalId) = false) /\
    (fundingEnabled (proposal_at s proposalId) = true ->
     status (proposal_at s proposalId) = Accepted).

(** The proposals that exist are those numbered [1] to [proposalCounter], each
    stored under its own id. *)
Definition registry_invariant (s : State) : Prop :=
  0 <= proposalCounter s /\
  forall j, id (proposal_at s j) <> 0 ->
            id (proposal_at s j) = j /\ 1 <= j <= proposalCounter s.

(** What the tallies of proposal [j] have to do with the votes of a history. *)
Definition tally_invariant (s : State) (h : list Receipt) (j : Z) : Prop :=
  (forall v, hasVoted_at s j v = true <-> v ∈ voters j h) /\
  NoDup (voters j h) /\
  (id (proposal_at s j) = 0 -> voters j h = []) /\
  yesVotes (proposal_at s j) + noVotes (proposal_at s j)
    = Z.of_nat (length (voters j h)).

(** What the donation records and totals of proposal [j] have to do with the
    donations and withdrawals of a history. *)
Definition donation_invariant (s : State) (h : list Receipt) (j : Z) : Prop :=
  proposalDonations_at s j = donations_made j h /\
  (forall u, userDonationTotal_at s j u
             = sum_amounts (donated_by u (donations_made j h))) /\
  totalFundsRaised (proposal_at s j)
    = sum_amounts (donations_made j h) - sum_list (withdrawals j h) /\
  Forall (fun d => 0 < amount d) (donations_made j h) /\
  (id (proposal_at s j) = 0 ->
   donations_made j h = [] /\ withdrawals j h = []).

(** ** Worked scenarios *)

Definition env (sender now : Z) : Env :=
  {| msg_sender := sender; block_timestamp := now; call_ok := true |}.

Definition tx (sender now : Z) (c : Call) : Tx :=
  {| tx_env := env sender now; tx_call := c |}.

Definition new_park (deadline goal : Z) : Call :=
  CreateProposal "Elm Park" "park-1" "felling of the old elms" deadline
    zero_EnvironmentalData zero_Demographics "0.0.7" true goal.

Definition deployed : State := constructor 500 1.

Definition park_votes : list Tx :=
  [tx 7 10 (new_park 100 1000);
   tx 8 20 (Vote 1 true 8);
   tx 9 30 (Vote 1 true 9);
   tx 10 40 (Vote 1 false 10)].

Definition park_voted : State := run deployed park_votes.

Definition park_funding : list Tx :=
  park_votes ++
  [tx 1 101 (UpdateProposalStatus 1);
   tx 20 110 (DonateToProposal 400 1);
   tx 21 120 (DonateToProposal 400 1)].

Definition park_funded : State := run deployed park_funding.

Definition garden_votes : list Tx :=
  [tx 7 10 (new_park 100 0);
   tx 8 20 (Vote 1 true 8);
   tx 1 101 (UpdateProposalStatus 1)].

Definition garden_accepted : State := run deployed garden_votes.

Definition whale_funding : list Tx :=
  [tx 7 10 (new_park 100 1);
   tx 1 20 (ForceCloseProposal 1 Accepted);
   tx 20 30 (DonateToProposal (2 ^ 255) 1)].

Definition whale_funded : State := run deployed whale_funding.

(** ** The remaining view functions *)

Definition isProposalActive (e : Env) (proposalId : Z) : M bool :=
  proposalExists proposalId;;
  s ← get;
  mret (bool_decide (status (proposal_at s proposalId) = Active)
        && (block_timestamp e <=? endDate (proposal_at s proposalId))).

(** [for (uint64 i = start; i <= last; i++) body], the loop of the four
    functions that list proposals: [body] works on the local variables [acc],
    and the increment of [i] is checked like any other. *)
Unset Equations With Funext.
Equations? for_each_id {A} (body : Z -> A -> result A) (last i : Z) (acc : A)
    : result A by wf (Z.to_nat (last + 1 - i)) lt :=
  for_each_id body last i acc with decide (i <= last) := {
    | left _ with body i acc := {
        | Ok acc' with decide (i + 1 <= uint64_max) := {
            | left _ => for_each_id body last (i + 1) acc'
            | right _ => Panic 17 }
        | Revert r => Revert r
        | Panic c => Panic c }
    | right _ => Ok acc }.
Proof. lia. Qed.

(** [n++] on a [uint64] local. *)
Definition incr_uint64 (n : Z) : result Z :=
  if n + 1 <=? uint64_max then Ok (n + 1) else Panic 17.

(** [arr[index] = v] on a memory array: an index past the end aborts the call
    with [Panic 50] (0x32). *)
Definition store (arr : list Z) (index v : Z) : result (list Z) :=
  if index <? Z.of_nat (length arr)
  then Ok (<[Z.to_nat index := v]> arr)
  else Panic 50.

(** The body of the first loop: count the proposals that pass [test]. *)
Definition count_body (test : Proposal -> bool) (s : State) (i count : Z)
    : result Z :=
  if test (proposal_at s i) then incr_uint64 count else Ok count.

(** The body of the second loop: write the id at [index] and move on. *)
Definition fill_body (test : Proposal -> bool) (s : State) (i : Z)
    (acc : Z * list Z) : result (Z * list Z) :=
  let '(index, arr) := acc in
  if test (proposal_at s i) then
    match store arr index i with
    | Ok arr' =>
        match incr_uint64 index with
        | Ok index' => Ok (index', arr')
        | Revert r => Revert r
        | Panic c => Panic c
        end
    | Revert r => Revert r
    | Panic c => Panic c
    end
  else Ok (index, arr).

(** The common text of [getAllActiveProposals], [getAllAcceptedProposals],
    [getAllRejectedProposals] and [getAllClosedProposals], which differ in
    the test on the status only: count, allocate an array of that length
    ([new uint64[](count)], all zero), fill it. *)
Definition proposals_where (test : Proposal -> bool) : M (list Z) := fun s =>
  match for_each_id (count_body test s) (proposalCounter s) 1 0 with
  | Ok count =>
      match for_each_id (fill_body test s) (proposalCounter s) 1
              (0, replicate (Z.to_nat count) 0) with
      | Ok (_, arr) => Ok (arr, s, [])
      | Revert r => Revert r
      | Panic c => Panic c
      end
  | Revert r => Revert r
  | Panic c => Panic c
  end.

Definition getAllActiveProposals : M (list Z) :=
  proposals_where (fun p => bool_decide (status p = Active)).

Definition getAllAcceptedProposals : M (list Z) :=
  proposals_where (fun p => bool_decide (status p = Accepted)).

Definition getAllRejectedProposals : M (list Z) :=
  proposals_where (fun p => bool_decide (status p = Declined)).

Definition getAllClosedProposals : M (list Z) :=
  proposals_where (fun p => bool_decide (status p = Accepted)
                            || bool_decide (status p = Declined)).

(** The ids [1 .. proposalCounter] whose proposal has one of the statuses
    [sts], in increasing order. *)
Definition ids_with_status (sts : list ProposalStatus) (s : State) : list Z :=
  filter (fun i => status (proposal_at s i) ∈ sts)
    (seqZ 1 (proposalCounter s)).

(** A loop over a list of ids, stopping at the first failure. *)
Fixpoint fold_ids {A} (body : Z -> A -> result A) (l : list Z) (acc : A)
    : result A :=
  match l with
  | [] => Ok acc
  | i :: l' =>
      match body i acc with
      | Ok acc' => fold_ids body l' acc'
      | Revert r => Revert r
      | Panic c => Panic c
      end
  end.

(** The part of a proposal that [createProposal] writes and nothing else
    touches. *)
Definition metadata (p : Proposal)
    : Z * string * string * string * Z * EnvironmentalData * Demographics
      * string :=
  (id p, parkName p, parkId p, description p, endDate p, environmentalData p,
   demographics p, creatorAccountId p).

(** The voter and the choice of a successful [vote] on [proposalId]. *)
Definition ballot (proposalId : Z) (r : Receipt) : option (Z * bool) :=
  match tx_call (receipt_tx r), receipt_result r with
  | Vote p v voter, Ok _ =>
      if bool_decide (p = proposalId) then Some (voter, v) else None
  | _, _ => None
  end.

Definition ballots (proposalId : Z) (h : list Receipt) : list (Z * bool) :=
  omap (ballot proposalId) h.

Definition count_choice (v : bool) (bs : list (Z * bool)) : Z :=
  Z.of_nat (length (filter (fun b => b.2 = v) bs)).

(** What the vote records of proposal [j] have to do with the ballots of a
    history. *)
Definition ballot_invariant (s : State) (h : list Receipt) (j : Z) : Prop :=
  yesVotes (proposal_at s j) = count_choice true (ballots j h) /\
  noVotes (proposal_at s j) = count_choice false (ballots j h) /\
  (forall u b, (u, b) ∈ ballots j h ->
               userVotes_at s j u = b /\ hasVoted_at s j u = true) /\
  (forall u, u ∉ (ballots j h).*1 ->
             userVotes_at s j u = false /\ hasVoted_at s j u = false) /\
  (id (proposal_at s j) = 0 -> ballots j h = []).

(** What the proposals hold together: the sum of [totalFundsRaised] over the
    ids [1 .. proposalCounter]. *)
Definition escrowed (s : State) : Z :=
  sum_list ((fun i => totalFundsRaised (proposal_at s i))
              <$> seqZ 1 (proposalCounter s)).

(** [msg.value] of a transaction: what the two payable entry points are sent,
    and nothing for the others. *)
Definition value_sent (t : Tx) : Z :=
  match tx_call t with
  | DonateToProposal v _ => v
  | Receive v => v
  | _ => 0
  end.

(** Three proposals: the first accepted at its deadline, the second declined
    by the owner before its deadline, the third still open. *)
Definition three_parks_txs : list Tx :=
  [tx 7 10 (new_park 100 1000);
   tx 7 11 (new_park 200 0);
   tx 7 12 (new_park 300 500);
   tx 8 20 (Vote 1 true 8);
   tx 9 30 (Vote 2 false 9);
   tx 1 101 (UpdateProposalStatus 1);
   tx 1 102 (ForceCloseProposal 2 Declined)].

Definition three_parks : State := run deployed three_parks_txs.

(** ** The service in front of the contract

    The backend reaches the contract through [HederaService], which signs
    every transaction with its one operator account. *)

(** The calls of [vote] that one sender makes in the name of [voters], one
    after the other: the voter is an argument of [vote], as the service's
    [submitVote] passes it. *)
Definition votes_for (e : Env) (proposalId : Z) (voteValue : bool)
    (voters : list Z) : list Tx :=
  (fun voter => {| tx_env := e; tx_call := Vote proposalId voteValue voter |})
    <$> voters.

(** [HederaService.closeProposal]: the service reads the proposal with
    [getProposal], gives up when there is none, and else sends
    [updateProposalStatus] when its own clock [now], in milliseconds, is past
    the deadline, and [forceCloseProposal] with the status its reading of the
    tallies gives ([1], [Accepted], or [2], [Declined]) when not. The numbers
    of the service are JavaScript numbers, taken here for the integers they
    stand for, which they are up to [2 ^ 53]. *)
Definition closeProposal (operator : Env) (now proposalId : Z) (s : State)
    : option Tx :=
  match view (getProposal proposalId) s with
  | Ok proposal =>
      let newStatus :=
        if yesVotes proposal >? noVotes proposal then Accepted else Declined in
      let votingEnded := now >? endDate proposal * 1000 in
      Some {| tx_env := operator;
              tx_call := if votingEnded
                         then UpdateProposalStatus proposalId
                         else ForceCloseProposal proposalId newStatus |}
  | _ => None
  end.

(** The numbers that the service reads without loss. *)
Definition js_exact (n : Z) : Prop := 0 <= n <= 2 ^ 53.

(** ** Calls back into the contract

    [withdrawFunds] hands control to the recipient, whose code can call any
    function of the contract before it answers. A [NestedCall] is a call of
    [sender] together with what the recipient of its value call, if it makes
    one, does: the calls it makes back, in order, each with the same of its
    own, and its answer. All of them run in one transaction, at one
    [block.timestamp]. *)

Unset Elimination Schemes.
Inductive Nested :=
  | NestedCall (sender : Z) (c : Call) (call_backs : list Nested)
      (accepts : bool).
Set Elimination Schemes.

(** A call made from the code of a recipient: when it fails, what it did is
    undone and the code of the recipient goes on. *)
Definition attempt {A} (m : M A) : M unit := fun s =>
  match m s with
  | Ok (_, s', l) => Ok (tt, s', l)
  | _ => Ok (tt, s, [])
  end.

Fixpoint exec_nested (now : Z) (n : Nested) : M Returned :=
  match n with
  | NestedCall sender c call_backs accepts =>
      let e := {| msg_sender := sender; block_timestamp := now;
                  call_ok := accepts |} in
      match c with
      | WithdrawFunds proposalId recipient =>
          withdrawFunds_during
            ((fix call_back (l : list Nested) : M unit :=
                match l with
                | [] => mret tt
                | n' :: l' => attempt (exec_nested now n');; call_back l'
                end) call_backs)
            e proposalId recipient;;
          mret RetNone
      | _ => exec {| tx_env := e; tx_call := c |}
      end
  end.

(** What the code of a recipient does to the contract. *)
Fixpoint call_back (now : Z) (l : list Nested) : M unit :=
  match l with
  | [] => mret tt
  | n' :: l' => attempt (exec_nested now n');; call_back now l'
  end.

Definition step_nested (now : Z) (s : State) (n : Nested) : State :=
  commit (exec_nested now n) s.

(** The calls of a nested call, its own first. *)
Fixpoint calls_of (n : Nested) : list Call :=
  match n with
  | NestedCall _ c call_backs _ =>
      c :: (fix calls_of_all (l : list Nested) : list Call :=
              match l with
              | [] => []
              | n' :: l' => calls_of n' ++ calls_of_all l'
              end) call_backs
  end.

Fixpoint calls_of_all (l : list Nested) : list Call :=
  match l with
  | [] => []
  | n' :: l' => calls_of n' ++ calls_of_all l'
  end.

Definition donation_to (proposalId : Z) (c : Call) : bool :=
  match c with
  | DonateToProposal _ p => bool_decide (p = proposalId)
  | _ => false
  end.

(** The owner withdraws the funds of the first proposal of [park_funded] to
    an address whose code gives the 800 it receives back as a donation to
    that proposal. *)
Definition refunding_withdrawal : Nested :=
  NestedCall 1 (WithdrawFunds 1 77)
    [NestedCall 77 (DonateToProposal 800 1) [] true] true.

(** ** Proof support *)

Ltac sol_unfold :=
  unfold require, checked_add, checked_mul, mbind, M_bind, mret, M_ret, bind,
    ret, get, modify, emit, revert, panic in *.

Ltac sol_inv H :=
  sol_unfold; cbn in H;
  repeat (match type of H with
          | context [if ?c then _ else _] => destruct c eqn:?; cbn in H
          end);
  try discriminate H.

(** Reading a mapping through a write of another state variable. *)
Section frame.
Context (s : State) (i j a b z : Z) (v : bool) (p : Proposal)
    (l : list Donation).

Lemma proposal_at_set_userVotes :
    proposal_at (set_userVotes i a v s) j = proposal_at s j.
Proof. reflexivity. Qed.

Lemma proposal_at_set_hasVoted :
    proposal_at (set_hasVoted i a v s) j = proposal_at s j.
Proof. reflexivity. Qed.

Lemma proposal_at_set_proposalDonations :
    proposal_at (set_proposalDonations i l s) j = proposal_at s j.
Proof. reflexivity. Qed.

Lemma proposal_at_set_userDonationTotal :
    proposal_at (set_userDonationTotal i a z s) j = proposal_at s j.
Proof. reflexivity. Qed.

Lemma proposal_at_set_proposalCounter :
    proposal_at (set_proposalCounter z s) j = proposal_at s j.
Proof. reflexivity. Qed.

Lemma proposal_at_set_balance :
    proposal_at (set_balance z s) j = proposal_at s j.
Proof. reflexivity. Qed.

Lemma userVotes_at_set_proposal :
    userVotes_at (set_proposal i p s) j b = userVotes_at s j b.
Proof. reflexivity. Qed.

Lemma userVotes_at_set_hasVoted :
    userVotes_at (set_hasVoted i a v s) j b = userVotes_at s j b.
Proof. reflexivity. Qed.

Lemma userVotes_at_set_proposalDonations :
    userVotes_at (set_proposalDonations i l s) j b = userVotes_at s j b.
Proof. reflexivity. Qed.

Lemma userVotes_at_set_userDonationTotal :
    userVotes_at (set_userDonationTotal i a z s) j b = userVotes_at s j b.
Proof. reflexivity. Qed.

Lemma userVotes_at_set_proposalCounter :
    userVotes_at (set_proposalCounter z s) j b = userVotes_at s j b.
Proof. reflexivity. Qed.

Lemma userVotes_at_set_balance :
    userVotes_at (set_balance z s) j b = userVotes_at s j b.
Proof. reflexivity. Qed.

Lemma hasVoted_at_set_proposal :
    hasVoted_at (set_proposal i p s) j b = hasVoted_at s j b.
Proof. reflexivity. Qed.

Lemma hasVoted_at_set_userVotes :
    hasVoted_at (set_userVotes i a v s) j b = hasVoted_at s j b.
Proof. reflexivity. Qed.

Lemma hasVoted_at_set_proposalDonations :
    hasVoted_at (set_proposalDonations i l s) j b = hasVoted_at s j b.
Proof. reflexivity. Qed.

Lemma hasVoted_at_set_userDonationTotal :
    hasVoted_at (set_userDonationTotal i a z s) j b = hasVoted_at s j b.
Proof. reflexivity. Qed.

Lemma hasVoted_at_set_proposalCounter :
    hasVoted_at (set_proposalCounter z s) j b = hasVoted_at s j b.
Proof. reflexivity. Qed.

Lemma hasVoted_at_set_balance :
    hasVoted_at (set_balance z s) j b = hasVoted_at s j b.
Proof. reflexivity. Qed.

Lemma proposalDonations_at_set_proposal :
    proposalDonations_at (set_proposal i p s) j = proposalDonations_at s j.
Proof. reflexivity. Qed.

Lemma proposalDonations_at_set_userVotes :
    proposalDonations_at (set_userVotes i a v s) j = proposalDonations_at s j.
Proof. reflexivity. Qed.

Lemma proposalDonations_at_set_hasVoted :
    proposalDonations_at (set_hasVoted i a v s) j = proposalDonations_at s j.
Proof. reflexivity. Qed.

Lemma proposalDonations_at_set_userDonationTotal :
    proposalDonations_at (set_userDonationTotal i a z s) j = proposalDonations_at s j.
Proof. reflexivity. Qed.

Lemma proposalDonations_at_set_proposalCounter :
    proposalDonations_at (set_proposalCounter z s) j = proposalDonations_at s j.
Proof. reflexivity. Qed.

Lemma proposalDonations_at_set_balance :
    proposalDonations_at (set_balance z s) j = proposalDonations_at s j.
Proof. reflexivity. Qed.

Lemma userDonationTotal_at_set_proposal :
    userDonationTotal_at (set_proposal i p s) j b = userDonationTotal_at s j b.
Proof. reflexivity. Qed.

Lemma userDonationTotal_at_set_userVotes :
    userDonationTotal_at (set_userVotes i a v s) j b = userDonationTotal_at s j b.
Proof. reflexivity. Qed.

Lemma userDonationTotal_at_set_hasVoted :
    userDonationTotal_at (set_hasVoted i a v s) j b = userDonationTotal_at s j b.
Proof. reflexivity. Qed.

Lemma userDonationTotal_at_set_proposalDonations :
    userDonationTotal_at (set_proposalDonations i l s) j b = userDonationTotal_at s j b.
Proof. reflexivity. Qed.

Lemma userDonationTotal_at_set_proposalCounter :
    userDonationTotal_at (set_proposalCounter z s) j b = userDonationTotal_at s j b.
Proof. reflexivity. Qed.

Lemma userDonationTotal_at_set_balance :
    userDonationTotal_at (set_balance z s) j b = userDonationTotal_at s j b.
Proof. reflexivity. Qed.

End frame.

Create Rewrite HintDb state.
#[global] Hint Rewrite
  proposal_at_set_userVotes proposal_at_set_hasVoted
  proposal_at_set_proposalDonations proposal_at_set_userDonationTotal
  proposal_at_set_proposalCounter proposal_at_set_balance
  userVotes_at_set_proposal userVotes_at_set_hasVoted
  userVotes_at_set_proposalDonations userVotes_at_set_userDonationTotal
  userVotes_at_set_proposalCounter userVotes_at_set_balance
  hasVoted_at_set_proposal hasVoted_at_set_userVotes
  hasVoted_at_set_proposalDonations hasVoted_at_set_userDonationTotal
  hasVoted_at_set_proposalCounter hasVoted_at_set_balance
  proposalDonations_at_set_proposal proposalDonations_at_set_userVotes
  proposalDonations_at_set_hasVoted proposalDonations_at_set_userDonationTotal
  proposalDonations_at_set_proposalCounter proposalDonations_at_set_balance
  userDonationTotal_at_set_proposal userDonationTotal_at_set_userVotes
  userDonationTotal_at_set_hasVoted userDonationTotal_at_set_proposalDonations
  userDonationTotal_at_set_proposalCounter userDonationTotal_at_set_balance
  : state.

Lemma proposal_at_set_proposal i p s j :
  proposal_at (set_proposal i p s) j = if decide (i = j) then p else proposal_at s j.
Proof.
  unfold proposal_at, set_proposal; simpl.
  rewrite lookup_insert. by destruct (decide (i = j)).
Qed.

Lemma proposal_at_set_proposal_eq i p s :
  proposal_at (set_proposal i p s) i = p.
Proof. rewrite proposal_at_set_proposal. by rewrite decide_True. Qed.

Lemma proposal_at_set_proposal_ne i p s j :
  i <> j -> proposal_at (set_proposal i p s) j = proposal_at s j.
Proof. intros. rewrite proposal_at_set_proposal. by rewrite decide_False. Qed.

Lemma hasVoted_at_set_hasVoted i a v s j b :
  hasVoted_at (set_hasVoted i a v s) j b =
  if decide ((i, a) = (j, b)) then v else hasVoted_at s j b.
Proof.
  unfold hasVoted_at, set_hasVoted; simpl.
  rewrite lookup_insert. by destruct (decide ((i, a) = (j, b))).
Qed.

Lemma proposalDonations_at_set i l s j :
  proposalDonations_at (set_proposalDonations i l s) j =
  if decide (i = j) then l else proposalDonations_at s j.
Proof.
  unfold proposalDonations_at, set_proposalDonations; simpl.
  rewrite lookup_insert. by destruct (decide (i = j)).
Qed.

Lemma userDonationTotal_at_set i a v s j b :
  userDonationTotal_at (set_userDonationTotal i a v s) j b =
  if decide ((i, a) = (j, b)) then v else userDonationTotal_at s j b.
Proof.
  unfold userDonationTotal_at, set_userDonationTotal; simpl.
  rewrite lookup_insert. by destruct (decide ((i, a) = (j, b))).
Qed.

(** ** What a call that goes through has checked and done *)

Lemma createProposal_Ok_inv e n i d dl ed dm c fe g s r s' l :
  createProposal e n i d dl ed dm c fe g s = Ok (r, s', l) ->
  r = proposalCounter s + 1 /\
  r <= uint64_max /\
  block_timestamp e < dl /\
  l = [Emit (ProposalCreated r n i dl c)] /\
  s' = set_proposal r
         {| id := r; parkName := n; parkId := i; description := d;
            endDate := dl; status := Active; yesVotes := 0; noVotes := 0;
            environmentalData := ed; demographics := dm;
            creatorAccountId := c; fundingGoal := g; totalFundsRaised := 0;
            fundingEnabled := false |}
         (set_proposalCounter r s).
Proof.
  unfold createProposal. intros H. sol_inv H.
  inversion H; subst; clear H. repeat split; try done; lia.
Qed.

Lemma vote_Ok_inv e pid v voter s s' l :
  vote e pid v voter s = Ok (tt, s', l) ->
  id (proposal_at s pid) <> 0 /\
  status (proposal_at s pid) = Active /\
  hasVoted_at s pid voter = false /\
  block_timestamp e <= endDate (proposal_at s pid) /\
  (if v then yesVotes (proposal_at s pid) else noVotes (proposal_at s pid)) + 1
    <= uint64_max /\
  l = [Emit (VoteCast pid voter v)] /\
  s' = set_proposal pid
         (if v
          then with_yesVotes (yesVotes (proposal_at s pid) + 1) (proposal_at s pid)
          else with_noVotes (noVotes (proposal_at s pid) + 1) (proposal_at s pid))
         (set_hasVoted pid voter true (set_userVotes pid voter v s)).
Proof.
  unfold vote, proposalExists, proposalActive, hasNotVoted, votingPeriodActive.
  intros H. sol_inv H; inversion H; subst; clear H;
    change (proposal_at (set_hasVoted _ _ _ (set_userVotes _ _ _ s)) pid)
      with (proposal_at s pid) in *;
    repeat split; try done;
    try (by apply bool_decide_eq_true in Heqb0);
    try (by apply negb_true_iff in Heqb1); try lia.
Qed.

Lemma updateProposalStatus_Ok_inv e pid s s' l :
  updateProposalStatus e pid s = Ok (tt, s', l) ->
  let p := proposal_at s pid in
  let newStatus := if yesVotes p >? noVotes p then Accepted else Declined in
  msg_sender e = owner s /\
  id p <> 0 /\
  status p = Active /\
  endDate p < block_timestamp e /\
  l = [Emit (ProposalStatusUpdated pid newStatus)] /\
  s' = set_proposal pid
         (with_status newStatus
            (if (yesVotes p >? noVotes p) && (fundingGoal p >? 0)
             then with_fundingEnabled true p else p)) s.
Proof.
  unfold updateProposalStatus, onlyOwner, proposalExists, proposalActive.
  intros H. sol_inv H; inversion H; subst; clear H; cbn;
    rewrite ?proposal_at_set_proposal_eq;
    repeat split; try done;
    try (by apply bool_decide_eq_true in Heqb);
    try (by apply bool_decide_eq_true in Heqb1); try lia.
  unfold set_proposal; cbn. by rewrite insert_insert_eq.
Qed.

Lemma forceCloseProposal_Ok_inv e pid newStatus s s' l :
  forceCloseProposal e pid newStatus s = Ok (tt, s', l) ->
  let p := proposal_at s pid in
  msg_sender e = owner s /\
  id p <> 0 /\
  status p = Active /\
  l = [Emit (ProposalStatusUpdated pid newStatus)] /\
  s' = set_proposal pid
         (if bool_decide (newStatus = Accepted) && (fundingGoal p >? 0)
          then with_fundingEnabled true (with_status newStatus p)
          else with_status newStatus p) s.
Proof.
  unfold forceCloseProposal, onlyOwner, proposalExists, proposalActive.
  intros H. sol_inv H; inversion H; subst; clear H; cbn;
    rewrite proposal_at_set_proposal_eq in *; cbn in *;
    rewrite ?Heqb2; cbn;
    repeat split; try done;
    try (by apply bool_decide_eq_true in Heqb);
    try (by apply bool_decide_eq_true in Heqb1); try lia.
  unfold set_proposal; cbn. by rewrite insert_insert_eq.
Qed.

Lemma setFundingGoal_Ok_inv e pid goal s s' l :
  setFundingGoal e pid goal s = Ok (tt, s', l) ->
  msg_sender e = owner s /\
  id (proposal_at s pid) <> 0 /\
  status (proposal_at s pid) = Accepted /\
  l = [Emit (FundingGoalSet pid goal)] /\
  s' = set_proposal pid (with_fundingGoal goal (proposal_at s pid)) s.
Proof.
  unfold setFundingGoal, onlyOwner, proposalExists.
  intros H. sol_inv H; inversion H; subst; clear H;
    repeat split; try done;
    try (by apply bool_decide_eq_true in Heqb);
    try (by apply bool_decide_eq_true in Heqb1); try lia.
Qed.

Lemma donateToProposal_Ok_inv e v pid s s' l :
  donateToProposal e v pid s = Ok (tt, s', l) ->
  let p := proposal_at s pid in
  let d := {| donor := msg_sender e; amount := v;
              timestamp := block_timestamp e |} in
  id p <> 0 /\
  status p = Accepted /\
  fundingEnabled p = true /\
  0 < v /\
  userDonationTotal_at s pid (msg_sender e) + v <= uint256_max /\
  totalFundsRaised p + v <= uint256_max /\
  l = [Emit (DonationReceived pid (msg_sender e) v (block_timestamp e))] /\
  s' = set_proposal pid (with_totalFundsRaised (totalFundsRaised p + v) p)
         (set_userDonationTotal pid (msg_sender e)
            (userDonationTotal_at s pid (msg_sender e) + v)
            (set_proposalDonations pid (proposalDonations_at s pid ++ [d])
               (set_balance (balance s + v) s))).
Proof.
  unfold donateToProposal, receive_value, proposalExists.
  intros H. sol_inv H; inversion H; subst; clear H;
    repeat split; try done;
    autorewrite with state in *;
    repeat split; try done;
    try (by apply bool_decide_eq_true in Heqb0); try lia.
Qed.

Lemma withdrawFunds_Ok_inv e pid recipient s s' l :
  withdrawFunds e pid recipient s = Ok (tt, s', l) ->
  let p := proposal_at s pid in
  msg_sender e = owner s /\
  id p <> 0 /\
  0 < totalFundsRaised p /\
  transfer_accepted e s recipient (totalFundsRaised p) = true /\
  l = [Transfer recipient (totalFundsRaised p);
       Emit (FundsWithdrawn pid recipient (totalFundsRaised p)
               (block_timestamp e))] /\
  s' = (if bool_decide (recipient = this s)
        then (fun x => x)
        else set_balance (balance s - totalFundsRaised p))
         (set_proposal pid (with_totalFundsRaised 0 p) s).
Proof.
  unfold withdrawFunds, withdrawFunds_during, onlyOwner, proposalExists,
    call_value, transfer_accepted.
  intros H. sol_inv H; inversion H; subst; clear H; cbn in *;
    rewrite ?Heqb2, ?Heqb3, ?Heqb4; cbn;
    repeat split; try done;
    try (by apply bool_decide_eq_true in Heqb); try lia.
Qed.

Lemma receive_Ok_inv v s s' l :
  receive v s = Ok (tt, s', l) ->
  l = [] /\ s' = set_balance (balance s + v) s.
Proof.
  unfold receive, receive_value. intros H. sol_inv H.
  by inversion H.
Qed.

(** ** Transactions and runs *)

Lemma bind_ret_Ok_inv {A B} (m : M A) (g : A -> B) s b s' l :
  (x ← m; mret (g x)) s = Ok (b, s', l) ->
  exists a, m s = Ok (a, s', l) /\ b = g a.
Proof.
  sol_unfold. destruct (m s) as [[[a s1] l1]| |]; try discriminate.
  intros H; inversion H; subst. exists a. by rewrite app_nil_r.
Qed.

Lemma step_cases s t :
  (step s t = s /\ forall x, outcome t s <> Ok x) \/
  (exists r s' l, exec t s = Ok (r, s', l) /\ step s t = s' /\
                  outcome t s = Ok (r, l)).
Proof.
  unfold step, commit, outcome.
  destruct (exec t s) as [[[r s'] l]| |].
  - right. by exists r, s', l.
  - left. by split.
  - left. by split.
Qed.

Lemma run_snoc s txs t : run s (txs ++ [t]) = step (run s txs) t.
Proof. unfold run. by rewrite fold_left_app. Qed.

Lemma history_snoc s txs t :
  history s (txs ++ [t]) = history s txs ++ [receipt (run s txs) t].
Proof.
  revert s. induction txs as [|t' txs IH]; intros s; cbn; [done|].
  by rewrite IH.
Qed.

Lemma omap_snoc {A B} (f : A -> option B) (l : list A) (x : A) :
  omap f (l ++ [x]) =
  omap f l ++ match f x with Some y => [y] | None => [] end.
Proof. rewrite omap_app. cbn. by destruct (f x). Qed.

Lemma reachable_run this_ deployer txs :
  reachable (run (constructor this_ deployer) txs).
Proof.
  induction txs as [|t txs IH] using rev_ind.
  - apply reachable_init.
  - rewrite run_snoc. by apply reachable_step.
Qed.

Lemma reachable_is_run s :
  reachable s -> exists this_ deployer txs, s = run (constructor this_ deployer) txs.
Proof.
  induction 1 as [this_ deployer|s t _ (this_ & deployer & txs & ->)].
  - by exists this_, deployer, [].
  - exists this_, deployer, (txs ++ [t]). by rewrite run_snoc.
Qed.

(** Case analysis on a transaction that went through: [H] is
    [exec t s = Ok (r, s', l)]. *)
Ltac exec_inv H :=
  match type of H with
  | exec ?t ?s = Ok _ =>
      let e := fresh "e" in
      let c := fresh "c" in
      destruct t as [e c]; destruct c; unfold exec in H;
      cbn [tx_env tx_call] in H;
      apply bind_ret_Ok_inv in H;
      let a := fresh "a" in
      let Hf := fresh "Hf" in
      destruct H as (a & Hf & ->);
      lazymatch type of a with unit => destruct a | _ => idtac end
  end.

(** ** The funding flag and the status *)

Lemma funding_invariant_step s t :
  funding_invariant s -> funding_invariant (step s t).
Proof.
  intros Hinv.
  destruct (step_cases s t) as [[-> _]|(r & s' & l & Hex & -> & _)]; [done|].
  exec_inv Hex.
  - apply createProposal_Ok_inv in Hf as (-> & _ & _ & _ & ->).
    intros j. rewrite proposal_at_set_proposal.
    destruct (decide _); cbn; [done|]. autorewrite with state. apply Hinv.
  - apply vote_Ok_inv in Hf as (_ & _ & _ & _ & _ & _ & ->).
    intros j. rewrite proposal_at_set_proposal.
    destruct (decide _) as [<-|]; autorewrite with state; [|apply Hinv].
    destruct voteValue; cbn; apply Hinv.
  - apply updateProposalStatus_Ok_inv in Hf as (_ & Hid & Hst & _ & _ & ->).
    intros j. rewrite proposal_at_set_proposal.
    destruct (decide _) as [<-|]; [|apply Hinv].
    destruct (Hinv _ Hid) as [Hact _]. specialize (Hact Hst).
    destruct (yesVotes _ >? _), (_ >? 0); cbn; rewrite ?Hact; done.
  - apply forceCloseProposal_Ok_inv in Hf as (_ & Hid & Hst & _ & ->).
    intros j. rewrite proposal_at_set_proposal.
    destruct (decide _) as [<-|]; [|apply Hinv].
    destruct (Hinv _ Hid) as [Hact _]. specialize (Hact Hst).
    destruct newStatus, (_ >? 0); case_bool_decide; try discriminate;
      cbn; rewrite ?Hact; done.
  - apply setFundingGoal_Ok_inv in Hf as (_ & _ & _ & _ & ->).
    intros j. rewrite proposal_at_set_proposal.
    destruct (decide _) as [<-|]; cbn; apply Hinv.
  - apply donateToProposal_Ok_inv in Hf as (_ & _ & _ & _ & _ & _ & _ & ->).
    intros j. rewrite proposal_at_set_proposal.
    destruct (decide _) as [<-|]; autorewrite with state; cbn; apply Hinv.
  - apply withdrawFunds_Ok_inv in Hf as (_ & _ & _ & _ & _ & ->).
    intros j. destruct (bool_decide _); autorewrite with state;
      rewrite proposal_at_set_proposal;
      destruct (decide _) as [<-|]; cbn; apply Hinv.
  - apply receive_Ok_inv in Hf as (_ & ->).
    intros j. autorewrite with state. apply Hinv.
Qed.

Lemma funding_invariant_init this_ deployer :
  funding_invariant (constructor this_ deployer).
Proof. intros j Hid. by destruct Hid. Qed.

(** C5. In every state the contract can reach, and across every transaction,
    each existing proposal that is [Active] has funding disabled, and each
    existing proposal with funding enabled is [Accepted]. *)
Theorem funding_enabled_only_when_accepted :
  (forall s t, funding_invariant s -> funding_invariant (step s t)) /\
  (forall s, reachable s ->
     forall proposalId,
       id (proposal_at s proposalId) <> 0 ->
       (status (proposal_at s proposalId) = Active ->
        fundingEnabled (proposal_at s proposalId) = false) /\
       (fundingEnabled (proposal_at s proposalId) = true ->
        status (proposal_at s proposalId) = Accepted)).
Proof.
  split; [apply funding_invariant_step|].
  intros s Hr. change (funding_invariant s).
  induction Hr; [apply funding_invariant_init | by apply funding_invariant_step].
Qed.

(** ** The registry of proposals *)

Lemma registry_invariant_step s t :
  registry_invariant s -> registry_invariant (step s t).
Proof.
  intros [Hc Hinv].
  destruct (step_cases s t) as [[-> _]|(r & s' & l & Hex & -> & _)]; [done|].
  exec_inv Hex.
  - apply createProposal_Ok_inv in Hf as (-> & _ & _ & _ & ->).
    split; cbn; [lia|]. intros j. rewrite proposal_at_set_proposal.
    destruct (decide _) as [<-|]; cbn; [lia|].
    autorewrite with state. intros Hj. apply Hinv in Hj. lia.
  - apply vote_Ok_inv in Hf as (_ & _ & _ & _ & _ & _ & ->).
    split; [done|]. intros j. rewrite proposal_at_set_proposal.
    destruct (decide _) as [<-|]; autorewrite with state; [|apply Hinv].
    destruct voteValue; cbn; apply Hinv.
  - apply updateProposalStatus_Ok_inv in Hf as (_ & _ & _ & _ & _ & ->).
    split; [done|]. intros j. rewrite proposal_at_set_proposal.
    destruct (decide _) as [<-|]; [|apply Hinv].
    destruct (_ && _); cbn; apply Hinv.
  - apply forceCloseProposal_Ok_inv in Hf as (_ & _ & _ & _ & ->).
    split; [done|]. intros j. rewrite proposal_at_set_proposal.
    destruct (decide _) as [<-|]; [|apply Hinv].
    destruct (_ && _); cbn; apply Hinv.
  - apply setFundingGoal_Ok_inv in Hf as (_ & _ & _ & _ & ->).
    split; [done|]. intros j. rewrite proposal_at_set_proposal.
    destruct (decide _) as [<-|]; cbn; apply Hinv.
  - apply donateToProposal_Ok_inv in Hf as (_ & _ & _ & _ & _ & _ & _ & ->).
    split; [done|]. intros j. rewrite proposal_at_set_proposal.
    destruct (decide _) as [<-|]; autorewrite with state; cbn; apply Hinv.
  - apply withdrawFunds_Ok_inv in Hf as (_ & _ & _ & _ & _ & ->).
    destruct (bool_decide _); (split; [done|]); intros j;
      autorewrite with state; rewrite proposal_at_set_proposal;
      destruct (decide _) as [<-|]; cbn; apply Hinv.
  - apply receive_Ok_inv in Hf as (_ & ->).
    split; [done|]. intros j. autorewrite with state. apply Hinv.
Qed.

Lemma registry_invariant_reachable s : reachable s -> registry_invariant s.
Proof.
  induction 1; [|by apply registry_invariant_step].
  split; [done|]. intros j Hj. by destruct Hj.
Qed.

Lemma created_id_fail s t :
  (forall x, outcome t s <> Ok x) -> created_id (receipt s t) = None.
Proof.
  intros H. unfold created_id, receipt; cbn.
  destruct (tx_call t); try done.
  destruct (outcome t s) as [[[] ?]| |] eqn:Ho; try done.
  by destruct (H _ eq_refl).
Qed.

Lemma created_ids_counter this_ deployer txs :
  let s := run (constructor this_ deployer) txs in
  0 <= proposalCounter s /\
  created_ids (history (constructor this_ deployer) txs) =
    seqZ 1 (proposalCounter s).
Proof.
  induction txs as [|t txs [IHc IH]] using rev_ind; [done|].
  cbn zeta. rewrite run_snoc, history_snoc.
  unfold created_ids in *. rewrite omap_snoc, IH.
  set (s := run (constructor this_ deployer) txs) in *. clearbody s.
  destruct (step_cases s t) as [[-> Hno]|(r & s' & l & Hex & -> & Ho)].
  { rewrite created_id_fail by done. by rewrite app_nil_r. }
  unfold created_id, receipt; cbn [receipt_tx receipt_result]. rewrite Ho.
  exec_inv Hex; cbn [tx_call].
  - apply createProposal_Ok_inv in Hf as (-> & _ & _ & _ & ->). cbn.
    split; [lia|].
    rewrite (seqZ_app 1 (proposalCounter s) 1) by lia.
    change (seqZ (1 + proposalCounter s) 1) with [1 + proposalCounter s].
    do 2 f_equal. lia.
  - apply vote_Ok_inv in Hf as (_ & _ & _ & _ & _ & _ & ->).
    by rewrite app_nil_r.
  - apply updateProposalStatus_Ok_inv in Hf as (_ & _ & _ & _ & _ & ->).
    by rewrite app_nil_r.
  - apply forceCloseProposal_Ok_inv in Hf as (_ & _ & _ & _ & ->).
    by rewrite app_nil_r.
  - apply setFundingGoal_Ok_inv in Hf as (_ & _ & _ & _ & ->).
    by rewrite app_nil_r.
  - apply donateToProposal_Ok_inv in Hf as (_ & _ & _ & _ & _ & _ & _ & ->).
    by rewrite app_nil_r.
  - apply withdrawFunds_Ok_inv in Hf as (_ & _ & _ & _ & _ & ->).
    rewrite app_nil_r. by destruct (bool_decide _).
  - apply receive_Ok_inv in Hf as (_ & ->). by rewrite app_nil_r.
Qed.

Lemma seqZ_increasing m n : StronglySorted Z.lt (seqZ m n).
Proof.
  remember (Z.to_nat n) as k eqn:Hk. revert m n Hk.
  induction k as [|k IH]; intros m n Hk.
  - rewrite seqZ_nil by lia. constructor.
  - rewrite seqZ_cons by lia. constructor; [apply IH; lia|].
    apply Forall_seqZ. lia.
Qed.

(** C7. The ids returned by the successful [createProposal] calls of a run
    that starts at deployment are 1, 2, 3, ... in this order: strictly
    increasing, none used twice; and [getTotalProposals] returns their
    number. *)
Theorem created_ids_count_from_one this_ deployer txs :
  let s := run (constructor this_ deployer) txs in
  let ids := created_ids (history (constructor this_ deployer) txs) in
  ids = seqZ 1 (Z.of_nat (length ids)) /\
  StronglySorted Z.lt ids /\
  NoDup ids /\
  view getTotalProposals s = Ok (Z.of_nat (length ids)).
Proof.
  cbn zeta.
  destruct (created_ids_counter this_ deployer txs) as [Hc ->].
  rewrite length_seqZ, Z2Nat.id by done.
  repeat split; [apply seqZ_increasing | apply NoDup_seqZ].
Qed.

(** ** Votes and tallies *)

Lemma vote_cast_fail j s t :
  (forall x, outcome t s <> Ok x) -> vote_cast j (receipt s t) = None.
Proof.
  intros H. unfold vote_cast, receipt; cbn.
  destruct (tx_call t); try done.
  destruct (outcome t s) eqn:Ho; try done.
  by destruct (H _ eq_refl).
Qed.

Lemma vote_cast_Ok j s t r l :
  outcome t s = Ok (r, l) ->
  vote_cast j (receipt s t) =
  match tx_call t with
  | Vote p _ voter => if bool_decide (p = j) then Some voter else None
  | _ => None
  end.
Proof.
  intros Ho. unfold vote_cast, receipt; cbn. rewrite Ho.
  by destruct (tx_call t).
Qed.

Ltac split_tally v :=
  split; [intros v|split; [|split]]; autorewrite with state.

Lemma tally_invariant_step s h t j :
  registry_invariant s ->
  tally_invariant s h j ->
  tally_invariant (step s t) (h ++ [receipt s t]) j.
Proof.
  intros [Hc Hreg] (Hv & Hnd & Hnone & Hsum).
  unfold tally_invariant, voters in *. rewrite omap_snoc.
  destruct (step_cases s t) as [[-> Hno]|(r & s' & l & Hex & -> & Ho)].
  { rewrite vote_cast_fail by done. by rewrite app_nil_r. }
  rewrite (vote_cast_Ok _ _ _ _ _ Ho).
  exec_inv Hex; cbn [tx_call].
  - apply createProposal_Ok_inv in Hf as (-> & _ & _ & _ & ->).
    rewrite app_nil_r, proposal_at_set_proposal.
    destruct (decide _) as [<-|]; [|by split_tally v].
    assert (omap (vote_cast (proposalCounter s + 1)) h = []) as Hfresh.
    { apply Hnone.
      destruct (decide (id (proposal_at s (proposalCounter s + 1)) = 0))
        as [|Hex]; [done|]. apply Hreg in Hex. lia. }
    rewrite Hfresh in *. split_tally v; cbn; done.
  - apply vote_Ok_inv in Hf as (Hid & _ & Hfresh & _ & _ & _ & ->).
    case_bool_decide as Hp.
    + subst j. rewrite proposal_at_set_proposal_eq. split_tally v.
      * rewrite hasVoted_at_set_hasVoted.
        autorewrite with state. rewrite elem_of_app, list_elem_of_singleton.
        destruct (decide _) as [Heq|Hne].
        { inversion Heq; subst. split; auto. }
        rewrite Hv. split; [auto|]. intros [?| ->]; [done|]. by destruct Hne.
      * apply NoDup_app. repeat split; [done| |apply NoDup_singleton].
        intros x Hx ->%list_elem_of_singleton.
        apply Hv in Hx. congruence.
      * destruct voteValue; cbn; done.
      * rewrite length_app; cbn. destruct voteValue; cbn; lia.
    + rewrite app_nil_r, proposal_at_set_proposal_ne by done.
      split_tally v; try done.
      rewrite hasVoted_at_set_hasVoted. autorewrite with state.
      destruct (decide _) as [Heq|]; [inversion Heq; congruence|apply Hv].
  - apply updateProposalStatus_Ok_inv in Hf as (_ & _ & _ & _ & _ & ->).
    rewrite app_nil_r, proposal_at_set_proposal.
    destruct (decide _) as [<-|]; split_tally v; try done;
      destruct (_ && _); cbn; done.
  - apply forceCloseProposal_Ok_inv in Hf as (_ & _ & _ & _ & ->).
    rewrite app_nil_r, proposal_at_set_proposal.
    destruct (decide _) as [<-|]; split_tally v; try done;
      destruct (_ && _); cbn; done.
  - apply setFundingGoal_Ok_inv in Hf as (_ & _ & _ & _ & ->).
    rewrite app_nil_r, proposal_at_set_proposal.
    destruct (decide _) as [<-|]; split_tally v; cbn; done.
  - apply donateToProposal_Ok_inv in Hf as (_ & _ & _ & _ & _ & _ & _ & ->).
    rewrite app_nil_r, proposal_at_set_proposal.
    destruct (decide _) as [<-|]; split_tally v; cbn; done.
  - apply withdrawFunds_Ok_inv in Hf as (_ & _ & _ & _ & _ & ->).
    rewrite app_nil_r. destruct (bool_decide _); split_tally v;
      try rewrite proposal_at_set_proposal;
      try destruct (decide _) as [<-|]; cbn; done.
  - apply receive_Ok_inv in Hf as (_ & ->).
    rewrite app_nil_r. by split_tally v.
Qed.

Lemma tally_invariant_run this_ deployer txs j :
  tally_invariant (run (constructor this_ deployer) txs)
    (history (constructor this_ deployer) txs) j.
Proof.
  induction txs as [|t txs IH] using rev_ind.
  - repeat split; cbn; try done; try apply NoDup_nil_2.
    intros Hx. by apply elem_of_nil in Hx.
  - rewrite run_snoc, history_snoc. apply tally_invariant_step; [|done].
    apply registry_invariant_reachable, reachable_run.
Qed.

(** A proposal that exists and is no longer [Active] keeps its status and its
    tallies through any transaction, and no vote on it goes through. *)
Lemma closed_proposal_step s t j :
  registry_invariant s ->
  id (proposal_at s j) <> 0 ->
  status (proposal_at s j) <> Active ->
  id (proposal_at (step s t) j) <> 0 /\
  status (proposal_at (step s t) j) = status (proposal_at s j) /\
  yesVotes (proposal_at (step s t) j) = yesVotes (proposal_at s j) /\
  noVotes (proposal_at (step s t) j) = noVotes (proposal_at s j) /\
  vote_cast j (receipt s t) = None.
Proof.
  intros [Hc Hreg] Hid Hst.
  destruct (step_cases s t) as [[-> Hno]|(r & s' & l & Hex & -> & Ho)].
  { by rewrite vote_cast_fail. }
  rewrite (vote_cast_Ok _ _ _ _ _ Ho).
  exec_inv Hex; cbn [tx_call].
  - apply createProposal_Ok_inv in Hf as (-> & _ & _ & _ & ->).
    rewrite proposal_at_set_proposal_ne; [by autorewrite with state|].
    apply Hreg in Hid. lia.
  - apply vote_Ok_inv in Hf as (_ & Hact & _ & _ & _ & _ & ->).
    case_bool_decide as Hp; [congruence|].
    rewrite proposal_at_set_proposal_ne by done. by autorewrite with state.
  - apply updateProposalStatus_Ok_inv in Hf as (_ & _ & Hact & _ & _ & ->).
    rewrite proposal_at_set_proposal_ne; [done|congruence].
  - apply forceCloseProposal_Ok_inv in Hf as (_ & _ & Hact & _ & ->).
    rewrite proposal_at_set_proposal_ne; [done|congruence].
  - apply setFundingGoal_Ok_inv in Hf as (_ & _ & _ & _ & ->).
    rewrite proposal_at_set_proposal.
    destruct (decide _) as [<-|]; cbn; done.
  - apply donateToProposal_Ok_inv in Hf as (_ & _ & _ & _ & _ & _ & _ & ->).
    rewrite proposal_at_set_proposal. autorewrite with state.
    destruct (decide _) as [<-|]; cbn; done.
  - apply withdrawFunds_Ok_inv in Hf as (_ & _ & _ & _ & _ & ->).
    destruct (bool_decide _); autorewrite with state;
      rewrite proposal_at_set_proposal;
      destruct (decide _) as [<-|]; cbn; done.
  - apply receive_Ok_inv in Hf as (_ & ->). by autorewrite with state.
Qed.

Lemma closed_proposal_run s txs j :
  registry_invariant s ->
  id (proposal_at s j) <> 0 ->
  status (proposal_at s j) <> Active ->
  status (proposal_at (run s txs) j) = status (proposal_at s j) /\
  yesVotes (proposal_at (run s txs) j) = yesVotes (proposal_at s j) /\
  noVotes (proposal_at (run s txs) j) = noVotes (proposal_at s j) /\
  voters j (history s txs) = [].
Proof.
  revert s. induction txs as [|t txs IH]; intros s Hreg Hid Hst; [done|].
  destruct (closed_proposal_step s t j Hreg Hid Hst)
    as (Hid' & Hst' & Hy & Hn & Hv).
  cbn [run fold_left history]. unfold voters. cbn [omap list_omap].
  rewrite Hv.
  destruct (IH (step s t)) as (IH1 & IH2 & IH3 & IH4);
    [by apply registry_invariant_step|done|congruence|].
  fold (run (step s t) txs). rewrite IH1, IH2, IH3.
  repeat split; done.
Qed.

(** C6. At any point of a run that starts at deployment, the two tallies of
    an existing proposal add up to the number of distinct voters whose [vote]
    on it went through; and once the proposal is no longer [Active], no vote
    on it goes through and its tallies stay as they are, whatever follows. *)
Theorem tallies_count_distinct_voters this_ deployer txs proposalId :
  let s := run (constructor this_ deployer) txs in
  let h := history (constructor this_ deployer) txs in
  id (proposal_at s proposalId) <> 0 ->
  NoDup (voters proposalId h) /\
  yesVotes (proposal_at s proposalId) + noVotes (proposal_at s proposalId)
    = Z.of_nat (size (list_to_set (voters proposalId h) : gset Z)) /\
  (status (proposal_at s proposalId) <> Active ->
   forall txs',
     voters proposalId (history s txs') = [] /\
     yesVotes (proposal_at (run s txs') proposalId)
       = yesVotes (proposal_at s proposalId) /\
     noVotes (proposal_at (run s txs') proposalId)
       = noVotes (proposal_at s proposalId) /\
     status (proposal_at (run s txs') proposalId)
       = status (proposal_at s proposalId)).
Proof.
  cbn zeta. intros Hid.
  destruct (tally_invariant_run this_ deployer txs proposalId)
    as (_ & Hnd & _ & Hsum).
  repeat split; [done|by rewrite size_list_to_set|..];
    edestruct closed_proposal_run as (H1 & H2 & H3 & H4); try eassumption;
    try done; apply registry_invariant_reachable, reachable_run.
Qed.

(** ** Donations and withdrawals *)

Lemma donation_made_fail j s t :
  (forall x, outcome t s <> Ok x) -> donation_made j (receipt s t) = None.
Proof.
  intros H. unfold donation_made, receipt; cbn.
  destruct (tx_call t); try done.
  destruct (outcome t s) eqn:Ho; try done.
  by destruct (H _ eq_refl).
Qed.

Lemma donation_made_Ok j s t r l :
  outcome t s = Ok (r, l) ->
  donation_made j (receipt s t) =
  match tx_call t with
  | DonateToProposal v p =>
      if bool_decide (p = j) then
        Some {| donor := msg_sender (tx_env t); amount := v;
                timestamp := block_timestamp (tx_env t) |}
      else None
  | _ => None
  end.
Proof.
  intros Ho. unfold donation_made, receipt; cbn. rewrite Ho.
  by destruct (tx_call t).
Qed.

Lemma withdrawal_fail j s t :
  (forall x, outcome t s <> Ok x) -> withdrawal j (receipt s t) = None.
Proof.
  intros H. unfold withdrawal, receipt; cbn.
  destruct (tx_call t); try done.
  destruct (outcome t s) as [[? ?]| |] eqn:Ho; try done.
  by destruct (H _ eq_refl).
Qed.

Lemma withdrawal_Ok j s t r l :
  outcome t s = Ok (r, l) ->
  withdrawal j (receipt s t) =
  match tx_call t with
  | WithdrawFunds p _ =>
      if bool_decide (p = j) then Some (transferred l) else None
  | _ => None
  end.
Proof.
  intros Ho. unfold withdrawal, receipt; cbn. rewrite Ho.
  by destruct (tx_call t).
Qed.

Lemma sum_amounts_snoc l d : sum_amounts (l ++ [d]) = sum_amounts l + amount d.
Proof.
  unfold sum_amounts. induction l as [|x l IH]; cbn; [lia|]. rewrite IH. lia.
Qed.

Lemma sum_list_snoc l x : sum_list (l ++ [x]) = sum_list l + x.
Proof.
  unfold sum_list. induction l as [|y l IH]; cbn; [lia|]. rewrite IH. lia.
Qed.

Lemma donated_by_snoc u l d :
  donated_by u (l ++ [d]) =
  donated_by u l ++ (if decide (donor d = u) then [d] else []).
Proof.
  unfold donated_by. rewrite filter_app. f_equal.
Qed.

Ltac split_donation u :=
  split; [|split; [intros u|split; [|split]]]; autorewrite with state.

Lemma donation_invariant_step s h t j :
  registry_invariant s ->
  donation_invariant s h j ->
  donation_invariant (step s t) (h ++ [receipt s t]) j.
Proof.
  intros [Hc Hreg] (Hl & Hu & Hsum & Hpos & Hnone).
  unfold donation_invariant, donations_made, withdrawals in *.
  rewrite !omap_snoc.
  destruct (step_cases s t) as [[-> Hno]|(r & s' & l & Hex & -> & Ho)].
  { rewrite donation_made_fail, withdrawal_fail by done.
    by rewrite !app_nil_r. }
  rewrite (donation_made_Ok _ _ _ _ _ Ho), (withdrawal_Ok _ _ _ _ _ Ho).
  exec_inv Hex; cbn [tx_call tx_env].
  - apply createProposal_Ok_inv in Hf as (-> & _ & _ & _ & ->).
    rewrite !app_nil_r, proposal_at_set_proposal.
    destruct (decide _) as [<-|]; [|by split_donation u].
    destruct Hnone as [Hd Hw].
    { destruct (decide (id (proposal_at s (proposalCounter s + 1)) = 0))
        as [|Hex]; [done|]. apply Hreg in Hex. lia. }
    rewrite Hd, Hw in *. split_donation u; cbn; done.
  - apply vote_Ok_inv in Hf as (_ & _ & _ & _ & _ & _ & ->).
    rewrite !app_nil_r, proposal_at_set_proposal.
    destruct (decide _) as [<-|]; split_donation u; try done;
      destruct voteValue; cbn; done.
  - apply updateProposalStatus_Ok_inv in Hf as (_ & _ & _ & _ & _ & ->).
    rewrite !app_nil_r, proposal_at_set_proposal.
    destruct (decide _) as [<-|]; split_donation u; try done;
      destruct (_ && _); cbn; done.
  - apply forceCloseProposal_Ok_inv in Hf as (_ & _ & _ & _ & ->).
    rewrite !app_nil_r, proposal_at_set_proposal.
    destruct (decide _) as [<-|]; split_donation u; try done;
      destruct (_ && _); cbn; done.
  - apply setFundingGoal_Ok_inv in Hf as (_ & _ & _ & _ & ->).
    rewrite !app_nil_r, proposal_at_set_proposal.
    destruct (decide _) as [<-|]; split_donation u; cbn; done.
  - apply donateToProposal_Ok_inv in Hf
      as (Hid & _ & _ & Hv & _ & _ & _ & ->).
    case_bool_decide as Hp.
    + subst j. rewrite app_nil_r, proposal_at_set_proposal_eq.
      split_donation u.
      * rewrite proposalDonations_at_set. rewrite decide_True by done.
        by rewrite Hl.
      * rewrite userDonationTotal_at_set. autorewrite with state.
        rewrite donated_by_snoc, !Hu. cbn [donor].
        destruct (decide (_ = _)) as [Heq|Hne].
        { inversion Heq; subst. rewrite decide_True by done.
          by rewrite sum_amounts_snoc. }
        rewrite decide_False; [by rewrite app_nil_r|]. congruence.
      * cbn. rewrite sum_amounts_snoc. cbn. lia.
      * apply Forall_app. split; [done|]. by apply Forall_singleton.
      * done.
    + rewrite !app_nil_r, proposal_at_set_proposal_ne by done.
      split_donation u; try done.
      * rewrite proposalDonations_at_set. by rewrite decide_False.
      * rewrite userDonationTotal_at_set. autorewrite with state.
        rewrite decide_False; [done|]. congruence.
  - apply withdrawFunds_Ok_inv in Hf as (_ & Hid & _ & _ & -> & ->).
    cbn [transferred foldr].
    destruct (decide (proposalId = j)) as [<-|Hp];
      [rewrite (bool_decide_true (proposalId = proposalId)) by done
      |rewrite (bool_decide_false (proposalId = j)) by done].
    + rewrite app_nil_r.
      destruct (bool_decide _); split_donation u;
        rewrite ?proposal_at_set_proposal_eq; try done;
        cbn; rewrite sum_list_snoc; lia.
    + rewrite !app_nil_r.
      destruct (bool_decide _); split_donation u;
        rewrite ?proposal_at_set_proposal_ne by done; done.
  - apply receive_Ok_inv in Hf as (_ & ->).
    rewrite !app_nil_r. by split_donation u.
Qed.

Lemma donation_invariant_run this_ deployer txs j :
  donation_invariant (run (constructor this_ deployer) txs)
    (history (constructor this_ deployer) txs) j.
Proof.
  induction txs as [|t txs IH] using rev_ind.
  - repeat split; cbn; try done.
  - rewrite run_snoc, history_snoc. apply donation_invariant_step; [|done].
    apply registry_invariant_reachable, reachable_run.
Qed.

Lemma donateToProposal_disabled e v pid s :
  fundingEnabled (proposal_at s pid) = false ->
  succeeds (donateToProposal e v pid) s = false.
Proof.
  intros Hoff. unfold succeeds.
  destruct (donateToProposal e v pid s) as [[[[] s'] l]| |] eqn:Hd; try done.
  apply donateToProposal_Ok_inv in Hd as (_ & _ & Hon & _). congruence.
Qed.

Lemma step_not_succeeds s t : succeeds (exec t) s = false -> step s t = s.
Proof.
  unfold succeeds, step, commit. by destruct (exec t s) as [[[? ?] ?]| |].
Qed.

Lemma exec_succeeds_bind {A} (m : M A) (g : A -> Returned) s :
  succeeds (x ← m; mret (g x)) s = succeeds m s.
Proof.
  unfold succeeds. sol_unfold. by destruct (m s) as [[[? ?] ?]| |].
Qed.

(** C8. [donateToProposal] does not go through while funding is disabled, and
    then changes nothing. At any point of a run that starts at deployment the
    donation list of a proposal holds, in order, exactly the donations that
    went through, all of a positive amount; the running total of each donor
    is the sum of that donor's amounts; and [totalFundsRaised] is the sum of
    all these amounts less what was withdrawn, so the plain sum as long as
    nothing was withdrawn. Each donation that goes through appends its record
    and adds its amount to both totals. *)
Theorem donations_accounting :
  (forall e v proposalId s,
     fundingEnabled (proposal_at s proposalId) = false ->
     succeeds (donateToProposal e v proposalId) s = false /\
     step s {| tx_env := e; tx_call := DonateToProposal v proposalId |} = s) /\
  (forall this_ deployer txs proposalId,
     let s := run (constructor this_ deployer) txs in
     let h := history (constructor this_ deployer) txs in
     let ds := donations_made proposalId h in
     Forall (fun d => 0 < amount d) ds /\
     proposalDonations_at s proposalId = ds /\
     (forall u, userDonationTotal_at s proposalId u
                = sum_amounts (donated_by u ds)) /\
     totalFundsRaised (proposal_at s proposalId)
       = sum_amounts ds - sum_list (withdrawals proposalId h) /\
     (withdrawals proposalId h = [] ->
      totalFundsRaised (proposal_at s proposalId) = sum_amounts ds)) /\
  (forall e v proposalId s s' l,
     donateToProposal e v proposalId s = Ok (tt, s', l) ->
     fundingEnabled (proposal_at s proposalId) = true /\
     0 < v /\
     proposalDonations_at s' proposalId
       = proposalDonations_at s proposalId ++
         [{| donor := msg_sender e; amount := v;
             timestamp := block_timestamp e |}] /\
     userDonationTotal_at s' proposalId (msg_sender e)
       = userDonationTotal_at s proposalId (msg_sender e) + v /\
     totalFundsRaised (proposal_at s' proposalId)
       = totalFundsRaised (proposal_at s proposalId) + v).
Proof.
  split; [|split].
  - intros e v j s Hoff.
    pose proof (donateToProposal_disabled e v j s Hoff) as Hf.
    split; [done|]. apply step_not_succeeds.
    unfold exec; cbn [tx_call tx_env]. by rewrite exec_succeeds_bind.
  - intros this_ deployer txs j. cbn zeta.
    destruct (donation_invariant_run this_ deployer txs j)
      as (Hl & Hu & Hsum & Hpos & _).
    repeat split; try done. intros Hw. rewrite Hsum, Hw. cbn. lia.
  - intros e v j s s' l Hd.
    apply donateToProposal_Ok_inv in Hd as (_ & _ & Hon & Hv & _ & _ & _ & ->).
    repeat split; try done.
    + autorewrite with state. rewrite proposalDonations_at_set.
      by rewrite decide_True.
    + autorewrite with state. rewrite userDonationTotal_at_set.
      by rewrite decide_True.
    + by rewrite proposal_at_set_proposal_eq.
Qed.

(** ** Single calls *)

(** Closes a goal whose context holds the failure of a guard that the other
    hypotheses establish. *)
Ltac guard_contra :=
  exfalso;
  repeat match goal with
         | H : bool_decide _ = false |- _ => apply bool_decide_eq_false in H
         | H : bool_decide _ = true |- _ => apply bool_decide_eq_true in H
         | H : negb _ = false |- _ => apply negb_false_iff in H
         | H : negb _ = true |- _ => apply negb_true_iff in H
         | H : (_ =? _) = true |- _ => apply Z.eqb_eq in H
         | H : (_ =? _) = false |- _ => apply Z.eqb_neq in H
         | H : (_ <? _) = false |- _ => apply Z.ltb_ge in H
         | H : (_ <? _) = true |- _ => apply Z.ltb_lt in H
         | H : (_ <=? _) = false |- _ => apply Z.leb_gt in H
         | H : (_ <=? _) = true |- _ => apply Z.leb_le in H
         end;
  first [congruence | lia].

Lemma with_status_same p : with_status (status p) p = p.
Proof. by destruct p. Qed.

Lemma set_proposal_same s j :
  id (proposal_at s j) <> 0 -> set_proposal j (proposal_at s j) s = s.
Proof.
  intros Hid.
  assert (proposals s !! j = Some (proposal_at s j)) as Hl.
  { unfold proposal_at in *. destruct (proposals s !! j); [done|].
    by destruct Hid. }
  unfold set_proposal. rewrite insert_id by done. by destruct s.
Qed.

Lemma updateProposalStatus_eval e pid s :
  msg_sender e = owner s ->
  id (proposal_at s pid) <> 0 ->
  status (proposal_at s pid) = Active ->
  endDate (proposal_at s pid) < block_timestamp e ->
  let p := proposal_at s pid in
  let newStatus := if yesVotes p >? noVotes p then Accepted else Declined in
  updateProposalStatus e pid s =
    Ok (tt,
        set_proposal pid
          (with_status newStatus
             (if (yesVotes p >? noVotes p) && (fundingGoal p >? 0)
              then with_fundingEnabled true p else p)) s,
        [Emit (ProposalStatusUpdated pid newStatus)]).
Proof.
  intros Ho Hid Hst Hd. cbn zeta.
  destruct (updateProposalStatus e pid s) as [[[[] s'] l]|r|c] eqn:H.
  - by apply updateProposalStatus_Ok_inv in H as (_ & _ & _ & _ & -> & ->).
  - unfold updateProposalStatus, onlyOwner, proposalExists, proposalActive in H.
    sol_inv H; guard_contra.
  - unfold updateProposalStatus, onlyOwner, proposalExists, proposalActive in H.
    sol_inv H; guard_contra.
Qed.

Lemma forceCloseProposal_eval e pid newStatus s :
  msg_sender e = owner s ->
  id (proposal_at s pid) <> 0 ->
  status (proposal_at s pid) = Active ->
  let p := proposal_at s pid in
  forceCloseProposal e pid newStatus s =
    Ok (tt,
        set_proposal pid
          (if bool_decide (newStatus = Accepted) && (fundingGoal p >? 0)
           then with_fundingEnabled true (with_status newStatus p)
           else with_status newStatus p) s,
        [Emit (ProposalStatusUpdated pid newStatus)]).
Proof.
  intros Ho Hid Hst. cbn zeta.
  destruct (forceCloseProposal e pid newStatus s) as [[[[] s'] l]|r|c] eqn:H.
  - by apply forceCloseProposal_Ok_inv in H as (_ & _ & _ & -> & ->).
  - unfold forceCloseProposal, onlyOwner, proposalExists, proposalActive in H.
    sol_inv H; guard_contra.
  - unfold forceCloseProposal, onlyOwner, proposalExists, proposalActive in H.
    sol_inv H; guard_contra.
Qed.

Lemma vote_eval e pid (v : bool) voter s :
  id (proposal_at s pid) <> 0 ->
  status (proposal_at s pid) = Active ->
  hasVoted_at s pid voter = false ->
  block_timestamp e <= endDate (proposal_at s pid) ->
  (if v then yesVotes (proposal_at s pid) else noVotes (proposal_at s pid)) + 1
    <= uint64_max ->
  exists s', vote e pid v voter s = Ok (tt, s', [Emit (VoteCast pid voter v)]).
Proof.
  intros Hid Hst Hnv Hd Hmax.
  destruct (vote e pid v voter s) as [[[[] s'] l]|r|c] eqn:H.
  - apply vote_Ok_inv in H as (_ & _ & _ & _ & _ & -> & _). by exists s'.
  - unfold vote, proposalExists, proposalActive, hasNotVoted,
      votingPeriodActive in H.
    sol_inv H; guard_contra.
  - unfold vote, proposalExists, proposalActive, hasNotVoted,
      votingPeriodActive in H.
    sol_inv H; autorewrite with state in *; guard_contra.
Qed.

Lemma setFundingGoal_eval e pid goal s :
  msg_sender e = owner s ->
  id (proposal_at s pid) <> 0 ->
  status (proposal_at s pid) = Accepted ->
  setFundingGoal e pid goal s =
    Ok (tt, set_proposal pid (with_fundingGoal goal (proposal_at s pid)) s,
        [Emit (FundingGoalSet pid goal)]).
Proof.
  intros Ho Hid Hst.
  destruct (setFundingGoal e pid goal s) as [[[[] s'] l]|r|c] eqn:H.
  - by apply setFundingGoal_Ok_inv in H as (_ & _ & _ & -> & ->).
  - unfold setFundingGoal, onlyOwner, proposalExists in H.
    sol_inv H; guard_contra.
  - unfold setFundingGoal, onlyOwner, proposalExists in H.
    sol_inv H; guard_contra.
Qed.

Lemma withdrawFunds_eval e pid recipient s :
  msg_sender e = owner s ->
  id (proposal_at s pid) <> 0 ->
  0 < totalFundsRaised (proposal_at s pid) ->
  let p := proposal_at s pid in
  withdrawFunds e pid recipient s =
    if transfer_accepted e s recipient (totalFundsRaised p) then
      Ok (tt,
          (if bool_decide (recipient = this s)
           then (fun x => x)
           else set_balance (balance s - totalFundsRaised p))
            (set_proposal pid (with_totalFundsRaised 0 p) s),
          [Transfer recipient (totalFundsRaised p);
           Emit (FundsWithdrawn pid recipient (totalFundsRaised p)
                   (block_timestamp e))])
    else Revert "Transfer failed".
Proof.
  intros Ho Hid Hpos. cbn zeta.
  destruct (withdrawFunds e pid recipient s) as [[[[] s'] l]|r|c] eqn:H.
  - apply withdrawFunds_Ok_inv in H as (_ & _ & _ & -> & -> & ->). done.
  - unfold withdrawFunds, withdrawFunds_during, onlyOwner, proposalExists,
      call_value, transfer_accepted in *.
    sol_inv H; cbn in *; try guard_contra;
      inversion H; subst; rewrite ?Heqb2, ?Heqb3, ?Heqb4; cbn; done.
  - unfold withdrawFunds, withdrawFunds_during, onlyOwner, proposalExists,
      call_value in H.
    sol_inv H; guard_contra.
Qed.

Lemma exec_bind_Ok {A} (m : M A) (g : A -> Returned) s a s' l :
  m s = Ok (a, s', l) -> (x ← m; mret (g x)) s = Ok (g a, s', l).
Proof. intros H. sol_unfold. rewrite H. by rewrite app_nil_r. Qed.

Lemma exec_bind_Revert {A} (m : M A) (g : A -> Returned) s r :
  m s = Revert r -> (x ← m; mret (g x)) s = Revert r.
Proof. intros H. sol_unfold. by rewrite H. Qed.

Lemma exec_bind_Panic {A} (m : M A) (g : A -> Returned) s c :
  m s = Panic c -> (x ← m; mret (g x)) s = Panic c.
Proof. intros H. sol_unfold. by rewrite H. Qed.

Lemma donateToProposal_disabled_reason e v pid s :
  id (proposal_at s pid) <> 0 ->
  status (proposal_at s pid) = Accepted ->
  fundingEnabled (proposal_at s pid) = false ->
  donateToProposal e v pid s = Revert "Funding not enabled".
Proof.
  intros Hid Hst Hoff.
  destruct (donateToProposal e v pid s) as [[[[] s'] l]|r|c] eqn:H.
  - apply donateToProposal_Ok_inv in H as (_ & _ & Hon & _). congruence.
  - unfold donateToProposal, receive_value, proposalExists in H.
    sol_inv H; autorewrite with state in *;
      first [by inversion H | guard_contra].
  - unfold donateToProposal, receive_value, proposalExists in H.
    sol_inv H; autorewrite with state in *; guard_contra.
Qed.

(** C2, as the contract has it. On an existing [Accepted] proposal
    [setFundingGoal], called by the owner, overwrites [fundingGoal] and
    leaves [fundingEnabled] as it was: when funding was disabled it stays
    disabled and a donation is still refused for that reason; when it was
    enabled no donation is refused for that reason. *)
Theorem setFundingGoal_keeps_fundingEnabled e s proposalId goal :
  msg_sender e = owner s ->
  id (proposal_at s proposalId) <> 0 ->
  status (proposal_at s proposalId) = Accepted ->
  let t := {| tx_env := e; tx_call := SetFundingGoal proposalId goal |} in
  let s' := step s t in
  outcome t s = Ok (RetNone, [Emit (FundingGoalSet proposalId goal)]) /\
  fundingGoal (proposal_at s' proposalId) = goal /\
  status (proposal_at s' proposalId) = Accepted /\
  fundingEnabled (proposal_at s' proposalId)
    = fundingEnabled (proposal_at s proposalId) /\
  (fundingEnabled (proposal_at s proposalId) = false ->
   forall e2 v,
     donateToProposal e2 v proposalId s' = Revert "Funding not enabled") /\
  (fundingEnabled (proposal_at s proposalId) = true ->
   forall e2 v,
     donateToProposal e2 v proposalId s' <> Revert "Funding not enabled").
Proof.
  intros Ho Hid Hst. cbn zeta.
  pose proof (setFundingGoal_eval e proposalId goal s Ho Hid Hst) as Hg.
  unfold outcome, step, commit, exec; cbn [tx_env tx_call].
  rewrite (exec_bind_Ok _ _ _ _ _ _ Hg).
  rewrite proposal_at_set_proposal_eq. cbn.
  repeat split; try done.
  - intros Hoff e2 v. apply donateToProposal_disabled_reason;
      rewrite proposal_at_set_proposal_eq; done.
  - intros Hon e2 v H.
    unfold donateToProposal, receive_value, proposalExists in H.
    sol_inv H. autorewrite with state in *.
    rewrite proposal_at_set_proposal_eq in *. cbn in *. congruence.
Qed.

(** C3. Only the owner can call [updateProposalStatus]. Called by the owner
    on an existing [Active] proposal whose deadline is strictly in the past,
    it goes through and sets the status to [Accepted] when there are more yes
    than no votes and to [Declined] otherwise, a tie included; when the
    result is [Accepted] and the funding goal is positive it also sets
    [fundingEnabled], and otherwise leaves that flag alone. *)
Theorem updateProposalStatus_decides e s proposalId :
  (msg_sender e <> owner s ->
   updateProposalStatus e proposalId s
     = Revert "Only owner can call this function") /\
  (msg_sender e = owner s ->
   id (proposal_at s proposalId) <> 0 ->
   status (proposal_at s proposalId) = Active ->
   endDate (proposal_at s proposalId) < block_timestamp e ->
   let p := proposal_at s proposalId in
   let t := {| tx_env := e; tx_call := UpdateProposalStatus proposalId |} in
   let p' := proposal_at (step s t) proposalId in
   let newStatus :=
     if bool_decide (yesVotes p > noVotes p) then Accepted else Declined in
   outcome t s
     = Ok (RetNone, [Emit (ProposalStatusUpdated proposalId newStatus)]) /\
   status p' = newStatus /\
   (yesVotes p = noVotes p -> status p' = Declined) /\
   fundingEnabled p'
     = (if bool_decide (newStatus = Accepted /\ fundingGoal p > 0)
        then true else fundingEnabled p) /\
   yesVotes p' = yesVotes p /\ noVotes p' = noVotes p /\
   fundingGoal p' = fundingGoal p).
Proof.
  split.
  - intros Hno. unfold updateProposalStatus, onlyOwner. sol_unfold; cbn.
    by rewrite bool_decide_false.
  - intros Ho Hid Hst Hd. cbn zeta.
    pose proof (updateProposalStatus_eval e proposalId s Ho Hid Hst Hd) as Hu.
    cbn zeta in Hu. unfold outcome, step, commit, exec; cbn [tx_env tx_call].
    rewrite (exec_bind_Ok _ _ _ _ _ _ Hu).
    rewrite proposal_at_set_proposal_eq, !Z.gtb_ltb.
    destruct (Z.ltb_spec (noVotes (proposal_at s proposalId))
                (yesVotes (proposal_at s proposalId))) as [Hlt|Hge].
    + rewrite (bool_decide_true (_ > _)) by lia. cbn.
      destruct (Z.ltb_spec 0 (fundingGoal (proposal_at s proposalId)));
        [rewrite bool_decide_true by (split; [done|lia])
        |rewrite bool_decide_false by lia]; cbn; repeat split; try done; lia.
    + rewrite (bool_decide_false (_ > _)) by lia. cbn.
      rewrite bool_decide_false by (by intros [? _]).
      by repeat split.
Qed.

(** C4. [vote] checks, in this order, that the proposal exists, that it is
    [Active], that the voter has not voted on it yet and that the deadline
    has not passed, and is aborted with the reason of the first check that
    fails; when none fails it is aborted for none of these reasons. So a vote
    on an [Active] proposal after its deadline by someone who has voted
    already is refused as a second vote, not as a late one. *)
Theorem vote_checks_in_order e s proposalId voteValue voter :
  match first_failed_precondition e s proposalId voter with
  | Some reason => vote e proposalId voteValue voter s = Revert reason
  | None => forall reason, vote e proposalId voteValue voter s <> Revert reason
  end /\
  (id (proposal_at s proposalId) <> 0 ->
   status (proposal_at s proposalId) = Active ->
   hasVoted_at s proposalId voter = true ->
   endDate (proposal_at s proposalId) < block_timestamp e ->
   vote e proposalId voteValue voter s = Revert "User has already voted").
Proof.
  split.
  - unfold first_failed_precondition, vote, proposalExists, proposalActive,
      hasNotVoted, votingPeriodActive.
    sol_unfold; cbn.
    case_bool_decide as Hid.
    { rewrite Hid. done. }
    apply Z.eqb_neq in Hid. rewrite Hid; cbn.
    destruct (bool_decide (status _ = Active)); cbn; [|done].
    destruct (hasVoted_at s proposalId voter); cbn; [done|].
    case_bool_decide as Hd; cbn.
    + apply Z.leb_le in Hd. rewrite Hd; cbn.
      intros reason. destruct voteValue; cbn;
        match goal with |- context [if ?c then _ else _] => destruct c end;
        cbn; done.
    + apply Z.leb_nle in Hd. rewrite Hd; cbn. done.
  - intros Hid Hst Hv Hd.
    unfold vote, proposalExists, proposalActive, hasNotVoted.
    sol_unfold; cbn.
    apply Z.eqb_neq in Hid. rewrite Hid; cbn.
    rewrite bool_decide_true by done; cbn. by rewrite Hv.
Qed.

(** C9, as the contract has it. For an existing proposal,
    [getDonationProgress] changes nothing and returns the amount raised, the
    goal and a percentage: 0 when the goal is 0, whatever was raised; the
    integer quotient of [raised * 100] by the goal when the goal is positive
    and [raised * 100] fits in 256 bits. When the goal is positive and
    [raised * 100] does not fit, the call is aborted by the overflow check. *)
Theorem getDonationProgress_percentage s proposalId :
  id (proposal_at s proposalId) <> 0 ->
  let raised := totalFundsRaised (proposal_at s proposalId) in
  let goal := fundingGoal (proposal_at s proposalId) in
  (goal = 0 ->
   getDonationProgress proposalId s = Ok ((raised, goal, 0), s, [])) /\
  (0 < goal -> raised * 100 <= uint256_max ->
   getDonationProgress proposalId s
     = Ok ((raised, goal, raised * 100 / goal), s, [])) /\
  (0 < goal -> uint256_max < raised * 100 ->
   getDonationProgress proposalId s = Panic 17).
Proof.
  intros Hid. cbn zeta.
  unfold getDonationProgress, proposalExists. sol_unfold; cbn.
  apply Z.eqb_neq in Hid. rewrite Hid; cbn. rewrite Z.gtb_ltb.
  repeat split.
  - intros ->. done.
  - intros Hg Hfit. apply Z.ltb_lt in Hg. rewrite Hg.
    apply Z.leb_le in Hfit. by rewrite Hfit.
  - intros Hg Hbig. apply Z.ltb_lt in Hg. rewrite Hg.
    apply Z.leb_gt in Hbig. by rewrite Hbig.
Qed.

(** C10. Called by the owner on an existing [Active] proposal with [Active]
    as the new status, [forceCloseProposal] goes through and leaves the whole
    state as it was: the status is still [Active] and [fundingEnabled] is
    unchanged. So the proposal still takes the vote of anyone who has not
    voted, up to its deadline, and can be closed again, by the owner at any
    time and by the tallies once the deadline has passed. *)
Theorem forceCloseProposal_Active_is_not_terminal e s proposalId :
  msg_sender e = owner s ->
  id (proposal_at s proposalId) <> 0 ->
  status (proposal_at s proposalId) = Active ->
  let t := {| tx_env := e;
              tx_call := ForceCloseProposal proposalId Active |} in
  let s' := step s t in
  outcome t s
    = Ok (RetNone, [Emit (ProposalStatusUpdated proposalId Active)]) /\
  s' = s /\
  status (proposal_at s' proposalId) = Active /\
  fundingEnabled (proposal_at s' proposalId)
    = fundingEnabled (proposal_at s proposalId) /\
  (forall e2 (v : bool) voter,
     hasVoted_at s proposalId voter = false ->
     block_timestamp e2 <= endDate (proposal_at s proposalId) ->
     (if v then yesVotes (proposal_at s proposalId)
      else noVotes (proposal_at s proposalId)) + 1 <= uint64_max ->
     succeeds (vote e2 proposalId v voter) s' = true) /\
  (forall e2 newStatus,
     msg_sender e2 = owner s ->
     succeeds (forceCloseProposal e2 proposalId newStatus) s' = true) /\
  (forall e2,
     msg_sender e2 = owner s ->
     endDate (proposal_at s proposalId) < block_timestamp e2 ->
     succeeds (updateProposalStatus e2 proposalId) s' = true).
Proof.
  intros Ho Hid Hst. cbn zeta.
  pose proof (forceCloseProposal_eval e proposalId Active s Ho Hid Hst) as Hf.
  cbn zeta in Hf. rewrite (bool_decide_false (Active = Accepted)) in Hf by done.
  cbn in Hf.
  assert (with_status Active (proposal_at s proposalId)
          = proposal_at s proposalId) as Hsame.
  { rewrite <- Hst. apply with_status_same. }
  rewrite Hsame, set_proposal_same in Hf by done.
  unfold outcome, step, commit, exec; cbn [tx_env tx_call].
  rewrite (exec_bind_Ok _ _ _ _ _ _ Hf). rewrite Hst.
  repeat split; try done.
  - intros e2 v voter Hnv Hd Hmax. unfold succeeds.
    by destruct (vote_eval e2 proposalId v voter s Hid Hst Hnv Hd Hmax)
      as [s2 ->].
  - intros e2 newStatus Ho2. unfold succeeds.
    by rewrite forceCloseProposal_eval.
  - intros e2 Ho2 Hd. unfold succeeds.
    by rewrite updateProposalStatus_eval.
Qed.

(** ** The scenarios, checked *)

(** The funded park, end to end: two of three votes in favour, acceptance at
    the deadline with a goal of 1000, two donations of 400. *)
Example park_funded_progress :
  view (getDonationProgress 1) park_funded = Ok (800, 1000, 80) /\
  view getTotalProposals park_funded = Ok 1 /\
  created_ids (history deployed park_funding) = [1] /\
  voters 1 (history deployed park_funding) = [8; 9; 10] /\
  sum_amounts (donations_made 1 (history deployed park_funding)) = 800 /\
  balance park_funded = 800.
Proof. vm_compute. repeat split. Qed.

Example park_funded_withdrawn :
  let s := step park_funded (tx 1 130 (WithdrawFunds 1 77)) in
  view (getDonationProgress 1) s = Ok (0, 1000, 0) /\ balance s = 0.
Proof. vm_compute. repeat split. Qed.

(** C2 fails on the contract: a proposal accepted without a goal has funding
    disabled, and setting a positive goal afterwards does not enable it. *)
Lemma setFundingGoal_does_not_enable_funding :
  ~ (forall e s proposalId goal,
       reachable s ->
       msg_sender e = owner s ->
       id (proposal_at s proposalId) <> 0 ->
       status (proposal_at s proposalId) = Accepted ->
       0 < goal ->
       let s' := step s {| tx_env := e;
                           tx_call := SetFundingGoal proposalId goal |} in
       fundingGoal (proposal_at s' proposalId) = goal /\
       fundingEnabled (proposal_at s' proposalId) = true).
Proof.
  intros H.
  specialize (H (env 1 102) garden_accepted 1 1000).
  cbn zeta in H. destruct H as [_ H].
  - apply reachable_run.
  - vm_compute; reflexivity.
  - vm_compute; discriminate.
  - vm_compute; reflexivity.
  - reflexivity.
  - vm_compute in H. discriminate H.
Qed.

Lemma setFundingGoal_keeps_fundingEnabled_witness :
  (let s' := step garden_accepted (tx 1 102 (SetFundingGoal 1 1000)) in
   fundingGoal (proposal_at s' 1) = 1000 /\
   fundingEnabled (proposal_at s' 1) = false /\
   donateToProposal (env 20 110) 400 1 s' = Revert "Funding not enabled") /\
  (let s' := step park_funded (tx 1 130 (SetFundingGoal 1 0)) in
   fundingGoal (proposal_at s' 1) = 0 /\
   fundingEnabled (proposal_at s' 1) = true /\
   donateToProposal (env 20 140) 400 1 s' <> Revert "Funding not enabled").
Proof.
  split.
  - assert (msg_sender (env 1 102) = owner garden_accepted) as H1
      by (vm_compute; reflexivity).
    assert (id (proposal_at garden_accepted 1) <> 0) as H2
      by (vm_compute; discriminate).
    assert (status (proposal_at garden_accepted 1) = Accepted) as H3
      by (vm_compute; reflexivity).
    pose proof (setFundingGoal_keeps_fundingEnabled (env 1 102)
                  garden_accepted 1 1000 H1 H2 H3)
      as (_ & Hgoal & _ & Hflag & Hoff & _).
    assert (fundingEnabled (proposal_at garden_accepted 1) = false) as H4
      by (vm_compute; reflexivity).
    cbn zeta. split; [exact Hgoal|]. split; [exact (eq_trans Hflag H4)|].
    exact (Hoff H4 (env 20 110) 400).
  - assert (msg_sender (env 1 130) = owner park_funded) as H1
      by (vm_compute; reflexivity).
    assert (id (proposal_at park_funded 1) <> 0) as H2
      by (vm_compute; discriminate).
    assert (status (proposal_at park_funded 1) = Accepted) as H3
      by (vm_compute; reflexivity).
    pose proof (setFundingGoal_keeps_fundingEnabled (env 1 130)
                  park_funded 1 0 H1 H2 H3)
      as (_ & Hgoal & _ & Hflag & _ & Hon).
    assert (fundingEnabled (proposal_at park_funded 1) = true) as H4
      by (vm_compute; reflexivity).
    cbn zeta. split; [exact Hgoal|]. split; [exact (eq_trans Hflag H4)|].
    exact (Hon H4 (env 20 140) 400).
Defined.

Lemma updateProposalStatus_decides_witness :
  updateProposalStatus (env 8 101) 1 park_voted
    = Revert "Only owner can call this function" /\
  (let t := tx 1 101 (UpdateProposalStatus 1) in
   outcome t park_voted
     = Ok (RetNone, [Emit (ProposalStatusUpdated 1 Accepted)]) /\
   status (proposal_at (step park_voted t) 1) = Accepted /\
   fundingEnabled (proposal_at (step park_voted t) 1) = true).
Proof.
  split.
  - apply (proj1 (updateProposalStatus_decides (env 8 101) park_voted 1)).
    vm_compute; discriminate.
  - assert (msg_sender (env 1 101) = owner park_voted) as H1
      by (vm_compute; reflexivity).
    assert (id (proposal_at park_voted 1) <> 0) as H2
      by (vm_compute; discriminate).
    assert (status (proposal_at park_voted 1) = Active) as H3
      by (vm_compute; reflexivity).
    assert (endDate (proposal_at park_voted 1) < block_timestamp (env 1 101))
      as H4 by (vm_compute; reflexivity).
    pose proof (proj2 (updateProposalStatus_decides (env 1 101) park_voted 1)
                  H1 H2 H3 H4) as (Hout & Hst & _ & Hflag & _).
    cbn zeta. split; [exact Hout|]. split; [exact Hst | exact Hflag].
Defined.

Lemma vote_checks_in_order_witness :
  vote (env 8 200) 1 false 8 park_voted = Revert "User has already voted".
Proof.
  apply (proj2 (vote_checks_in_order (env 8 200) park_voted 1 false 8)).
  - vm_compute; discriminate.
  - vm_compute; reflexivity.
  - vm_compute; reflexivity.
  - vm_compute; reflexivity.
Defined.

Lemma funding_enabled_only_when_accepted_witness :
  status (proposal_at park_funded 1) = Accepted /\
  fundingEnabled (proposal_at park_voted 1) = false /\
  funding_invariant (step deployed (tx 7 10 (new_park 100 1000))).
Proof.
  split; [|split].
  - apply (proj2 funding_enabled_only_when_accepted park_funded).
    + apply reachable_run.
    + vm_compute; discriminate.
    + vm_compute; reflexivity.
  - apply (proj2 funding_enabled_only_when_accepted park_voted).
    + apply reachable_run.
    + vm_compute; discriminate.
    + vm_compute; reflexivity.
  - apply (proj1 funding_enabled_only_when_accepted deployed).
    intros j Hj. vm_compute in Hj. by destruct Hj.
Defined.

Lemma tallies_count_distinct_voters_witness :
  yesVotes (proposal_at park_funded 1) + noVotes (proposal_at park_funded 1)
  = Z.of_nat (size (list_to_set (voters 1 (history deployed park_funding))
                    : gset Z)) /\
  yesVotes (proposal_at
              (run park_funded [tx 11 50 (Vote 1 false 11)]) 1) = 2.
Proof.
  assert (id (proposal_at (run (constructor 500 1) park_funding) 1) <> 0)
    as H1 by (vm_compute; discriminate).
  pose proof (tallies_count_distinct_voters 500 1 park_funding 1 H1)
    as (_ & Hsum & Hfrozen).
  split; [exact Hsum|].
  assert (status (proposal_at (run (constructor 500 1) park_funding) 1)
          <> Active) as H2 by (vm_compute; discriminate).
  destruct (Hfrozen H2 [tx 11 50 (Vote 1 false 11)]) as (_ & Hyes & _).
  exact Hyes.
Defined.

Lemma donations_accounting_witness :
  step garden_accepted (tx 20 110 (DonateToProposal 400 1)) = garden_accepted
  /\ totalFundsRaised (proposal_at park_funded 1)
     = sum_amounts (donations_made 1 (history deployed park_funding))
  /\ totalFundsRaised
       (proposal_at (step park_funded (tx 22 125 (DonateToProposal 50 1))) 1)
     = 800 + 50.
Proof.
  split; [|split].
  - apply (proj1 donations_accounting (env 20 110) 400 1 garden_accepted).
    vm_compute; reflexivity.
  - apply (proj1 (proj2 donations_accounting) 500 1 park_funding 1).
    vm_compute; reflexivity.
  - destruct (donateToProposal (env 22 125) 50 1 park_funded)
      as [[[[] s'] l]| |] eqn:Hd; try (vm_compute in Hd; discriminate Hd).
    pose proof (proj2 (proj2 donations_accounting) _ _ _ _ _ _ Hd)
      as (_ & _ & _ & _ & Htotal).
    unfold step, commit, exec, tx; cbn [tx_env tx_call].
    rewrite (exec_bind_Ok _ (fun _ => RetNone) _ _ _ _ Hd). exact Htotal.
Defined.

(** C9 fails on the contract: once a proposal has raised more than a
    hundredth of the largest 256-bit number, the product [raised * 100] of
    the percentage overflows and the call is aborted. *)
Lemma getDonationProgress_overflows :
  ~ (forall s proposalId,
       reachable s ->
       id (proposal_at s proposalId) <> 0 ->
       0 < fundingGoal (proposal_at s proposalId) ->
       view (getDonationProgress proposalId) s
       = Ok (totalFundsRaised (proposal_at s proposalId),
             fundingGoal (proposal_at s proposalId),
             totalFundsRaised (proposal_at s proposalId) * 100
               / fundingGoal (proposal_at s proposalId))).
Proof.
  intros H. specialize (H whale_funded 1).
  assert (view (getDonationProgress 1) whale_funded = Panic 17) as Hp
    by (vm_compute; reflexivity).
  rewrite Hp in H. discriminate H.
  - apply reachable_run.
  - vm_compute; discriminate.
  - vm_compute; reflexivity.
Qed.

Lemma getDonationProgress_percentage_witness :
  getDonationProgress 1 garden_accepted = Ok ((0, 0, 0), garden_accepted, [])
  /\ getDonationProgress 1 park_funded = Ok ((800, 1000, 80), park_funded, [])
  /\ getDonationProgress 1 whale_funded = Panic 17.
Proof.
  split; [|split].
  - assert (id (proposal_at garden_accepted 1) <> 0) as H1
      by (vm_compute; discriminate).
    pose proof (getDonationProgress_percentage garden_accepted 1 H1)
      as (Hzero & _ & _).
    apply Hzero. vm_compute; reflexivity.
  - assert (id (proposal_at park_funded 1) <> 0) as H1
      by (vm_compute; discriminate).
    pose proof (getDonationProgress_percentage park_funded 1 H1)
      as (_ & Hpos & _).
    apply Hpos; vm_compute; (reflexivity || discriminate).
  - assert (id (proposal_at whale_funded 1) <> 0) as H1
      by (vm_compute; discriminate).
    pose proof (getDonationProgress_percentage whale_funded 1 H1)
      as (_ & _ & Hbig).
    apply Hbig; vm_compute; reflexivity.
Defined.

Lemma forceCloseProposal_Active_is_not_terminal_witness :
  let s' := step park_voted (tx 1 50 (ForceCloseProposal 1 Active)) in
  s' = park_voted /\
  succeeds (vote (env 11 60) 1 true 11) s' = true /\
  succeeds (forceCloseProposal (env 1 70) 1 Declined) s' = true /\
  succeeds (updateProposalStatus (env 1 101) 1) s' = true.
Proof.
  assert (msg_sender (env 1 50) = owner park_voted) as H1
    by (vm_compute; reflexivity).
  assert (id (proposal_at park_voted 1) <> 0) as H2
    by (vm_compute; discriminate).
  assert (status (proposal_at park_voted 1) = Active) as H3
    by (vm_compute; reflexivity).
  pose proof (forceCloseProposal_Active_is_not_terminal (env 1 50)
                park_voted 1 H1 H2 H3)
    as (_ & Hsame & _ & _ & Hvote & Hforce & Hupdate).
  cbn zeta. split; [exact Hsame|]. split; [|split].
  - apply Hvote; vm_compute; (reflexivity || discriminate).
  - apply Hforce. vm_compute; reflexivity.
  - apply Hupdate; vm_compute; reflexivity.
Defined.

(** * Beyond the ledger operations: the listing functions *)

Lemma for_each_id_step {A} (body : Z -> A -> result A) last i acc :
  for_each_id body last i acc =
  if decide (i <= last) then
    match body i acc with
    | Ok acc' =>
        if decide (i + 1 <= uint64_max)
        then for_each_id body last (i + 1) acc'
        else Panic 17
    | Revert r => Revert r
    | Panic c => Panic c
    end
  else Ok acc.
Proof.
  simp for_each_id. destruct (decide (i <= last)); cbn; [|done].
  destruct (body i acc); cbn; try done.
  by destruct (decide (i + 1 <= uint64_max)).
Qed.

Lemma for_each_id_fold {A} (body : Z -> A -> result A) last i acc :
  last < uint64_max ->
  for_each_id body last i acc = fold_ids body (seqZ i (last + 1 - i)) acc.
Proof.
  intros Hlast.
  remember (Z.to_nat (last + 1 - i)) as n eqn:Hn.
  revert i acc Hn. induction n as [|n IH]; intros i acc Hn.
  - rewrite for_each_id_step, decide_False by lia.
    by rewrite seqZ_nil by lia.
  - rewrite for_each_id_step, decide_True by lia.
    rewrite seqZ_cons by lia. cbn [fold_ids].
    destruct (body i acc) as [acc'| |]; try done.
    rewrite decide_True by lia. rewrite IH by lia.
    do 2 f_equal; lia.
Qed.

Lemma count_fold test s l c :
  c + Z.of_nat (length l) <= uint64_max ->
  fold_ids (count_body test s) l c
  = Ok (c + Z.of_nat
              (length (filter (fun i => test (proposal_at s i) = true) l))).
Proof.
  revert c. induction l as [|i l IH]; intros c Hc; cbn [fold_ids].
  - rewrite filter_nil. cbn. f_equal. lia.
  - cbn [length] in Hc. rewrite filter_cons. unfold count_body at 1.
    destruct (test (proposal_at s i)) eqn:Ht.
    + rewrite decide_True by done. unfold incr_uint64.
      destruct (Z.leb_spec (c + 1) uint64_max); [|lia].
      rewrite IH by lia. cbn [length]. f_equal. lia.
    + rewrite decide_False by done. rewrite IH by lia. done.
Qed.

Lemma fill_fold test s l k filled m :
  Z.of_nat (length filled) = k ->
  (length (filter (fun i => test (proposal_at s i) = true) l) <= m)%nat ->
  k + Z.of_nat m <= uint64_max ->
  exists k',
    fold_ids (fill_body test s) l (k, filled ++ replicate m 0)
    = Ok (k',
          filled ++ filter (fun i => test (proposal_at s i) = true) l ++
          replicate
            (m - length (filter (fun i => test (proposal_at s i) = true) l))
            0).
Proof.
  revert k filled m. induction l as [|i l IH]; intros k filled m Hk Hm Hmax;
    cbn [fold_ids].
  - rewrite filter_nil. cbn. exists k. by rewrite Nat.sub_0_r.
  - rewrite filter_cons in *. unfold fill_body at 1.
    destruct (test (proposal_at s i)) eqn:Ht.
    + rewrite decide_True in * by done. cbn [length] in Hm.
      destruct m as [|m]; [lia|].
      unfold store. rewrite length_app, length_replicate.
      destruct (Z.ltb_spec k (Z.of_nat (length filled + S m))); [|lia].
      unfold incr_uint64.
      destruct (Z.leb_spec (k + 1) uint64_max); [|lia].
      rewrite insert_app_r_alt by lia.
      replace (Z.to_nat k - length filled)%nat with 0%nat by lia.
      cbn [replicate]. change (<[0%nat:=i]> (0 :: replicate m 0))
        with ([i] ++ replicate m 0).
      rewrite app_assoc.
      destruct (IH (k + 1) (filled ++ [i]) m) as [k' Hk'];
        [rewrite length_app; cbn; lia | lia | lia |].
      exists k'. rewrite Hk'. rewrite <- !app_assoc. done.
    + rewrite decide_False in * by done. by apply IH.
Qed.

(** What [proposals_where] computes, short of the largest counter. *)
Lemma proposals_where_filter test s :
  proposalCounter s < uint64_max ->
  proposals_where test s
  = Ok (filter (fun i => test (proposal_at s i) = true)
          (seqZ 1 (proposalCounter s)), s, []).
Proof.
  intros Hc. unfold proposals_where.
  assert (0 < uint64_max) as Hmax by done.
  rewrite !for_each_id_fold by done.
  replace (proposalCounter s + 1 - 1) with (proposalCounter s) by lia.
  set (l := seqZ 1 (proposalCounter s)).
  assert (Z.of_nat (length l) <= uint64_max) as Hlen.
  { subst l. rewrite length_seqZ. lia. }
  rewrite count_fold by lia.
  set (found := filter _ l).
  assert (length found <= length l)%nat as Hfound by apply length_filter.
  replace (Z.to_nat (0 + Z.of_nat (length found))) with (length found) by lia.
  destruct (fill_fold test s l 0 [] (length found)) as [k' Hk'];
    [done | done | lia |].
  cbn [app] in Hk'. rewrite for_each_id_fold by done.
  replace (proposalCounter s + 1 - 1) with (proposalCounter s) by lia.
  fold l. rewrite Hk'. fold found. rewrite Nat.sub_diag. cbn [replicate].
  by rewrite app_nil_r.
Qed.

Lemma StronglySorted_filter_lt (P : Z -> Prop) `{forall x, Decision (P x)} l :
  StronglySorted Z.lt l -> StronglySorted Z.lt (filter P l).
Proof.
  induction 1 as [|x l Hl IH Hx]; [constructor|].
  rewrite filter_cons. destruct (decide (P x)); [|done].
  constructor; [done|]. apply Forall_forall. intros y Hy.
  apply list_elem_of_filter in Hy as [_ Hy].
  by eapply Forall_forall in Hx.
Qed.

Lemma proposals_where_status test sts s :
  (forall p, test p = true <-> status p ∈ sts) ->
  proposalCounter s < uint64_max ->
  proposals_where test s = Ok (ids_with_status sts s, s, []).
Proof.
  intros Htest Hc. rewrite proposals_where_filter by done.
  unfold ids_with_status. do 3 f_equal.
  apply list_filter_iff. intros i. apply Htest.
Qed.

Lemma ids_with_status_elem sts s i :
  i ∈ ids_with_status sts s <->
  1 <= i <= proposalCounter s /\ status (proposal_at s i) ∈ sts.
Proof.
  unfold ids_with_status. rewrite list_elem_of_filter, elem_of_seqZ.
  intuition lia.
Qed.

Lemma ids_with_status_sorted sts s :
  StronglySorted Z.lt (ids_with_status sts s).
Proof. apply StronglySorted_filter_lt, seqZ_increasing. Qed.

(** X1. Short of the largest counter, [getAllActiveProposals] goes through,
    changes nothing and returns, in increasing order and each once, exactly
    the ids from 1 to [proposalCounter] whose proposal is [Active]. *)
Theorem getAllActiveProposals_lists_active s :
  proposalCounter s < uint64_max ->
  getAllActiveProposals s = Ok (ids_with_status [Active] s, s, []) /\
  StronglySorted Z.lt (ids_with_status [Active] s) /\
  forall i, i ∈ ids_with_status [Active] s <->
            1 <= i <= proposalCounter s /\
            status (proposal_at s i) = Active.
Proof.
  intros Hc. split; [|split].
  - apply proposals_where_status; [|done]. intros p.
    rewrite bool_decide_eq_true, list_elem_of_singleton. done.
  - apply ids_with_status_sorted.
  - intros i. rewrite ids_with_status_elem, list_elem_of_singleton. done.
Qed.

(** X2. Short of the largest counter, [getAllAcceptedProposals],
    [getAllRejectedProposals] and [getAllClosedProposals] return the
    increasing lists of the ids whose proposal is [Accepted], is [Declined],
    is either. The closed ids are the accepted and the rejected ones
    together, and with the active ones they make up 1 to [proposalCounter]:
    every id is listed by exactly one of active, accepted, rejected. *)
Theorem closed_proposals_partition s :
  proposalCounter s < uint64_max ->
  let active := ids_with_status [Active] s in
  let accepted := ids_with_status [Accepted] s in
  let rejected := ids_with_status [Declined] s in
  let closed := ids_with_status [Accepted; Declined] s in
  getAllAcceptedProposals s = Ok (accepted, s, []) /\
  getAllRejectedProposals s = Ok (rejected, s, []) /\
  getAllClosedProposals s = Ok (closed, s, []) /\
  StronglySorted Z.lt accepted /\
  StronglySorted Z.lt rejected /\
  StronglySorted Z.lt closed /\
  closed ≡ₚ accepted ++ rejected /\
  active ++ closed ≡ₚ seqZ 1 (proposalCounter s).
Proof.
  intros Hc. cbn zeta.
  split; [|split; [|split]].
  - apply proposals_where_status; [|done]. intros p.
    rewrite bool_decide_eq_true, list_elem_of_singleton. done.
  - apply proposals_where_status; [|done]. intros p.
    rewrite bool_decide_eq_true, list_elem_of_singleton. done.
  - apply proposals_where_status; [|done]. intros p.
    rewrite orb_true_iff, !bool_decide_eq_true, elem_of_cons,
      list_elem_of_singleton. done.
  - repeat split; try apply ids_with_status_sorted.
    + unfold ids_with_status.
      set (l := seqZ 1 (proposalCounter s)).
      rewrite <- (filter_app_complement
                    (fun i => status (proposal_at s i) ∈ [Accepted])
                    (filter (fun i => status (proposal_at s i)
                                      ∈ [Accepted; Declined]) l)).
      rewrite !list_filter_filter. f_equiv; apply reflexive_eq;
        apply list_filter_iff; intros i;
        rewrite ?elem_of_cons, ?elem_of_nil;
        destruct (status (proposal_at s i)); intuition congruence.
    + unfold ids_with_status.
      set (l := seqZ 1 (proposalCounter s)).
      rewrite <- (filter_app_complement
                    (fun i => status (proposal_at s i) ∈ [Active]) l) at 3.
      f_equiv. apply reflexive_eq. apply list_filter_iff. intros i.
      rewrite ?elem_of_cons, ?elem_of_nil.
      destruct (status (proposal_at s i)); intuition congruence.
Qed.

(** * Beyond the ledger operations: the registry *)

(** Reading a plain state variable through a write. *)
Section frame_plain.
Context (s : State) (i j a b z : Z) (v : bool) (p : Proposal)
    (l : list Donation).

Lemma proposalCounter_set_proposal :
    proposalCounter (set_proposal i p s) = proposalCounter s.
Proof. reflexivity. Qed.

Lemma proposalCounter_set_userVotes :
    proposalCounter (set_userVotes i a v s) = proposalCounter s.
Proof. reflexivity. Qed.

Lemma proposalCounter_set_hasVoted :
    proposalCounter (set_hasVoted i a v s) = proposalCounter s.
Proof. reflexivity. Qed.

Lemma proposalCounter_set_proposalDonations :
    proposalCounter (set_proposalDonations i l s) = proposalCounter s.
Proof. reflexivity. Qed.

Lemma proposalCounter_set_userDonationTotal :
    proposalCounter (set_userDonationTotal i a z s) = proposalCounter s.
Proof. reflexivity. Qed.

Lemma proposalCounter_set_proposalCounter :
    proposalCounter (set_proposalCounter z s) = z.
Proof. reflexivity. Qed.

Lemma proposalCounter_set_balance :
    proposalCounter (set_balance z s) = proposalCounter s.
Proof. reflexivity. Qed.

Lemma owner_set_proposal :
    owner (set_proposal i p s) = owner s.
Proof. reflexivity. Qed.

Lemma owner_set_userVotes :
    owner (set_userVotes i a v s) = owner s.
Proof. reflexivity. Qed.

Lemma owner_set_hasVoted :
    owner (set_hasVoted i a v s) = owner s.
Proof. reflexivity. Qed.

Lemma owner_set_proposalDonations :
    owner (set_proposalDonations i l s) = owner s.
Proof. reflexivity. Qed.

Lemma owner_set_userDonationTotal :
    owner (set_userDonationTotal i a z s) = owner s.
Proof. reflexivity. Qed.

Lemma owner_set_proposalCounter :
    owner (set_proposalCounter z s) = owner s.
Proof. reflexivity. Qed.

Lemma owner_set_balance :
    owner (set_balance z s) = owner s.
Proof. reflexivity. Qed.

Lemma this_set_proposal :
    this (set_proposal i p s) = this s.
Proof. reflexivity. Qed.

Lemma this_set_userVotes :
    this (set_userVotes i a v s) = this s.
Proof. reflexivity. Qed.

Lemma this_set_hasVoted :
    this (set_hasVoted i a v s) = this s.
Proof. reflexivity. Qed.

Lemma this_set_proposalDonations :
    this (set_proposalDonations i l s) = this s.
Proof. reflexivity. Qed.

Lemma this_set_userDonationTotal :
    this (set_userDonationTotal i a z s) = this s.
Proof. reflexivity. Qed.

Lemma this_set_proposalCounter :
    this (set_proposalCounter z s) = this s.
Proof. reflexivity. Qed.

Lemma this_set_balance :
    this (set_balance z s) = this s.
Proof. reflexivity. Qed.

Lemma balance_set_proposal :
    balance (set_proposal i p s) = balance s.
Proof. reflexivity. Qed.

Lemma balance_set_userVotes :
    balance (set_userVotes i a v s) = balance s.
Proof. reflexivity. Qed.

Lemma balance_set_hasVoted :
    balance (set_hasVoted i a v s) = balance s.
Proof. reflexivity. Qed.

Lemma balance_set_proposalDonations :
    balance (set_proposalDonations i l s) = balance s.
Proof. reflexivity. Qed.

Lemma balance_set_userDonationTotal :
    balance (set_userDonationTotal i a z s) = balance s.
Proof. reflexivity. Qed.

Lemma balance_set_proposalCounter :
    balance (set_proposalCounter z s) = balance s.
Proof. reflexivity. Qed.

Lemma balance_set_balance :
    balance (set_balance z s) = z.
Proof. reflexivity. Qed.

End frame_plain.

#[global] Hint Rewrite
  proposalCounter_set_proposal proposalCounter_set_userVotes
  proposalCounter_set_hasVoted proposalCounter_set_proposalDonations
  proposalCounter_set_userDonationTotal proposalCounter_set_proposalCounter
  proposalCounter_set_balance owner_set_proposal
  owner_set_userVotes owner_set_hasVoted
  owner_set_proposalDonations owner_set_userDonationTotal
  owner_set_proposalCounter owner_set_balance
  this_set_proposal this_set_userVotes
  this_set_hasVoted this_set_proposalDonations
  this_set_userDonationTotal this_set_proposalCounter
  this_set_balance balance_set_proposal
  balance_set_userVotes balance_set_hasVoted
  balance_set_proposalDonations balance_set_userDonationTotal
  balance_set_proposalCounter balance_set_balance
  : state.

(** Inverts a call that went through and substitutes the state it left. *)
Ltac call_inv Hf :=
  lazymatch type of Hf with
  | createProposal _ _ _ _ _ _ _ _ _ _ _ = Ok _ =>
      apply createProposal_Ok_inv in Hf as (-> & ? & ? & ? & ->)
  | vote _ _ _ _ _ = Ok _ =>
      apply vote_Ok_inv in Hf as (? & ? & ? & ? & ? & ? & ->)
  | updateProposalStatus _ _ _ = Ok _ =>
      apply updateProposalStatus_Ok_inv in Hf as (? & ? & ? & ? & ? & ->)
  | forceCloseProposal _ _ _ _ = Ok _ =>
      apply forceCloseProposal_Ok_inv in Hf as (? & ? & ? & ? & ->)
  | setFundingGoal _ _ _ _ = Ok _ =>
      apply setFundingGoal_Ok_inv in Hf as (? & ? & ? & ? & ->)
  | donateToProposal _ _ _ _ = Ok _ =>
      apply donateToProposal_Ok_inv in Hf as (? & ? & ? & ? & ? & ? & ? & ->)
  | withdrawFunds _ _ _ _ = Ok _ =>
      apply withdrawFunds_Ok_inv in Hf as (? & ? & ? & ? & ? & ->)
  | receive _ _ = Ok _ =>
      apply receive_Ok_inv in Hf as (? & ->)
  end.

(** Reads the proposal [j] of the state a call left: the proposal written
    when [j] is the one the call was about, the old one otherwise. *)
Ltac read_proposal :=
  autorewrite with state in *;
  try match goal with
      | |- context [(if ?b then _ else _) _] => destruct b
      end;
  autorewrite with state in *;
  rewrite ?proposal_at_set_proposal;
  repeat match goal with
         | |- context [decide (?a = ?b)] =>
             destruct (decide (a = b)); try subst
         end;
  autorewrite with state in *.

Lemma registry_complete_step s t :
  registry_invariant s ->
  (forall j, 1 <= j <= proposalCounter s -> id (proposal_at s j) = j) ->
  forall j, 1 <= j <= proposalCounter (step s t) ->
            id (proposal_at (step s t) j) = j.
Proof.
  intros [Hc Hreg] Hall.
  destruct (step_cases s t) as [[-> _]|(r & s' & l & Hex & -> & _)]; [done|].
  exec_inv Hex; call_inv Hf; intros j Hj; read_proposal;
    repeat match goal with
           | |- context [if ?b then _ else _] => destruct b
           end; cbn; try (apply Hall; lia); try done.
Qed.

Lemma registry_complete_reachable s :
  reachable s ->
  forall j, 1 <= j <= proposalCounter s -> id (proposal_at s j) = j.
Proof.
  induction 1 as [|s t Hr IH].
  - cbn. intros j Hj. lia.
  - apply registry_complete_step; [|done].
    by apply registry_invariant_reachable.
Qed.

Lemma exists_iff_in_range s j :
  reachable s ->
  id (proposal_at s j) <> 0 <-> 1 <= j <= proposalCounter s.
Proof.
  intros Hr. split.
  - intros Hid. by apply (registry_invariant_reachable s Hr) in Hid as [_ ?].
  - intros Hj. rewrite (registry_complete_reachable s Hr j Hj). lia.
Qed.

Lemma proposalExists_eval j s :
  proposalExists j s =
  if decide (id (proposal_at s j) = 0)
  then Revert "Proposal does not exist" else Ok (tt, s, []).
Proof.
  unfold proposalExists. sol_unfold; cbn.
  destruct (decide _) as [->|Hid]; [done|].
  apply Z.eqb_neq in Hid. by rewrite Hid.
Qed.

Lemma onlyOwner_eval e s :
  onlyOwner e s =
  if decide (msg_sender e = owner s)
  then Ok (tt, s, []) else Revert "Only owner can call this function".
Proof.
  unfold onlyOwner. sol_unfold; cbn.
  destruct (decide _); [by rewrite bool_decide_true|by rewrite bool_decide_false].
Qed.

(** Runs a function up to its first guards: rewrites the two modifiers that
    every per-proposal function starts with. *)
Ltac guards :=
  unfold view, mbind, M_bind, bind;
  repeat (first [rewrite onlyOwner_eval | rewrite proposalExists_eval];
          first [rewrite decide_True by done | rewrite decide_False by done];
          cbn).

(** X4. In every reachable state the proposals that exist are those with an
    id from 1 to [proposalCounter], each stored under its own id. A read of
    such an id goes through; every function that names a proposal outside
    this range, reads as well as [vote], [donateToProposal] and the owner's
    calls, is aborted with "Proposal does not exist". *)
Theorem proposals_exist_from_one_to_counter s j :
  reachable s ->
  (1 <= j <= proposalCounter s ->
   id (proposal_at s j) = j /\
   view (getProposal j) s = Ok (proposal_at s j) /\
   view (getVoteCounts j) s
     = Ok (yesVotes (proposal_at s j), noVotes (proposal_at s j)) /\
   view (getProposalDonations j) s = Ok (proposalDonations_at s j) /\
   forall u,
     view (getUserVote j u) s = Ok (userVotes_at s j u, hasVoted_at s j u) /\
     view (hasUserVoted j u) s = Ok (hasVoted_at s j u) /\
     view (getUserDonationTotal j u) s = Ok (userDonationTotal_at s j u)) /\
  (~ 1 <= j <= proposalCounter s ->
   let missing {A} : result A := Revert "Proposal does not exist" in
   view (getProposal j) s = missing /\
   view (getVoteCounts j) s = missing /\
   view (getDonationProgress j) s = missing /\
   view (getProposalDonations j) s = missing /\
   (forall u,
      view (getUserVote j u) s = missing /\
      view (hasUserVoted j u) s = missing /\
      view (getUserDonationTotal j u) s = missing) /\
   forall e,
     view (isProposalActive e j) s = missing /\
     (forall v u, vote e j v u s = missing) /\
     (forall v, donateToProposal e v j s = missing) /\
     (msg_sender e = owner s ->
      updateProposalStatus e j s = missing /\
      (forall st, forceCloseProposal e j st s = missing) /\
      (forall g, setFundingGoal e j g s = missing) /\
      (forall r, withdrawFunds e j r s = missing))).
Proof.
  intros Hr. split.
  - intros Hj.
    pose proof (proj2 (exists_iff_in_range s j Hr) Hj) as Hid.
    split; [by apply registry_complete_reachable|].
    unfold getProposal, getVoteCounts, getProposalDonations, getUserVote,
      hasUserVoted, getUserDonationTotal.
    repeat split; by guards.
  - intros Hj.
    assert (id (proposal_at s j) = 0) as Hid.
    { destruct (decide (id (proposal_at s j) = 0)) as [|Hid]; [done|].
      by apply (exists_iff_in_range s j Hr) in Hid. }
    cbn zeta.
    unfold getProposal, getVoteCounts, getDonationProgress,
      getProposalDonations, getUserVote, hasUserVoted, getUserDonationTotal,
      isProposalActive, vote, donateToProposal, receive_value,
      updateProposalStatus, forceCloseProposal, setFundingGoal, withdrawFunds,
      withdrawFunds_during.
    repeat split; intros; guards; try done.
    unfold modify; cbn. rewrite proposalExists_eval.
    autorewrite with state. by rewrite decide_True.
Qed.

Lemma metadata_id p : (metadata p).1.1.1.1.1.1.1 = id p.
Proof. reflexivity. Qed.

Lemma metadata_step s t j :
  registry_invariant s ->
  id (proposal_at s j) <> 0 ->
  metadata (proposal_at (step s t) j) = metadata (proposal_at s j).
Proof.
  intros [Hc Hreg] Hid.
  destruct (step_cases s t) as [[-> _]|(r & s' & l & Hex & -> & _)]; [done|].
  exec_inv Hex; call_inv Hf; read_proposal;
    repeat match goal with
           | |- context [if ?b then _ else _] => destruct b
           end; try done.
  apply Hreg in Hid. lia.
Qed.

Lemma metadata_run s txs j :
  registry_invariant s ->
  id (proposal_at s j) <> 0 ->
  metadata (proposal_at (run s txs) j) = metadata (proposal_at s j).
Proof.
  revert s. induction txs as [|t txs IH]; intros s Hreg Hid; [done|].
  cbn [run fold_left]. fold (run (step s t) txs).
  pose proof (metadata_step s t j Hreg Hid) as Hm.
  rewrite IH; [done|by apply registry_invariant_step|].
  by rewrite <- metadata_id, Hm, metadata_id.
Qed.

(** X5. A proposal that [createProposal] has just stored reads back with the
    id returned and the texts, deadline, measurements and creator passed,
    [Active], without votes or funds and with funding disabled, whatever the
    [fundraisingEnabled] flag; its slot was unused before. From then on
    [getProposal] finds it, and no later transaction changes its id, texts,
    deadline, measurements or creator. *)
Theorem created_proposal_keeps_its_data e n i d dl ed dm c fe g s r s' l :
  reachable s ->
  createProposal e n i d dl ed dm c fe g s = Ok (r, s', l) ->
  id (proposal_at s r) = 0 /\
  proposal_at s' r
    = {| id := r; parkName := n; parkId := i; description := d;
         endDate := dl; status := Active; yesVotes := 0; noVotes := 0;
         environmentalData := ed; demographics := dm; creatorAccountId := c;
         fundingGoal := g; totalFundsRaised := 0; fundingEnabled := false |} /\
  forall txs,
    view (getProposal r) (run s' txs) = Ok (proposal_at (run s' txs) r) /\
    metadata (proposal_at (run s' txs) r) = (r, n, i, d, dl, ed, dm, c).
Proof.
  intros Hr Hcreate.
  pose proof (registry_invariant_reachable s Hr) as Hreg.
  assert (registry_invariant s') as Hreg'.
  { replace s' with (step s {| tx_env := e;
                               tx_call := CreateProposal n i d dl ed dm c fe g |}).
    { by apply registry_invariant_step. }
    unfold step, commit, exec; cbn [tx_env tx_call].
    by rewrite (exec_bind_Ok _ RetUint64 _ _ _ _ Hcreate). }
  apply createProposal_Ok_inv in Hcreate as (-> & Hmax & _ & _ & ->).
  assert (id (proposal_at
                (set_proposal (proposalCounter s + 1)
                   {| id := proposalCounter s + 1; parkName := n;
                      parkId := i; description := d; endDate := dl;
                      status := Active; yesVotes := 0; noVotes := 0;
                      environmentalData := ed; demographics := dm;
                      creatorAccountId := c; fundingGoal := g;
                      totalFundsRaised := 0; fundingEnabled := false |}
                   (set_proposalCounter (proposalCounter s + 1) s))
                (proposalCounter s + 1)) <> 0) as Hnew.
  { rewrite proposal_at_set_proposal_eq. cbn. destruct Hreg. lia. }
  split; [|split].
  - destruct (decide (id (proposal_at s (proposalCounter s + 1)) = 0))
      as [|Hid]; [done|].
    apply Hreg in Hid. lia.
  - by rewrite proposal_at_set_proposal_eq.
  - intros txs.
    pose proof (metadata_run _ txs _ Hreg' Hnew) as Hm.
    rewrite proposal_at_set_proposal_eq in Hm. split; [|exact Hm].
    match type of Hm with
    | metadata (proposal_at ?s1 ?r) = _ =>
        assert (id (proposal_at s1 r) <> 0) as Hid
    end.
    { rewrite <- metadata_id, Hm. cbn. destruct Hreg. lia. }
    unfold getProposal. by guards.
Qed.

(** * Beyond the ledger operations: the vote records *)

Lemma userVotes_at_set_userVotes i a v s j b :
  userVotes_at (set_userVotes i a v s) j b =
  if decide ((i, a) = (j, b)) then v else userVotes_at s j b.
Proof.
  unfold userVotes_at, set_userVotes; simpl.
  rewrite lookup_insert. by destruct (decide ((i, a) = (j, b))).
Qed.

Lemma ballot_fail j s t :
  (forall x, outcome t s <> Ok x) -> ballot j (receipt s t) = None.
Proof.
  intros H. unfold ballot, receipt; cbn.
  destruct (tx_call t); try done.
  destruct (outcome t s) eqn:Ho; try done.
  by destruct (H _ eq_refl).
Qed.

Lemma ballot_Ok j s t r l :
  outcome t s = Ok (r, l) ->
  ballot j (receipt s t) =
  match tx_call t with
  | Vote p v voter => if bool_decide (p = j) then Some (voter, v) else None
  | _ => None
  end.
Proof.
  intros Ho. unfold ballot, receipt; cbn. rewrite Ho.
  by destruct (tx_call t).
Qed.

Lemma count_choice_snoc v bs u b :
  count_choice v (bs ++ [(u, b)])
  = count_choice v bs + (if decide (b = v) then 1 else 0).
Proof.
  unfold count_choice. rewrite filter_app, length_app, filter_cons, filter_nil.
  cbn. destruct (decide (b = v)); cbn; lia.
Qed.

Ltac split_ballot u b Hb :=
  split; [|split; [|split; [intros u b Hb|split; [intros u Hb|]]]];
  autorewrite with state.

Lemma ballot_invariant_step s h t j :
  registry_invariant s ->
  ballot_invariant s h j ->
  ballot_invariant (step s t) (h ++ [receipt s t]) j.
Proof.
  intros [Hc Hreg] (Hyes & Hno & Hin & Hout & Hnone).
  unfold ballot_invariant, ballots in *. rewrite omap_snoc.
  destruct (step_cases s t) as [[-> Hfail]|(r & s' & l & Hex & -> & Ho)].
  { rewrite ballot_fail by done. by rewrite app_nil_r. }
  rewrite (ballot_Ok _ _ _ _ _ Ho).
  exec_inv Hex; cbn [tx_call]; call_inv Hf; rewrite ?app_nil_r.
  - rewrite proposal_at_set_proposal.
    destruct (decide _) as [<-|Hne]; [|by split_ballot u b Hb; auto].
    assert (omap (ballot (proposalCounter s + 1)) h = []) as Hfresh.
    { apply Hnone.
      destruct (decide (id (proposal_at s (proposalCounter s + 1)) = 0))
        as [|Hid]; [done|]. apply Hreg in Hid. lia. }
    rewrite Hfresh in *. split_ballot u b Hb; cbn; auto.
  - case_bool_decide as Hp.
    + subst j. rewrite proposal_at_set_proposal_eq.
      rewrite !count_choice_snoc, fmap_app. cbn [fmap list_fmap fst].
      assert (voter ∉ (omap (ballot proposalId) h).*1) as Hfresh.
      { intros Hv. apply list_elem_of_fmap in Hv as ([u b] & -> & Hb).
        apply Hin in Hb as [_ Hb]. cbn in *. congruence. }
      split_ballot u b Hb.
      * destruct voteValue; cbn; [rewrite decide_True by done
                                 |rewrite decide_False by done]; lia.
      * destruct voteValue; cbn; [rewrite decide_False by done
                                 |rewrite decide_True by done]; lia.
      * rewrite userVotes_at_set_userVotes, hasVoted_at_set_hasVoted.
        autorewrite with state.
        apply elem_of_app in Hb as [Hb|Hb%list_elem_of_singleton].
        -- destruct (decide _) as [Heq|]; [|by apply Hin].
           exfalso. inversion Heq; subst.
           apply Hfresh, list_elem_of_fmap. by exists (u, b).
        -- inversion Hb; subst. by destruct (decide _).
      * rewrite userVotes_at_set_userVotes, hasVoted_at_set_hasVoted.
        autorewrite with state.
        destruct (decide _) as [Heq|].
        { exfalso. inversion Heq; subst.
          apply Hb, elem_of_app. right. by apply list_elem_of_singleton. }
        apply Hout. intros Hu. apply Hb, elem_of_app. by left.
      * destruct voteValue; cbn; done.
    + rewrite app_nil_r, proposal_at_set_proposal_ne by done.
      split_ballot u b Hb; try done;
        rewrite userVotes_at_set_userVotes, hasVoted_at_set_hasVoted;
        autorewrite with state;
        (destruct (decide _) as [Heq|]; [inversion Heq; congruence|]);
        auto.
  - rewrite proposal_at_set_proposal.
    destruct (decide _) as [<-|]; [|by split_ballot u b Hb; auto].
    split_ballot u b Hb; auto; destruct (_ >? _), (_ >? 0); cbn; done.
  - rewrite proposal_at_set_proposal.
    destruct (decide _) as [<-|]; [|by split_ballot u b Hb; auto].
    split_ballot u b Hb; auto; destruct (_ && _); cbn; done.
  - rewrite proposal_at_set_proposal.
    destruct (decide _) as [<-|]; by split_ballot u b Hb; auto.
  - rewrite proposal_at_set_proposal.
    destruct (decide _) as [<-|]; by split_ballot u b Hb; auto.
  - destruct (bool_decide _); autorewrite with state;
      rewrite proposal_at_set_proposal;
      destruct (decide _) as [<-|]; by split_ballot u b Hb; auto.
  - by split_ballot u b Hb; auto.
Qed.

Lemma ballot_invariant_run this_ deployer txs j :
  ballot_invariant (run (constructor this_ deployer) txs)
    (history (constructor this_ deployer) txs) j.
Proof.
  induction txs as [|t txs IH] using rev_ind.
  - split_ballot u b Hb; cbn; try done. by apply elem_of_nil in Hb.
  - rewrite run_snoc, history_snoc. apply ballot_invariant_step; [|done].
    apply registry_invariant_reachable, reachable_run.
Qed.

Lemma voters_ballots j h : voters j h = (ballots j h).*1.
Proof.
  unfold voters, ballots. induction h as [|r h IH]; [done|].
  cbn [omap list_omap]. unfold vote_cast at 1, ballot at 1.
  destruct (tx_call (receipt_tx r)); try done.
  destruct (receipt_result r); try done.
  case_bool_decide; [|done]. cbn. by f_equal.
Qed.

(** X6. At any point of a run that starts at deployment, [yesVotes] and
    [noVotes] of a proposal are the numbers of the votes in favour and
    against that went through, no voter has two of them, and
    [getUserVote] on an existing proposal returns the choice of a voter who
    voted, with the flag set, and [(false, false)] for anyone else. *)
Theorem vote_records_match_the_ballots this_ deployer txs j :
  let s := run (constructor this_ deployer) txs in
  let bs := ballots j (history (constructor this_ deployer) txs) in
  id (proposal_at s j) <> 0 ->
  NoDup bs.*1 /\
  yesVotes (proposal_at s j) = count_choice true bs /\
  noVotes (proposal_at s j) = count_choice false bs /\
  (forall u b, (u, b) ∈ bs ->
     view (getUserVote j u) s = Ok (b, true) /\
     view (hasUserVoted j u) s = Ok true) /\
  (forall u, u ∉ bs.*1 ->
     view (getUserVote j u) s = Ok (false, false) /\
     view (hasUserVoted j u) s = Ok false).
Proof.
  cbn zeta. intros Hid.
  destruct (ballot_invariant_run this_ deployer txs j)
    as (Hyes & Hno & Hin & Hout & _).
  destruct (tally_invariant_run this_ deployer txs j) as (_ & Hnd & _).
  rewrite voters_ballots in Hnd.
  split; [done|]. split; [done|]. split; [done|].
  unfold getUserVote, hasUserVoted.
  split; intros u; [intros b Hb; apply Hin in Hb as [Hb1 Hb2]
                   |intros Hu; apply Hout in Hu as [Hb1 Hb2]];
    split; guards; by rewrite ?Hb1, ?Hb2.
Qed.

(** * Beyond the ledger operations: deadlines, the owner, forced closing *)

Lemma isProposalActive_eval e j s :
  id (proposal_at s j) <> 0 ->
  view (isProposalActive e j) s
  = Ok (bool_decide (status (proposal_at s j) = Active)
        && (block_timestamp e <=? endDate (proposal_at s j))).
Proof. intros Hid. unfold isProposalActive. by guards. Qed.

(** X7. On an existing proposal, at any one time: someone who has not voted
    can vote exactly when [isProposalActive] returns true, and the owner can
    close the proposal by [updateProposalStatus] exactly when the proposal is
    [Active] and [isProposalActive] returns false. A vote at the very
    second of the deadline still counts, and the closing has to wait for the
    next. *)
Theorem isProposalActive_separates_voting_from_closing e s j :
  id (proposal_at s j) <> 0 ->
  (forall (v : bool) u,
     hasVoted_at s j u = false ->
     (if v then yesVotes (proposal_at s j) else noVotes (proposal_at s j)) + 1
       <= uint64_max ->
     (succeeds (vote e j v u) s = true <->
      view (isProposalActive e j) s = Ok true)) /\
  (msg_sender e = owner s ->
   (succeeds (updateProposalStatus e j) s = true <->
    status (proposal_at s j) = Active /\
    view (isProposalActive e j) s = Ok false)) /\
  (status (proposal_at s j) = Active ->
   block_timestamp e = endDate (proposal_at s j) ->
   view (isProposalActive e j) s = Ok true /\
   (updateProposalStatus e j s = Revert "Only owner can call this function"
    \/ updateProposalStatus e j s = Revert "Voting period has not ended")).
Proof.
  intros Hid. rewrite isProposalActive_eval by done.
  split; [|split].
  - intros v u Hnv Hmax. unfold succeeds. split.
    + destruct (vote e j v u s) as [[[[] s'] l]| |] eqn:Hv; try done.
      apply vote_Ok_inv in Hv as (_ & Hst & _ & Hd & _).
      intros _. rewrite bool_decide_true by done.
      apply Z.leb_le in Hd. by rewrite Hd.
    + intros Ha. inversion Ha as [Hb].
      apply andb_prop in Hb as [Hst%bool_decide_eq_true Hd%Z.leb_le].
      by destruct (vote_eval e j v u s Hid Hst Hnv Hd Hmax) as [s' ->].
  - intros Ho. unfold succeeds. split.
    + destruct (updateProposalStatus e j s) as [[[[] s'] l]| |] eqn:Hu;
        try done.
      apply updateProposalStatus_Ok_inv in Hu as (_ & _ & Hst & Hd & _).
      intros _. split; [done|]. rewrite bool_decide_true by done.
      apply Z.leb_gt in Hd. by rewrite Hd.
    + intros [Hst Ha]. inversion Ha as [Hb].
      rewrite bool_decide_true in Hb by done. cbn in Hb.
      apply Z.leb_gt in Hb. by rewrite updateProposalStatus_eval.
  - intros Hst Hd. split.
    { rewrite bool_decide_true by done. by rewrite Hd, Z.leb_refl. }
    unfold updateProposalStatus, proposalActive.
    destruct (decide (msg_sender e = owner s)) as [Ho|Ho].
    + right. guards. sol_unfold; cbn.
      rewrite bool_decide_true by done; cbn.
      rewrite Hd, Z.gtb_ltb, Z.ltb_irrefl. done.
    + left. by guards.
Qed.

Lemma owner_step s t : owner (step s t) = owner s.
Proof.
  destruct (step_cases s t) as [[-> _]|(r & s' & l & Hex & -> & _)]; [done|].
  exec_inv Hex; call_inv Hf; try done.
  by destruct (bool_decide _).
Qed.

Lemma owner_run s txs : owner (run s txs) = owner s.
Proof.
  revert s. induction txs as [|t txs IH]; intros s; [done|].
  cbn [run fold_left]. fold (run (step s t) txs).
  by rewrite IH, owner_step.
Qed.

(** X8. The owner is the deployer for good: no transaction changes it. In
    any state of a run that starts at deployment, [updateProposalStatus],
    [forceCloseProposal], [setFundingGoal] and [withdrawFunds] called by
    anyone else are aborted with "Only owner can call this function",
    whatever the proposal, existing or not, and whatever the other
    arguments. *)
Theorem only_the_deployer_is_owner this_ deployer txs :
  let s := run (constructor this_ deployer) txs in
  owner s = deployer /\
  forall e,
    msg_sender e <> deployer ->
    let refused {A} : result A := Revert "Only owner can call this function" in
    forall j,
      updateProposalStatus e j s = refused /\
      (forall st, forceCloseProposal e j st s = refused) /\
      (forall g, setFundingGoal e j g s = refused) /\
      (forall r, withdrawFunds e j r s = refused).
Proof.
  cbn zeta.
  assert (owner (run (constructor this_ deployer) txs) = deployer) as Ho
    by apply owner_run.
  split; [done|]. intros e He j.
  unfold updateProposalStatus, forceCloseProposal, setFundingGoal,
    withdrawFunds, withdrawFunds_during.
  repeat split; intros; unfold mbind, M_bind, bind;
    rewrite onlyOwner_eval, decide_False by congruence; done.
Qed.

(** X9. [forceCloseProposal], called by the owner on an existing [Active]
    proposal, goes through whatever the tallies and the deadline: the status
    becomes the one asked for, funding is enabled exactly when that status is
    [Accepted] and the goal is positive, tallies and goal stay. When the
    status asked for is [Accepted] or [Declined] the proposal is closed for
    good: a vote and either way of closing it are then refused with "Proposal
    is not active". *)
Theorem forceCloseProposal_overrides e s j newStatus :
  msg_sender e = owner s ->
  id (proposal_at s j) <> 0 ->
  status (proposal_at s j) = Active ->
  let t := {| tx_env := e; tx_call := ForceCloseProposal j newStatus |} in
  let p := proposal_at s j in
  let p' := proposal_at (step s t) j in
  outcome t s = Ok (RetNone, [Emit (ProposalStatusUpdated j newStatus)]) /\
  status p' = newStatus /\
  fundingEnabled p'
    = (if bool_decide (newStatus = Accepted /\ fundingGoal p > 0)
       then true else fundingEnabled p) /\
  yesVotes p' = yesVotes p /\ noVotes p' = noVotes p /\
  fundingGoal p' = fundingGoal p /\
  (newStatus <> Active ->
   forall e2,
     (forall v u, vote e2 j v u (step s t) = Revert "Proposal is not active") /\
     (msg_sender e2 = owner s ->
      updateProposalStatus e2 j (step s t) = Revert "Proposal is not active" /\
      forall st,
        forceCloseProposal e2 j st (step s t)
        = Revert "Proposal is not active")).
Proof.
  intros Ho Hid Hst. cbn zeta.
  pose proof (forceCloseProposal_eval e j newStatus s Ho Hid Hst) as Hf.
  cbn zeta in Hf. unfold outcome, step, commit, exec; cbn [tx_env tx_call].
  rewrite (exec_bind_Ok _ _ _ _ _ _ Hf).
  rewrite proposal_at_set_proposal_eq.
  set (s' := set_proposal j _ s).
  assert (status (proposal_at s' j) = newStatus /\
          id (proposal_at s' j) <> 0 /\ owner s' = owner s) as (Hst' & Hid' & Ho').
  { subst s'. rewrite proposal_at_set_proposal_eq.
    destruct (_ && _); cbn; done. }
  split; [done|]. split; [by destruct (_ && _)|]. split.
  { rewrite Z.gtb_ltb.
    destruct (decide (newStatus = Accepted)) as [Hacc|Hne],
      (Z.ltb_spec 0 (fundingGoal (proposal_at s j)));
      [rewrite (bool_decide_true (newStatus = Accepted)) by done
      |rewrite (bool_decide_true (newStatus = Accepted)) by done
      |rewrite (bool_decide_false (newStatus = Accepted)) by done
      |rewrite (bool_decide_false (newStatus = Accepted)) by done]; cbn;
      [rewrite bool_decide_true by (split; [done|lia])
      |rewrite bool_decide_false by lia
      |rewrite bool_decide_false by (by intros [? _])
      |rewrite bool_decide_false by (by intros [? _])]; done. }
  split; [by destruct (_ && _)|]. split; [by destruct (_ && _)|].
  split; [by destruct (_ && _)|].
  intros Hterm e2.
  assert (status (proposal_at s' j) <> Active) as Hna by congruence.
  unfold vote, updateProposalStatus, forceCloseProposal, proposalActive.
  repeat split; intros; guards; sol_unfold; cbn;
    by rewrite bool_decide_false.
Qed.

(** * Beyond the ledger operations: funds *)

Lemma reachable_run_from s txs : reachable s -> reachable (run s txs).
Proof.
  revert s. induction txs as [|t txs IH]; intros s Hr; [done|].
  cbn [run fold_left]. apply IH. by apply reachable_step.
Qed.

Lemma funding_invariant_reachable s : reachable s -> funding_invariant s.
Proof.
  induction 1; [apply funding_invariant_init|by apply funding_invariant_step].
Qed.

(** A slot that holds no proposal holds nothing at all. *)
Lemma unused_slot_step s t :
  registry_invariant s ->
  (forall j, id (proposal_at s j) = 0 -> proposal_at s j = zero_Proposal) ->
  forall j, id (proposal_at (step s t) j) = 0 ->
            proposal_at (step s t) j = zero_Proposal.
Proof.
  intros [Hc _] Hall.
  destruct (step_cases s t) as [[-> _]|(r & s' & l & Hex & -> & _)]; [done|].
  exec_inv Hex; call_inv Hf; intros j; read_proposal;
    repeat match goal with
           | |- context [if ?b then _ else _] => destruct b
           end; cbn; try (apply Hall); try (intros; congruence); try lia.
Qed.

Lemma unused_slot_reachable s j :
  reachable s -> id (proposal_at s j) = 0 -> proposal_at s j = zero_Proposal.
Proof.
  intros Hr. revert j. induction Hr as [|s t Hr IH]; [done|].
  apply unused_slot_step; [|done]. by apply registry_invariant_reachable.
Qed.

Lemma unfunded_step s t :
  registry_invariant s ->
  (forall j, id (proposal_at s j) = 0 -> proposal_at s j = zero_Proposal) ->
  (forall j, fundingEnabled (proposal_at s j) = false ->
             totalFundsRaised (proposal_at s j) = 0 /\
             proposalDonations_at s j = [] /\
             forall u, userDonationTotal_at s j u = 0) ->
  forall j, fundingEnabled (proposal_at (step s t) j) = false ->
            totalFundsRaised (proposal_at (step s t) j) = 0 /\
            proposalDonations_at (step s t) j = [] /\
            forall u, userDonationTotal_at (step s t) j u = 0.
Proof.
  intros [Hc Hreg] Hzero Hall.
  destruct (step_cases s t) as [[-> _]|(r & s' & l & Hex & -> & _)]; [done|].
  exec_inv Hex; call_inv Hf; intros j; read_proposal;
    rewrite ?proposalDonations_at_set;
    repeat match goal with
           | |- context [if ?b then _ else _] => destruct b eqn:?
           end; cbn; try (apply Hall); try congruence.
  - intros _.
    assert (fundingEnabled (proposal_at s (proposalCounter s + 1)) = false)
      as Hoff.
    { rewrite Hzero; [done|].
      destruct (decide (id (proposal_at s (proposalCounter s + 1)) = 0))
        as [|Hid]; [done|]. apply Hreg in Hid. lia. }
    destruct (Hall _ Hoff) as (_ & ? & Hu).
    split; [done|]. split; [done|].
    intros u. autorewrite with state. apply Hu.
  - intros Hoff. destruct (Hall _ Hoff) as (? & ? & Hu).
    autorewrite with state. split; [done|]. split; [done|].
    intros u. autorewrite with state. rewrite ?userDonationTotal_at_set.
    autorewrite with state.
    destruct (decide (_ = (j, u))) as [Heq|]; [inversion Heq; congruence|].
    apply Hu.
  - intros Hoff. destruct (Hall _ Hoff) as (? & ? & Hu).
    split; [done|]. split; [done|].
    intros u. autorewrite with state. apply Hu.
  - intros Hoff. destruct (Hall _ Hoff) as (? & ? & Hu).
    split; [done|]. split; [done|].
    intros u. autorewrite with state. apply Hu.
Qed.

Lemma unfunded_reachable s j :
  reachable s ->
  fundingEnabled (proposal_at s j) = false ->
  totalFundsRaised (proposal_at s j) = 0 /\
  proposalDonations_at s j = [] /\
  forall u, userDonationTotal_at s j u = 0.
Proof.
  intros Hr. revert j. induction Hr as [|s t Hr IH]; [done|].
  apply unfunded_step; [|by intros; apply unused_slot_reachable|done].
  by apply registry_invariant_reachable.
Qed.

Lemma fundingEnabled_step s t j :
  reachable s ->
  fundingEnabled (proposal_at s j) = true ->
  fundingEnabled (proposal_at (step s t) j) = true.
Proof.
  intros Hr Hon.
  pose proof (registry_invariant_reachable s Hr) as [Hc Hreg].
  assert (id (proposal_at s j) <> 0) as Hid.
  { intros Hz. rewrite (unused_slot_reachable s j Hr Hz) in Hon. done. }
  destruct (step_cases s t) as [[-> _]|(r & s' & l & Hex & -> & _)]; [done|].
  exec_inv Hex; call_inv Hf; read_proposal;
    repeat match goal with
           | |- context [if ?b then _ else _] => destruct b eqn:?
           end; cbn; try done.
  apply Hreg in Hid. lia.
Qed.

(** X10. In every reachable state a proposal whose funding is disabled holds
    no funds and has no donation on record. Funding, once enabled, stays
    enabled through every transaction. And an existing proposal that is
    [Declined] stays so, with its funding disabled and without funds,
    whatever follows. *)
Theorem funding_flag_is_final s j :
  reachable s ->
  (fundingEnabled (proposal_at s j) = false ->
   totalFundsRaised (proposal_at s j) = 0 /\
   proposalDonations_at s j = [] /\
   forall u, userDonationTotal_at s j u = 0) /\
  (fundingEnabled (proposal_at s j) = true ->
   forall txs, fundingEnabled (proposal_at (run s txs) j) = true) /\
  (id (proposal_at s j) <> 0 ->
   status (proposal_at s j) = Declined ->
   forall txs,
     status (proposal_at (run s txs) j) = Declined /\
     fundingEnabled (proposal_at (run s txs) j) = false /\
     totalFundsRaised (proposal_at (run s txs) j) = 0 /\
     proposalDonations_at (run s txs) j = []).
Proof.
  intros Hr. split; [by apply unfunded_reachable|]. split.
  - intros Hon txs. revert s Hr Hon.
    induction txs as [|t txs IH]; intros s Hr Hon; [done|].
    cbn [run fold_left]. apply IH; [by apply reachable_step|].
    by apply fundingEnabled_step.
  - intros Hid Hst txs.
    pose proof (registry_invariant_reachable s Hr) as Hreg.
    destruct (closed_proposal_run s txs j Hreg Hid) as (Hst' & _);
      [congruence|].
    rewrite Hst in Hst'.
    pose proof (reachable_run_from s txs Hr) as Hr'.
    assert (id (proposal_at (run s txs) j) <> 0) as Hid'.
    { rewrite <- metadata_id, (metadata_run s txs j Hreg Hid), metadata_id.
      done. }
    assert (fundingEnabled (proposal_at (run s txs) j) = false) as Hoff.
    { destruct (fundingEnabled (proposal_at (run s txs) j)) eqn:Hf; [|done].
      apply (funding_invariant_reachable _ Hr' j Hid') in Hf. congruence. }
    destruct (unfunded_reachable (run s txs) j Hr' Hoff) as (? & ? & _).
    done.
Qed.

Lemma sum_list_app l k : sum_list (l ++ k) = sum_list l + sum_list k.
Proof.
  unfold sum_list. induction l as [|x l IH]; cbn; [done|]. rewrite IH. lia.
Qed.

Lemma sum_list_ext (f g : Z -> Z) l :
  (forall i, i ∈ l -> g i = f i) -> sum_list (g <$> l) = sum_list (f <$> l).
Proof.
  induction l as [|x l IH]; intros Hfg; [done|].
  cbn [fmap list_fmap]. unfold sum_list in *. cbn [foldr].
  rewrite Hfg by apply list_elem_of_here.
  rewrite IH; [done|]. intros i Hi. apply Hfg. by apply list_elem_of_further.
Qed.

Lemma sum_list_update (f g : Z -> Z) l j :
  NoDup l -> j ∈ l ->
  (forall i, i <> j -> g i = f i) ->
  sum_list (g <$> l) = sum_list (f <$> l) - f j + g j.
Proof.
  intros Hnd Hj Hfg.
  induction l as [|x l IH]; [by apply elem_of_nil in Hj|].
  apply NoDup_cons in Hnd as [Hx Hnd].
  cbn [fmap list_fmap]. unfold sum_list in *. cbn [foldr].
  apply elem_of_cons in Hj as [->|Hj].
  - fold (sum_list (g <$> l)). fold (sum_list (f <$> l)).
    rewrite (sum_list_ext f g l); [lia|].
    intros i Hi. apply Hfg. congruence.
  - rewrite IH by done. rewrite Hfg by congruence. lia.
Qed.

Lemma sum_list_nonneg l : Forall (fun x => 0 <= x) l -> 0 <= sum_list l.
Proof.
  unfold sum_list. induction 1 as [|x l Hx _ IH]; cbn; lia.
Qed.

Lemma sum_list_ge_elem l x :
  Forall (fun y => 0 <= y) l -> x ∈ l -> x <= sum_list l.
Proof.
  unfold sum_list. induction 1 as [|y l Hy Hl IH]; intros Hx.
  - by apply elem_of_nil in Hx.
  - cbn. apply elem_of_cons in Hx as [->|Hx].
    + pose proof (sum_list_nonneg l Hl). unfold sum_list in *. lia.
    + specialize (IH Hx). lia.
Qed.

Lemma escrowed_set_proposal s j p :
  1 <= j <= proposalCounter s ->
  escrowed (set_proposal j p s)
  = escrowed s - totalFundsRaised (proposal_at s j) + totalFundsRaised p.
Proof.
  intros Hj. unfold escrowed. autorewrite with state.
  rewrite (sum_list_update (fun i => totalFundsRaised (proposal_at s i))
             (fun i => totalFundsRaised
                         (proposal_at (set_proposal j p s) i))
             _ j).
  - by rewrite proposal_at_set_proposal_eq.
  - apply NoDup_seqZ.
  - apply elem_of_seqZ. lia.
  - intros i Hi. by rewrite proposal_at_set_proposal_ne.
Qed.

Lemma escrowed_frame s s' :
  proposalCounter s' = proposalCounter s ->
  (forall i, proposal_at s' i = proposal_at s i) ->
  escrowed s' = escrowed s.
Proof.
  intros Hc Hp. unfold escrowed. rewrite Hc.
  apply sum_list_ext. intros i _. by rewrite Hp.
Qed.

Lemma raised_nonneg_step s t :
  registry_invariant s ->
  (forall j, 0 <= totalFundsRaised (proposal_at s j)) ->
  forall j, 0 <= totalFundsRaised (proposal_at (step s t) j).
Proof.
  intros [Hc Hreg] Hall.
  destruct (step_cases s t) as [[-> _]|(r & s' & l & Hex & -> & _)]; [done|].
  exec_inv Hex; call_inv Hf; intros j; read_proposal;
    repeat match goal with
           | |- context [if ?b then _ else _] => destruct b eqn:?
           end; cbn; try apply Hall; try lia.
  all: specialize (Hall j); lia.
Qed.

Lemma raised_nonneg_reachable s j :
  reachable s -> 0 <= totalFundsRaised (proposal_at s j).
Proof.
  intros Hr. revert j. induction Hr as [|s t Hr IH]; [done|].
  apply raised_nonneg_step; [|done]. by apply registry_invariant_reachable.
Qed.

Lemma escrowed_create s p :
  0 <= proposalCounter s ->
  escrowed (set_proposal (proposalCounter s + 1) p
              (set_proposalCounter (proposalCounter s + 1) s))
  = escrowed s + totalFundsRaised p.
Proof.
  intros Hc. unfold escrowed. autorewrite with state.
  rewrite (seqZ_app 1 (proposalCounter s) 1), fmap_app, sum_list_app by lia.
  change (seqZ (1 + proposalCounter s) 1) with [1 + proposalCounter s].
  cbn [fmap list_fmap]. replace (1 + proposalCounter s)
    with (proposalCounter s + 1) by lia.
  rewrite proposal_at_set_proposal_eq. unfold sum_list at 2. cbn [foldr].
  rewrite (sum_list_ext (fun i => totalFundsRaised (proposal_at s i))); [lia|].
  intros i Hi%elem_of_seqZ.
  rewrite proposal_at_set_proposal_ne by lia. by autorewrite with state.
Qed.

(** How a transaction that goes through moves the balance and the funds held
    for the proposals. *)
Lemma balance_escrowed_step s t :
  registry_invariant s ->
  0 <= value_sent t ->
  balance s - escrowed s <= balance (step s t) - escrowed (step s t) /\
  (escrowed s <= balance s -> escrowed (step s t) <= balance (step s t)).
Proof.
  intros [Hc Hreg] Hv.
  destruct (step_cases s t) as [[-> _]|(r & s' & l & Hex & -> & _)]; [lia|].
  exec_inv Hex; cbn [value_sent tx_call] in Hv; call_inv Hf.
  - rewrite escrowed_create by done. autorewrite with state. cbn. lia.
  - rewrite escrowed_set_proposal by (autorewrite with state; apply Hreg; done).
    autorewrite with state.
    rewrite (escrowed_frame s (set_hasVoted _ _ _ _)) by done.
    destruct voteValue; cbn; lia.
  - rewrite escrowed_set_proposal by (apply Hreg; done).
    autorewrite with state. destruct (_ >? _), (_ >? 0); cbn; lia.
  - rewrite escrowed_set_proposal by (apply Hreg; done).
    autorewrite with state. destruct (_ && _); cbn; lia.
  - rewrite escrowed_set_proposal by (apply Hreg; done).
    autorewrite with state. cbn. lia.
  - rewrite escrowed_set_proposal by (autorewrite with state; apply Hreg; done).
    autorewrite with state.
    rewrite (escrowed_frame s (set_userDonationTotal _ _ _ _)) by done.
    cbn. lia.
  - destruct (bool_decide _).
    + rewrite escrowed_set_proposal by (apply Hreg; done).
      autorewrite with state. cbn. lia.
    + rewrite (escrowed_frame
                 (set_proposal proposalId
                    (with_totalFundsRaised 0 (proposal_at s proposalId)) s)
                 (set_balance _ _)) by done.
      rewrite escrowed_set_proposal by (apply Hreg; done).
      autorewrite with state. cbn. lia.
  - rewrite (escrowed_frame s (set_balance _ _)) by done.
    autorewrite with state. lia.
Qed.

Lemma escrow_covered_run this_ deployer txs :
  Forall (fun t => 0 <= value_sent t) txs ->
  escrowed (run (constructor this_ deployer) txs)
  <= balance (run (constructor this_ deployer) txs).
Proof.
  induction txs as [|t txs IH] using rev_ind; intros Hv; [done|].
  apply Forall_app in Hv as [Hv Ht]. rewrite Forall_singleton in Ht.
  rewrite run_snoc.
  refine (proj2 (balance_escrowed_step _ t _ Ht) (IH Hv)).
  apply registry_invariant_reachable, reachable_run.
Qed.

(** X11. Over any run from deployment in which no transaction carries a
    negative value, the balance of the contract covers what the proposals
    hold together. So a withdrawal by the owner from an existing proposal
    that holds funds never fails for want of balance: it goes through
    whenever the recipient accepts the value. *)
Theorem escrow_is_covered this_ deployer txs :
  Forall (fun t => 0 <= value_sent t) txs ->
  let s := run (constructor this_ deployer) txs in
  escrowed s <= balance s /\
  forall e j recipient,
    msg_sender e = deployer ->
    id (proposal_at s j) <> 0 ->
    0 < totalFundsRaised (proposal_at s j) ->
    call_ok e = true ->
    outcome {| tx_env := e; tx_call := WithdrawFunds j recipient |} s
    = Ok (RetNone,
          [Transfer recipient (totalFundsRaised (proposal_at s j));
           Emit (FundsWithdrawn j recipient
                   (totalFundsRaised (proposal_at s j))
                   (block_timestamp e))]).
Proof.
  intros Hv. cbn zeta.
  pose proof (escrow_covered_run this_ deployer txs Hv) as Hcov.
  set (s := run (constructor this_ deployer) txs) in *.
  assert (reachable s) as Hr by apply reachable_run.
  split; [done|]. intros e j recipient Ho Hid Hpos Hok.
  assert (msg_sender e = owner s) as Ho'.
  { subst s. by rewrite owner_run. }
  assert (totalFundsRaised (proposal_at s j) <= escrowed s) as Hle.
  { unfold escrowed. apply sum_list_ge_elem.
    - apply Forall_fmap, Forall_forall. intros i _.
      by apply raised_nonneg_reachable.
    - apply list_elem_of_fmap. exists j. split; [done|].
      apply elem_of_seqZ.
      apply (registry_invariant_reachable s Hr) in Hid. lia. }
  pose proof (withdrawFunds_eval e j recipient s Ho' Hid Hpos) as Hw.
  cbn zeta in Hw.
  assert (transfer_accepted e s recipient
            (totalFundsRaised (proposal_at s j)) = true) as Hacc.
  { unfold transfer_accepted. rewrite Hok, orb_true_r, andb_true_r.
    apply Z.leb_le. lia. }
  rewrite Hacc in Hw.
  unfold outcome, exec; cbn [tx_env tx_call].
  by rewrite (exec_bind_Ok _ (fun _ => RetNone) _ _ _ _ Hw).
Qed.

(** X12. What the contract holds beyond the funds of its proposals never
    shrinks (no transaction carrying a negative value): no call pays it out.
    A plain transfer to the contract is accepted, changes no proposal and
    adds its value to this surplus; and a withdrawal sent to the contract's
    own address clears the funds of the proposal while the balance stays, so
    the amount joins the surplus as well. *)
Theorem surplus_never_leaves s t :
  reachable s ->
  0 <= value_sent t ->
  balance s - escrowed s <= balance (step s t) - escrowed (step s t) /\
  (forall e v,
     t = {| tx_env := e; tx_call := Receive v |} ->
     balance (step s t) = balance s + v /\
     escrowed (step s t) = escrowed s /\
     forall j, proposal_at (step s t) j = proposal_at s j) /\
  (forall e j,
     t = {| tx_env := e; tx_call := WithdrawFunds j (this s) |} ->
     msg_sender e = owner s ->
     id (proposal_at s j) <> 0 ->
     0 < totalFundsRaised (proposal_at s j) <= balance s ->
     balance (step s t) = balance s /\
     totalFundsRaised (proposal_at (step s t) j) = 0 /\
     escrowed (step s t) = escrowed s - totalFundsRaised (proposal_at s j)).
Proof.
  intros Hr Hv.
  pose proof (registry_invariant_reachable s Hr) as Hreg.
  split; [by apply balance_escrowed_step|]. split.
  - intros e v ->. unfold step, commit, exec; cbn.
    split; [done|]. split; [|done]. by apply escrowed_frame.
  - intros e j -> Ho Hid [Hpos Hbal].
    pose proof (withdrawFunds_eval e j (this s) s Ho Hid Hpos) as Hw.
    cbn zeta in Hw. unfold transfer_accepted in Hw.
    rewrite (bool_decide_true (this s = this s)) in Hw by done.
    apply Z.leb_le in Hbal. rewrite Hbal in Hw. cbn in Hw.
    unfold step, commit, exec; cbn [tx_env tx_call].
    rewrite (exec_bind_Ok _ (fun _ => RetNone) _ _ _ _ Hw).
    rewrite proposal_at_set_proposal_eq, escrowed_set_proposal.
    + cbn. repeat split; lia.
    + by apply Hreg.
Qed.

(** * Beyond the ledger operations: what a call needs *)

Lemma string_length_pos (x : string) :
  (Z.of_nat (String.length x) >? 0) = bool_decide (x <> "").
Proof. by destruct x. Qed.

(** X13. [createProposal] goes through exactly when the park name, the park
    id and the creator are not empty, the deadline is strictly after the
    current time and the counter is below its largest value; the description
    may be empty. It is refused with the reason of the first of these that
    fails, in this order, a deadline equal to the current time included. The
    [fundraisingEnabled] flag has no effect at all. *)
Theorem createProposal_requirements e n i d dl ed dm c fe g s :
  (succeeds (createProposal e n i d dl ed dm c fe g) s = true <->
   n <> "" /\ i <> "" /\ c <> "" /\ block_timestamp e < dl /\
   proposalCounter s < uint64_max) /\
  (n = "" ->
   createProposal e n i d dl ed dm c fe g s
   = Revert "Park name cannot be empty") /\
  (n <> "" -> i = "" ->
   createProposal e n i d dl ed dm c fe g s
   = Revert "Park ID cannot be empty") /\
  (n <> "" -> i <> "" -> c = "" ->
   createProposal e n i d dl ed dm c fe g s
   = Revert "Creator account ID cannot be empty") /\
  (n <> "" -> i <> "" -> c <> "" -> dl <= block_timestamp e ->
   createProposal e n i d dl ed dm c fe g s
   = Revert "End date must be in the future") /\
  (n <> "" -> i <> "" -> c <> "" -> block_timestamp e < dl ->
   uint64_max <= proposalCounter s ->
   createProposal e n i d dl ed dm c fe g s = Panic 17) /\
  createProposal e n i d dl ed dm c fe g s
  = createProposal e n i d dl ed dm c (negb fe) g s.
Proof.
  unfold succeeds, createProposal. sol_unfold.
  rewrite !string_length_pos, Z.gtb_ltb. cbn.
  destruct (decide (n = "")) as [->|Hn];
    [|rewrite (bool_decide_true (n <> "")) by done]; cbn.
  { repeat split; try done; by intros (? & _). }
  destruct (decide (i = "")) as [->|Hi];
    [|rewrite (bool_decide_true (i <> "")) by done]; cbn.
  { repeat split; try done; by intros (_ & ? & _). }
  destruct (decide (c = "")) as [->|Hcr];
    [|rewrite (bool_decide_true (c <> "")) by done]; cbn.
  { repeat split; try done; by intros (_ & _ & ? & _). }
  destruct (Z.ltb_spec (block_timestamp e) dl) as [Hd|Hd]; cbn.
  2: { repeat split; try done; try lia; intros (_ & _ & _ & ? & _); lia. }
  destruct (Z.leb_spec (proposalCounter s + 1) uint64_max) as [Hm|Hm]; cbn.
  - repeat split; try done; try lia.
  - repeat split; try done; try lia; intros (_ & _ & _ & _ & ?); lia.
Qed.

(** X14. In every reachable state a donation goes through exactly when
    funding is enabled for the proposal, the value sent is positive and
    neither total overflows. Otherwise the first failing check gives the
    reason: an unknown proposal, then a proposal that is not [Accepted], then
    funding disabled, then a value of zero. *)
Theorem donateToProposal_requirements e v j s :
  reachable s ->
  (succeeds (donateToProposal e v j) s = true <->
   fundingEnabled (proposal_at s j) = true /\ 0 < v /\
   userDonationTotal_at s j (msg_sender e) + v <= uint256_max /\
   totalFundsRaised (proposal_at s j) + v <= uint256_max) /\
  (id (proposal_at s j) = 0 ->
   donateToProposal e v j s = Revert "Proposal does not exist") /\
  (id (proposal_at s j) <> 0 -> status (proposal_at s j) <> Accepted ->
   donateToProposal e v j s = Revert "Proposal not accepted") /\
  (status (proposal_at s j) = Accepted ->
   fundingEnabled (proposal_at s j) = false ->
   donateToProposal e v j s = Revert "Funding not enabled") /\
  (fundingEnabled (proposal_at s j) = true -> v <= 0 ->
   donateToProposal e v j s = Revert "Must send HBAR").
Proof.
  intros Hr.
  assert (fundingEnabled (proposal_at s j) = true ->
          id (proposal_at s j) <> 0 /\ status (proposal_at s j) = Accepted)
    as Hon.
  { intros Hf.
    assert (id (proposal_at s j) <> 0) as Hid.
    { intros Hz. by rewrite (unused_slot_reachable s j Hr Hz) in Hf. }
    split; [done|]. by apply (funding_invariant_reachable s Hr j Hid). }
  assert (status (proposal_at s j) = Accepted -> id (proposal_at s j) <> 0)
    as Hacc.
  { intros Hst Hz. by rewrite (unused_slot_reachable s j Hr Hz) in Hst. }
  split; [|repeat split].
  - unfold succeeds. split.
    + destruct (donateToProposal e v j s) as [[[[] s'] l]| |] eqn:Hd; try done.
      apply donateToProposal_Ok_inv in Hd as (_ & _ & ? & ? & ? & ? & _).
      done.
    + intros (Hf & Hv & Hu & Ht). destruct (Hon Hf) as [Hid Hst].
      destruct (donateToProposal e v j s) as [[[[] s'] l]| |] eqn:Hd;
        [done|exfalso..];
        unfold donateToProposal, receive_value, proposalExists in Hd;
        sol_inv Hd; autorewrite with state in *; guard_contra.
  - intros Hid. unfold donateToProposal, receive_value, modify.
    unfold mbind, M_bind, bind. rewrite proposalExists_eval.
    autorewrite with state. by rewrite decide_True.
  - intros Hid Hst.
    destruct (donateToProposal e v j s) as [[[[] s'] l]|r|c] eqn:Hd.
    + apply donateToProposal_Ok_inv in Hd as (_ & ? & _). done.
    + unfold donateToProposal, receive_value, proposalExists in Hd.
      sol_inv Hd; autorewrite with state in *;
        first [by inversion Hd | guard_contra].
    + unfold donateToProposal, receive_value, proposalExists in Hd.
      sol_inv Hd; autorewrite with state in *; guard_contra.
  - intros Hst Hoff. apply donateToProposal_disabled_reason; auto.
  - intros Hf Hv. destruct (Hon Hf) as [Hid Hst].
    destruct (donateToProposal e v j s) as [[[[] s'] l]|r|c] eqn:Hd.
    + apply donateToProposal_Ok_inv in Hd as (_ & _ & _ & ? & _). lia.
    + unfold donateToProposal, receive_value, proposalExists in Hd.
      sol_inv Hd; autorewrite with state in *;
        first [by inversion Hd | guard_contra].
    + unfold donateToProposal, receive_value, proposalExists in Hd.
      sol_inv Hd; autorewrite with state in *; guard_contra.
Qed.

(** * Beyond the ledger operations: the service in front of the contract *)

Lemma vote_step e s j (v : bool) u :
  id (proposal_at s j) <> 0 ->
  status (proposal_at s j) = Active ->
  hasVoted_at s j u = false ->
  block_timestamp e <= endDate (proposal_at s j) ->
  (if v then yesVotes (proposal_at s j) else noVotes (proposal_at s j)) + 1
    <= uint64_max ->
  let s1 := step s {| tx_env := e; tx_call := Vote j v u |} in
  id (proposal_at s1 j) = id (proposal_at s j) /\
  endDate (proposal_at s1 j) = endDate (proposal_at s j) /\
  status (proposal_at s1 j) = Active /\
  yesVotes (proposal_at s1 j)
    = yesVotes (proposal_at s j) + (if v then 1 else 0) /\
  noVotes (proposal_at s1 j)
    = noVotes (proposal_at s j) + (if v then 0 else 1) /\
  (forall u', hasVoted_at s1 j u'
              = if decide (u' = u) then true else hasVoted_at s j u') /\
  (forall u', userVotes_at s1 j u'
              = if decide (u' = u) then v else userVotes_at s j u').
Proof.
  intros Hid Hst Hnv Hd Hmax. cbn zeta.
  destruct (vote_eval e j v u s) as [s' Hv]; try done.
  unfold step, commit, exec; cbn [tx_env tx_call].
  rewrite (exec_bind_Ok _ _ _ _ _ _ Hv).
  apply vote_Ok_inv in Hv as (_ & _ & _ & _ & _ & _ & ->).
  rewrite proposal_at_set_proposal_eq.
  repeat split; try (destruct v; cbn; first [done | lia]).
  - intros u'. autorewrite with state. rewrite hasVoted_at_set_hasVoted.
    autorewrite with state.
    destruct (decide ((j, u) = (j, u'))) as [Heq|Hne], (decide (u' = u));
      try done; [by inversion Heq|by subst].
  - intros u'. autorewrite with state. rewrite userVotes_at_set_userVotes.
    destruct (decide ((j, u) = (j, u'))) as [Heq|Hne], (decide (u' = u));
      try done; [by inversion Heq|by subst].
Qed.

Lemma votes_for_run e j (v : bool) us : forall s,
  id (proposal_at s j) <> 0 ->
  status (proposal_at s j) = Active ->
  block_timestamp e <= endDate (proposal_at s j) ->
  NoDup us ->
  Forall (fun u => hasVoted_at s j u = false) us ->
  (if v then yesVotes (proposal_at s j) else noVotes (proposal_at s j))
    + Z.of_nat (length us) <= uint64_max ->
  let s' := run s (votes_for e j v us) in
  let n := Z.of_nat (length us) in
  id (proposal_at s' j) = id (proposal_at s j) /\
  status (proposal_at s' j) = Active /\
  yesVotes (proposal_at s' j)
    = yesVotes (proposal_at s j) + (if v then n else 0) /\
  noVotes (proposal_at s' j)
    = noVotes (proposal_at s j) + (if v then 0 else n) /\
  (forall u, u ∈ us ->
     hasVoted_at s' j u = true /\ userVotes_at s' j u = v) /\
  (forall u, u ∉ us ->
     hasVoted_at s' j u = hasVoted_at s j u /\
     userVotes_at s' j u = userVotes_at s j u).
Proof.
  induction us as [|u us IH]; intros s Hid Hst Hd Hnd Hfa Hmax; cbn zeta.
  { cbn. split; [done|]. split; [done|].
    split; [destruct v; lia|]. split; [destruct v; lia|].
    split; [|done]. intros u' Hu'. by apply elem_of_nil in Hu'. }
  apply NoDup_cons in Hnd as [Hu Hnd].
  apply Forall_cons in Hfa as [Hnv Hfa].
  rewrite length_cons, Nat2Z.inj_succ in *.
  assert ((if v then yesVotes (proposal_at s j) else noVotes (proposal_at s j))
          + 1 <= uint64_max) as Hone by lia.
  pose proof (vote_step e s j v u Hid Hst Hnv Hd Hone) as Hs1.
  cbn zeta in Hs1.
  unfold votes_for. cbn [fmap list_fmap run fold_left].
  fold (votes_for e j v us).
  set (s1 := step s _) in *. fold (run s1 (votes_for e j v us)).
  destruct Hs1 as (Hid1 & Hd1 & Hst1 & Hy1 & Hn1 & Hhv1 & Huv1).
  destruct (IH s1) as (Hid' & Hst' & Hy' & Hn' & Hin' & Hout'); try done.
  - congruence.
  - lia.
  - apply Forall_forall. intros u' Hu'. rewrite Hhv1.
    rewrite decide_False by (intros ->; done).
    by apply (proj1 (Forall_forall _ _) Hfa).
  - destruct v; lia.
  - cbn zeta in *. split; [congruence|]. split; [done|].
    split; [destruct v; lia|]. split; [destruct v; lia|]. split.
    + intros u' Hu'. apply elem_of_cons in Hu' as [->|Hu'].
      * destruct (Hout' u Hu) as [-> ->]. rewrite Hhv1, Huv1.
        by rewrite !decide_True.
      * by apply Hin'.
    + intros u' Hu'. apply not_elem_of_cons in Hu' as [Hne Hu'].
      destruct (Hout' u' Hu') as [-> ->]. rewrite Hhv1, Huv1.
      by rewrite !decide_False.
Qed.

(** X15. [vote] takes the voter as an argument and never looks at who calls:
    one sender can cast the votes of any number of addresses that have not
    voted, on an open proposal and up to the room left in the tally. Each of
    them counts, the records of these addresses say that they voted so, and
    their own later votes, whoever sends them, are refused with "User has
    already voted". The records of every other address stay as they were. *)
Theorem one_sender_can_cast_every_vote e s j (v : bool) us :
  id (proposal_at s j) <> 0 ->
  status (proposal_at s j) = Active ->
  block_timestamp e <= endDate (proposal_at s j) ->
  NoDup us ->
  Forall (fun u => hasVoted_at s j u = false) us ->
  (if v then yesVotes (proposal_at s j) else noVotes (proposal_at s j))
    + Z.of_nat (length us) <= uint64_max ->
  let s' := run s (votes_for e j v us) in
  let n := Z.of_nat (length us) in
  yesVotes (proposal_at s' j)
    = yesVotes (proposal_at s j) + (if v then n else 0) /\
  noVotes (proposal_at s' j)
    = noVotes (proposal_at s j) + (if v then 0 else n) /\
  status (proposal_at s' j) = Active /\
  (forall u, u ∈ us ->
     view (getUserVote j u) s' = Ok (v, true) /\
     forall e' v', vote e' j v' u s' = Revert "User has already voted") /\
  (forall u, u ∉ us ->
     hasVoted_at s' j u = hasVoted_at s j u /\
     userVotes_at s' j u = userVotes_at s j u).
Proof.
  intros Hid Hst Hd Hnd Hfa Hmax.
  destruct (votes_for_run e j v us s Hid Hst Hd Hnd Hfa Hmax)
    as (Hid' & Hst' & Hy & Hn & Hin & Hout).
  cbn zeta in *. rewrite <- Hid' in Hid.
  split; [done|]. split; [done|]. split; [done|]. split; [|done].
  intros u Hu. destruct (Hin u Hu) as [Hhv Huv]. split.
  - unfold getUserVote. guards. sol_unfold; cbn. by rewrite Hhv, Huv.
  - intros e' v'. unfold vote, proposalActive, hasNotVoted. guards.
    sol_unfold; cbn. rewrite bool_decide_true by done. cbn. by rewrite Hhv.
Qed.

(** X16. When the service closes an existing [Active] proposal as the owner,
    with tallies and deadline within the numbers it reads without loss and
    nothing coming between its reading of the proposal and its call, the
    result does not depend on which function it picks: the proposal gets
    the status that the tallies decide, [Accepted] for more yes than no and
    [Declined] otherwise, with funding enabled for an accepted proposal with
    a positive goal. Before the deadline by its own clock the service forces
    this and the call goes through; after it, [updateProposalStatus] goes
    through once the ledger's time is past the deadline as well, and is
    refused with "Voting period has not ended" until then. For a proposal
    that does not exist nothing is sent. *)
Theorem closeProposal_closes_by_the_tallies e now s j :
  (id (proposal_at s j) = 0 <-> closeProposal e now j s = None) /\
  (msg_sender e = owner s ->
   id (proposal_at s j) <> 0 ->
   status (proposal_at s j) = Active ->
   js_exact (yesVotes (proposal_at s j)) ->
   js_exact (noVotes (proposal_at s j)) ->
   js_exact (endDate (proposal_at s j) * 1000) ->
   let p := proposal_at s j in
   let decided := if yesVotes p >? noVotes p then Accepted else Declined in
   let closed :=
     set_proposal j
       (with_status decided
          (if (yesVotes p >? noVotes p) && (fundingGoal p >? 0)
           then with_fundingEnabled true p else p)) s in
   exists t,
     closeProposal e now j s = Some t /\
     (now <= endDate p * 1000 \/ endDate p < block_timestamp e ->
      exec t s
      = Ok (RetNone, closed, [Emit (ProposalStatusUpdated j decided)])) /\
     (endDate p * 1000 < now -> block_timestamp e <= endDate p ->
      exec t s = Revert "Voting period has not ended" /\ step s t = s)).
Proof.
  split.
  { unfold closeProposal, view, getProposal. sol_unfold.
    rewrite proposalExists_eval.
    destruct (decide (id (proposal_at s j) = 0)); cbn; split; done. }
  intros Ho Hid Hst _ _ _. cbn zeta.
  unfold closeProposal, view, getProposal. sol_unfold.
  rewrite proposalExists_eval, decide_False by done. cbn.
  eexists. split; [done|].
  destruct (Z.gtb_spec now (endDate (proposal_at s j) * 1000)) as [Hlate|Hearly].
  - assert (forall r, updateProposalStatus e j s = r ->
              exec {| tx_env := e; tx_call := UpdateProposalStatus j |} s
              = match r with
                | Ok (_, s', l) => Ok (RetNone, s', l)
                | Revert x => Revert x
                | Panic c => Panic c
                end) as Hexec.
    { intros r <-. unfold exec; cbn [tx_env tx_call].
      destruct (updateProposalStatus e j s) as [[[[] s'] l]|x|c] eqn:Hu.
      - by rewrite (exec_bind_Ok _ _ _ _ _ _ Hu).
      - by rewrite (exec_bind_Revert _ _ _ _ Hu).
      - by rewrite (exec_bind_Panic _ _ _ _ Hu). }
    split.
    + intros [Hno|Hpast]; [lia|].
      by rewrite (Hexec _ (updateProposalStatus_eval e j s Ho Hid Hst Hpast)).
    + intros _ Hnot.
      assert (updateProposalStatus e j s = Revert "Voting period has not ended")
        as Hu.
      { unfold updateProposalStatus, proposalActive. guards. sol_unfold; cbn.
        rewrite bool_decide_true by done. cbn.
        destruct (Z.gtb_spec (block_timestamp e) (endDate (proposal_at s j)));
          [lia|done]. }
      unfold step, commit. by rewrite (Hexec _ Hu).
  - split; [|intros; lia]. intros _.
    unfold exec; cbn [tx_env tx_call].
    rewrite (exec_bind_Ok _ _ _ _ _ _
               (forceCloseProposal_eval e j _ s Ho Hid Hst)).
    do 3 f_equal. f_equal.
    destruct (yesVotes (proposal_at s j) >? noVotes (proposal_at s j));
      [rewrite bool_decide_true by done|rewrite bool_decide_false by done];
      cbn; [|done].
    destruct (fundingGoal (proposal_at s j) >? 0); [|done].
    by destruct (proposal_at s j).
Qed.

(** X17. A transaction of anyone but the owner, carrying no negative value,
    leaves the status, the funding goal and the funding flag of every
    existing proposal as they were, takes nothing from its funds or from the
    balance of the contract, and pays nothing out: all that a stranger can
    add to a proposal is a vote or a donation. *)
Theorem strangers_neither_close_nor_withdraw s t j :
  reachable s ->
  id (proposal_at s j) <> 0 ->
  msg_sender (tx_env t) <> owner s ->
  0 <= value_sent t ->
  let p := proposal_at s j in
  let p' := proposal_at (step s t) j in
  status p' = status p /\
  fundingGoal p' = fundingGoal p /\
  fundingEnabled p' = fundingEnabled p /\
  metadata p' = metadata p /\
  totalFundsRaised p <= totalFundsRaised p' /\
  balance s <= balance (step s t) /\
  forall r l, outcome t s = Ok (r, l) -> transferred l = 0.
Proof.
  intros Hr Hid Hno Hval. cbn zeta.
  pose proof (registry_invariant_reachable s Hr) as [Hc Hreg].
  destruct (step_cases s t) as [[-> Hfail]|(r & s' & l & Hex & -> & Hout)].
  { repeat split; try done; try lia. intros r l Hout. by destruct (Hfail (r, l)). }
  rewrite Hout.
  exec_inv Hex; cbn [tx_env msg_sender] in Hno; call_inv Hf; try done;
    unfold value_sent in Hval; cbn [tx_call] in Hval.
  all: repeat split;
    try (intros r0 l0 Heq; inversion Heq; subst; done);
    read_proposal; autorewrite with state;
    repeat match goal with
           | |- context [if ?b then _ else _] => destruct b eqn:?
           end; cbn; try done; try lia.
  all: try (apply Hreg in Hid; lia).
Qed.

(** * Calls back into the contract during a withdrawal *)

Lemma Nested_forall_ind (P : Nested -> Prop) :
  (forall sender c call_backs accepts,
     Forall P call_backs -> P (NestedCall sender c call_backs accepts)) ->
  forall n, P n.
Proof.
  intros H. fix IH 1. intros [sender c call_backs accepts]. apply H.
  induction call_backs as [|n' l' IHl]; constructor; [apply IH|apply IHl].
Qed.

Lemma exec_nested_withdrawFunds now sender proposalId recipient call_backs
    accepts :
  exec_nested now
    (NestedCall sender (WithdrawFunds proposalId recipient) call_backs accepts)
  = (withdrawFunds_during (call_back now call_backs)
       {| msg_sender := sender; block_timestamp := now; call_ok := accepts |}
       proposalId recipient;;
     mret RetNone).
Proof.
  cbn [exec_nested]. do 2 f_equal.
  induction call_backs as [|n' l' IH]; [done|]. cbn [call_back]. by rewrite IH.
Qed.

Lemma exec_nested_plain now sender c accepts :
  exec_nested now (NestedCall sender c [] accepts)
  = exec {| tx_env := {| msg_sender := sender; block_timestamp := now;
                        call_ok := accepts |};
            tx_call := c |}.
Proof. by destruct c. Qed.

(** The code of a recipient always comes to its end, and leaves the state
    that its calls leave one after the other. *)
Lemma call_back_Ok now l s :
  exists l', call_back now l s = Ok (tt, fold_left (step_nested now) l s, l').
Proof.
  revert s. induction l as [|n l IH]; intros s; cbn [call_back fold_left].
  { by exists []. }
  unfold step_nested at 2, commit, attempt. sol_unfold.
  destruct (exec_nested now n s) as [[[r s1] l1]|r|c];
    destruct (IH s1) as [l2 H2] || destruct (IH s) as [l2 H2];
    rewrite H2; by eexists.
Qed.

(** [withdrawFunds_during], check by check. *)
Lemma withdrawFunds_during_eval code e pid recipient s :
  let p := proposal_at s pid in
  let zeroed := set_proposal pid (with_totalFundsRaised 0 p) s in
  let done_ l :=
    Transfer recipient (totalFundsRaised p) :: l ++
    [Emit (FundsWithdrawn pid recipient (totalFundsRaised p)
             (block_timestamp e))] in
  withdrawFunds_during code e pid recipient s =
    if decide (msg_sender e = owner s) then
      if decide (id p = 0) then Revert "Proposal does not exist"
      else if decide (0 < totalFundsRaised p) then
        if decide (totalFundsRaised p <= balance s) then
          if decide (recipient = this s) then Ok (tt, zeroed, done_ [])
          else
            match code (set_balance (balance s - totalFundsRaised p) zeroed)
            with
            | Ok (_, s', l) =>
                if call_ok e then Ok (tt, s', done_ l)
                else Revert "Transfer failed"
            | _ => Revert "Transfer failed"
            end
        else Revert "Transfer failed"
      else Revert "No funds to withdraw"
    else Revert "Only owner can call this function".
Proof.
  cbn zeta. unfold withdrawFunds_during. unfold mbind at 1, M_bind, bind.
  rewrite onlyOwner_eval. destruct (decide (msg_sender e = owner s)); [|done].
  cbn. unfold mbind at 1, M_bind, bind. rewrite proposalExists_eval.
  destruct (decide (id (proposal_at s pid) = 0)); [done|].
  unfold call_value. sol_unfold. cbn.
  destruct (decide (0 < totalFundsRaised (proposal_at s pid))) as [Hpos|Hpos];
    [|by destruct (Z.gtb_spec (totalFundsRaised (proposal_at s pid)) 0);
        [lia|]].
  destruct (Z.gtb_spec (totalFundsRaised (proposal_at s pid)) 0); [|lia]. cbn.
  replace (balance (set_proposal pid
             (with_totalFundsRaised 0 (proposal_at s pid)) s))
    with (balance s) by (by destruct s).
  replace (this (set_proposal pid
             (with_totalFundsRaised 0 (proposal_at s pid)) s))
    with (this s) by (by destruct s).
  destruct (decide (totalFundsRaised (proposal_at s pid) <= balance s));
    [|by destruct (Z.leb_spec (totalFundsRaised (proposal_at s pid))
                     (balance s)); [lia|]].
  destruct (Z.leb_spec (totalFundsRaised (proposal_at s pid)) (balance s));
    [|lia].
  destruct (decide (recipient = this s));
    [by rewrite bool_decide_true|rewrite bool_decide_false by done].
  destruct (code _) as [[[[] s1] l1]|r1|c1]; cbn; [|done..].
  by destruct (call_ok e).
Qed.

(** The state in which the code of the recipient runs is the state after the
    same withdrawal to a recipient that only takes the value. *)
Lemma withdrawFunds_paid sender now pid recipient s :
  sender = owner s ->
  id (proposal_at s pid) <> 0 ->
  0 < totalFundsRaised (proposal_at s pid) <= balance s ->
  step s {| tx_env := {| msg_sender := sender; block_timestamp := now;
                         call_ok := true |};
            tx_call := WithdrawFunds pid recipient |}
  = (if bool_decide (recipient = this s) then (fun x => x)
     else set_balance (balance s - totalFundsRaised (proposal_at s pid)))
      (set_proposal pid (with_totalFundsRaised 0 (proposal_at s pid)) s).
Proof.
  intros Ho Hid [Hpos Hbal].
  unfold step, commit, exec; cbn [tx_env tx_call].
  set (paying := {| msg_sender := sender; block_timestamp := now;
                    call_ok := true |}).
  pose proof (withdrawFunds_eval paying pid recipient s Ho Hid Hpos) as Hw.
  cbn zeta in Hw. unfold transfer_accepted in Hw. cbn [call_ok paying] in Hw.
  rewrite orb_true_r, andb_true_r in Hw.
  destruct (Z.leb_spec (totalFundsRaised (proposal_at s pid)) (balance s));
    [|lia].
  by rewrite (exec_bind_Ok _ _ _ _ _ _ Hw).
Qed.

(** A call with its calls back leaves a state that the transactions of the
    contract, taken one by one without calls back, reach as well: each of
    them one of the calls made. *)
Lemma nested_is_run now n : forall s,
  exists txs, step_nested now s n = run s txs /\
              Forall (fun t => tx_call t ∈ calls_of n) txs.
Proof.
  induction n as [sender c call_backs accepts IH] using Nested_forall_ind.
  intros s.
  assert (forall s1, exists txs,
            fold_left (step_nested now) call_backs s1 = run s1 txs /\
            Forall (fun t => tx_call t ∈ calls_of_all call_backs) txs)
    as Hall.
  { clear s. induction call_backs as [|n l IHl]; intros s1.
    { by exists []. }
    apply Forall_cons in IH as [Hn Hl].
    destruct (Hn s1) as (txs1 & E1 & H1).
    destruct (IHl Hl (run s1 txs1)) as (txs2 & H2 & H3).
    exists (txs1 ++ txs2). cbn [fold_left calls_of_all]. split.
    - rewrite E1, H2. unfold run. by rewrite fold_left_app.
    - apply Forall_app. split;
        (eapply Forall_impl; [eassumption|]); intros t Ht; cbn in Ht;
        apply elem_of_app; first [by left | by right]. }
  assert (calls_of (NestedCall sender c call_backs accepts)
          = c :: calls_of_all call_backs) as Hcalls.
  { reflexivity. }
  rewrite Hcalls. clear IH Hcalls.
  set (e := {| msg_sender := sender; block_timestamp := now;
               call_ok := accepts |}).
  assert (forall c', c' = c ->
            exists txs,
              step s {| tx_env := e; tx_call := c' |} = run s txs /\
              Forall (fun t => tx_call t ∈ c :: calls_of_all call_backs) txs)
    as Hplain.
  { intros c' ->. exists [{| tx_env := e; tx_call := c |}]. split; [done|].
    apply Forall_singleton. cbn. apply elem_of_cons. by left. }
  destruct c; try (by apply Hplain).
  clear Hplain. unfold step_nested, commit.
  rewrite exec_nested_withdrawFunds. fold e.
  unfold mbind at 1, M_bind, bind.
  rewrite withdrawFunds_during_eval. cbn zeta.
  destruct (decide (msg_sender e = owner s)) as [Ho|]; [|by exists []].
  destruct (decide (id (proposal_at s proposalId) = 0)); [by exists []|].
  destruct (decide (0 < totalFundsRaised (proposal_at s proposalId)));
    [|by exists []].
  destruct (decide (totalFundsRaised (proposal_at s proposalId) <= balance s))
    as [Hbal|]; [|by exists []].
  set (paying := {| msg_sender := sender; block_timestamp := now;
                    call_ok := true |}).
  set (t := {| tx_env := paying;
               tx_call := WithdrawFunds proposalId recipient |}).
  pose proof (withdrawFunds_paid sender now proposalId recipient s Ho
                ltac:(done) ltac:(done)) as Hpaid.
  fold paying t in Hpaid.
  assert (tx_call t ∈ WithdrawFunds proposalId recipient
                        :: calls_of_all call_backs) as Ht
    by (apply elem_of_cons; left; reflexivity).
  destruct (decide (recipient = this s)) as [Hself|Hother].
  { cbn. exists [t]. rewrite bool_decide_true in Hpaid by done.
    split; [by cbn; rewrite Hpaid|by apply Forall_singleton]. }
  rewrite bool_decide_false in Hpaid by done. rewrite <- Hpaid.
  destruct (call_back_Ok now call_backs (step s t)) as [l' ->].
  destruct accepts; cbn; [|by exists []].
  destruct (Hall (step s t)) as (txs & -> & Htxs).
  exists (t :: txs). split; [done|]. apply Forall_cons. split; [done|].
  eapply Forall_impl; [eassumption|]. intros t' Ht'. cbn in Ht'.
  apply elem_of_cons. by right.
Qed.

Lemma call_backs_are_run now l : forall s,
  exists txs, fold_left (step_nested now) l s = run s txs /\
              Forall (fun t => tx_call t ∈ calls_of_all l) txs.
Proof.
  induction l as [|n l IH]; intros s.
  { by exists []. }
  destruct (nested_is_run now n s) as (txs1 & H1 & H2).
  destruct (IH (run s txs1)) as (txs2 & H3 & H4).
  exists (txs1 ++ txs2). cbn [fold_left calls_of_all]. rewrite H1. split.
  - rewrite H3. unfold run. by rewrite fold_left_app.
  - apply Forall_app. split;
      (eapply Forall_impl; [eassumption|]); intros t Ht; cbn in Ht;
      apply elem_of_app; first [by left | by right].
Qed.

(** Calls back add no state: what holds in every reachable state holds as
    well after a call that was called back into. *)
Lemma step_nested_reachable now s n :
  reachable s -> reachable (step_nested now s n).
Proof.
  intros Hr. destruct (nested_is_run now n s) as (txs & -> & _).
  by apply reachable_run_from.
Qed.

(** Funds that are not there come from a donation only. *)
Lemma no_funds_step s t j :
  totalFundsRaised (proposal_at s j) = 0 ->
  donation_to j (tx_call t) = false ->
  totalFundsRaised (proposal_at (step s t) j) = 0.
Proof.
  intros Hz Hnd.
  destruct (step_cases s t) as [[-> _]|(r & s' & l & Hex & -> & _)]; [done|].
  exec_inv Hex; cbn [tx_call donation_to] in Hnd; call_inv Hf; read_proposal;
    repeat match goal with
           | |- context [if ?b then _ else _] => destruct b
           end; cbn; try done.
  by rewrite bool_decide_true in Hnd.
Qed.

Lemma no_funds_run s txs j :
  totalFundsRaised (proposal_at s j) = 0 ->
  Forall (fun t => donation_to j (tx_call t) = false) txs ->
  totalFundsRaised (proposal_at (run s txs) j) = 0.
Proof.
  revert s. induction txs as [|t txs IH]; intros s Hz Hnd; [done|].
  apply Forall_cons in Hnd as [Ht Hnd].
  cbn [run fold_left]. apply IH; [|done]. by apply no_funds_step.
Qed.

Lemma exists_run s txs j :
  reachable s ->
  id (proposal_at s j) <> 0 -> id (proposal_at (run s txs) j) <> 0.
Proof.
  intros Hr Hid.
  by rewrite <- metadata_id, metadata_run, metadata_id
    by (done || by apply registry_invariant_reachable).
Qed.

(** A withdrawal from a proposal without funds is refused, whoever asks and
    whatever the recipient would do, and changes nothing. *)
Lemma withdrawFunds_during_no_funds code e pid recipient s :
  id (proposal_at s pid) <> 0 ->
  totalFundsRaised (proposal_at s pid) = 0 ->
  (msg_sender e = owner s ->
   withdrawFunds_during code e pid recipient s = Revert "No funds to withdraw")
  /\ succeeds (withdrawFunds_during code e pid recipient) s = false
  /\ commit (withdrawFunds_during code e pid recipient) s = s.
Proof.
  intros Hid Hz. unfold succeeds, commit.
  rewrite withdrawFunds_during_eval. cbn zeta. rewrite Hz.
  destruct (decide (msg_sender e = owner s)); [|done].
  rewrite decide_False by done. rewrite decide_False by lia. done.
Qed.

(** C1. When the owner withdraws from an existing proposal that has raised
    something, either the value call goes through, and then exactly the
    amount raised so far is sent to the recipient, with [totalFundsRaised]
    at 0 when the code of the recipient starts: what the proposal holds after
    the withdrawal is what the calls of that code have left, which is 0 when
    none of them is a donation to the proposal, and with 0 a withdrawal that
    follows immediately is refused and changes nothing; or the value call
    fails, and then the withdrawal is aborted with the state, the amount
    raised included, as it was, the calls of the recipient undone. *)
Theorem withdrawFunds_all_or_nothing e s proposalId recipient call_backs :
  reachable s ->
  msg_sender e = owner s ->
  id (proposal_at s proposalId) <> 0 ->
  0 < totalFundsRaised (proposal_at s proposalId) ->
  let now := block_timestamp e in
  let amount_ := totalFundsRaised (proposal_at s proposalId) in
  let w :=
    withdrawFunds_during (call_back now call_backs) e proposalId recipient in
  let paid :=
    (if bool_decide (recipient = this s) then (fun x => x)
     else set_balance (balance s - amount_))
      (set_proposal proposalId
         (with_totalFundsRaised 0 (proposal_at s proposalId)) s) in
  (transfer_accepted e s recipient amount_ = true ->
   exists s' l,
     w s = Ok (tt, s',
               Transfer recipient amount_ :: l ++
               [Emit (FundsWithdrawn proposalId recipient amount_ now)]) /\
     totalFundsRaised (proposal_at paid proposalId) = 0 /\
     (if bool_decide (recipient = this s) then s' = paid /\ l = []
      else call_back now call_backs paid = Ok (tt, s', l)) /\
     (recipient = this s \/
      Forall (fun c => donation_to proposalId c = false)
        (calls_of_all call_backs) ->
      totalFundsRaised (proposal_at s' proposalId) = 0) /\
     (totalFundsRaised (proposal_at s' proposalId) = 0 ->
      forall e2 recipient2 call_backs2,
        let w2 :=
          withdrawFunds_during (call_back (block_timestamp e2) call_backs2)
            e2 proposalId recipient2 in
        (msg_sender e2 = owner s ->
         w2 s' = Revert "No funds to withdraw") /\
        succeeds w2 s' = false /\
        commit w2 s' = s')) /\
  (transfer_accepted e s recipient amount_ = false ->
   w s = Revert "Transfer failed" /\ commit w s = s).
Proof.
  intros Hr Ho Hid Hpos. cbn zeta. unfold commit.
  rewrite withdrawFunds_during_eval. cbn zeta.
  rewrite (decide_True _ _ Ho), (decide_False _ _ Hid), (decide_True _ _ Hpos).
  unfold transfer_accepted.
  set (amount_ := totalFundsRaised (proposal_at s proposalId)) in *.
  set (zeroed := set_proposal proposalId
                   (with_totalFundsRaised 0 (proposal_at s proposalId)) s).
  destruct (Z.leb_spec amount_ (balance s)) as [Hbal|Hbal];
    [rewrite (decide_True _ _ Hbal)|rewrite decide_False by lia];
    cbn [andb]; [|by split].
  pose proof (withdrawFunds_paid (msg_sender e) (block_timestamp e)
                proposalId recipient s Ho Hid (conj Hpos Hbal)) as Hpaid.
  fold amount_ zeroed in Hpaid.
  set (paid := (if bool_decide (recipient = this s) then (fun x => x)
                else set_balance (balance s - amount_)) zeroed) in *.
  assert (reachable paid) as Hrp by (rewrite <- Hpaid; by apply reachable_step).
  assert (owner paid = owner s) as Hop by (by rewrite <- Hpaid, owner_step).
  assert (id (proposal_at paid proposalId) <> 0
          /\ totalFundsRaised (proposal_at paid proposalId) = 0)
    as [Hidp Hzp].
  { subst paid zeroed. destruct (bool_decide _); autorewrite with state;
      by rewrite proposal_at_set_proposal_eq. }
  assert (forall s', owner s' = owner s ->
            id (proposal_at s' proposalId) <> 0 ->
            totalFundsRaised (proposal_at s' proposalId) = 0 ->
            forall e2 recipient2 call_backs2,
              (msg_sender e2 = owner s ->
               withdrawFunds_during
                 (call_back (block_timestamp e2) call_backs2) e2 proposalId
                 recipient2 s' = Revert "No funds to withdraw") /\
              succeeds
                (withdrawFunds_during
                   (call_back (block_timestamp e2) call_backs2) e2 proposalId
                   recipient2) s' = false /\
              match
                withdrawFunds_during
                  (call_back (block_timestamp e2) call_backs2) e2 proposalId
                  recipient2 s'
              with
              | Ok (_, s2, _) => s2
              | _ => s'
              end = s') as Hagain.
  { intros s' Ho' Hid' Hz' e2 recipient2 call_backs2.
    rewrite <- Ho'.
    apply (withdrawFunds_during_no_funds _ e2 proposalId recipient2 s'
             Hid' Hz'). }
  destruct (decide (recipient = this s)) as [Hself|Hother].
  - assert (paid = zeroed) as Hp
      by (subst paid; by rewrite (bool_decide_true _ Hself)).
    rewrite (bool_decide_true _ Hself). cbn [orb].
    split; [|done]. intros _. exists paid, []. cbn [app]. rewrite Hp at 1.
    split; [done|]. split; [done|]. split; [done|]. split; [done|].
    intros _. by apply Hagain.
  - assert (paid = set_balance (balance s - amount_) zeroed) as Hp
      by (subst paid; by rewrite (bool_decide_false _ Hother)).
    rewrite (bool_decide_false _ Hother). cbn [orb].
    destruct (call_back_Ok (block_timestamp e) call_backs paid) as [l Hcb].
    rewrite <- Hp, Hcb.
    destruct (call_backs_are_run (block_timestamp e) call_backs paid)
      as (txs & Hrun & Hcalls).
    rewrite Hrun in *.
    split; [|intros ->; by split]. intros ->.
    exists (run paid txs), l.
    split; [done|]. split; [done|]. split; [done|]. split.
    + intros [Hself|Hnone]; [done|].
      apply no_funds_run; [done|].
      apply Forall_forall. intros t Ht.
      apply (proj1 (Forall_forall _ _) Hnone).
      by apply (proj1 (Forall_forall _ _) Hcalls).
    + intros Hz. apply Hagain; [|by apply exists_run|done].
      by rewrite owner_run.
Qed.

(** * The further scenarios, checked *)

Example three_parks_lists :
  view getAllActiveProposals three_parks = Ok [3] /\
  view getAllAcceptedProposals three_parks = Ok [1] /\
  view getAllRejectedProposals three_parks = Ok [2] /\
  view getAllClosedProposals three_parks = Ok [1; 2] /\
  view getAllActiveProposals deployed = Ok [].
Proof. vm_compute. repeat split. Qed.

Lemma getAllActiveProposals_lists_active_witness :
  getAllActiveProposals three_parks = Ok ([3], three_parks, []).
Proof.
  assert (proposalCounter three_parks < uint64_max) as H1
    by (vm_compute; reflexivity).
  exact (proj1 (getAllActiveProposals_lists_active three_parks H1)).
Defined.

Lemma closed_proposals_partition_witness :
  getAllClosedProposals three_parks = Ok ([1; 2], three_parks, []) /\
  [3] ++ [1; 2] ≡ₚ seqZ 1 3.
Proof.
  assert (proposalCounter three_parks < uint64_max) as H1
    by (vm_compute; reflexivity).
  pose proof (closed_proposals_partition three_parks H1)
    as (_ & _ & Hclosed & _ & _ & _ & _ & Hall).
  split; [exact Hclosed | exact Hall].
Defined.

Lemma proposals_exist_from_one_to_counter_witness :
  view (getProposal 2) three_parks = Ok (proposal_at three_parks 2) /\
  view (getProposal 4) three_parks = Revert "Proposal does not exist" /\
  view (getVoteCounts 0) three_parks = Revert "Proposal does not exist".
Proof.
  assert (reachable three_parks) as Hr by apply reachable_run.
  assert (proposalCounter three_parks = 3) as Hc by (vm_compute; reflexivity).
  split; [|split].
  - assert (1 <= 2 <= proposalCounter three_parks) as Hj by lia.
    exact (proj1 (proj2 (proj1 (proposals_exist_from_one_to_counter
                                  three_parks 2 Hr) Hj))).
  - assert (~ 1 <= 4 <= proposalCounter three_parks) as Hj by lia.
    exact (proj1 (proj2 (proposals_exist_from_one_to_counter
                           three_parks 4 Hr) Hj)).
  - assert (~ 1 <= 0 <= proposalCounter three_parks) as Hj by lia.
    exact (proj1 (proj2 (proj2 (proposals_exist_from_one_to_counter
                                  three_parks 0 Hr) Hj))).
Defined.

Lemma created_proposal_keeps_its_data_witness :
  metadata (proposal_at park_funded 1)
  = (1, "Elm Park", "park-1", "felling of the old elms", 100,
     zero_EnvironmentalData, zero_Demographics, "0.0.7").
Proof.
  assert (reachable deployed) as Hr by apply reachable_init.
  assert (createProposal (env 7 10) "Elm Park" "park-1"
            "felling of the old elms" 100 zero_EnvironmentalData
            zero_Demographics "0.0.7" true 1000 deployed
          = Ok (1, step deployed (tx 7 10 (new_park 100 1000)),
                [Emit (ProposalCreated 1 "Elm Park" "park-1" 100 "0.0.7")]))
    as Hc by (vm_compute; reflexivity).
  pose proof (created_proposal_keeps_its_data _ _ _ _ _ _ _ _ _ _ _ _ _ _
                Hr Hc) as (_ & _ & Hlater).
  exact (proj2 (Hlater (tl park_funding))).
Defined.

Lemma vote_records_match_the_ballots_witness :
  view (getUserVote 1 10) park_funded = Ok (false, true) /\
  view (getUserVote 1 11) park_funded = Ok (false, false) /\
  yesVotes (proposal_at park_funded 1) = 2.
Proof.
  assert (id (proposal_at (run (constructor 500 1) park_funding) 1) <> 0)
    as H1 by (vm_compute; discriminate).
  pose proof (vote_records_match_the_ballots 500 1 park_funding 1 H1)
    as (_ & Hyes & _ & Hin & Hout).
  split; [|split].
  - apply (Hin 10 false). vm_compute. repeat constructor.
  - apply (Hout 11). vm_compute. intros Hx.
    repeat (apply elem_of_cons in Hx as [Hx|Hx]; [discriminate Hx|]).
    by apply elem_of_nil in Hx.
  - exact Hyes.
Defined.

Lemma isProposalActive_separates_voting_from_closing_witness :
  succeeds (vote (env 11 100) 1 true 11) park_voted = true /\
  succeeds (updateProposalStatus (env 1 101) 1) park_voted = true /\
  updateProposalStatus (env 1 100) 1 park_voted
  = Revert "Voting period has not ended".
Proof.
  assert (id (proposal_at park_voted 1) <> 0) as H1
    by (vm_compute; discriminate).
  split; [|split].
  - pose proof (isProposalActive_separates_voting_from_closing (env 11 100)
                  park_voted 1 H1) as (Hvote & _ & _).
    apply (Hvote true 11); vm_compute; (reflexivity || discriminate).
  - pose proof (isProposalActive_separates_voting_from_closing (env 1 101)
                  park_voted 1 H1) as (_ & Hclose & _).
    apply Hclose; vm_compute; by repeat split.
  - pose proof (isProposalActive_separates_voting_from_closing (env 1 100)
                  park_voted 1 H1) as (_ & _ & Hedge).
    destruct Hedge as (_ & [Hno|Hyes]);
      [vm_compute; reflexivity..| |exact Hyes].
    vm_compute in Hno. discriminate Hno.
Defined.

Lemma only_the_deployer_is_owner_witness :
  owner park_funded = 1 /\
  withdrawFunds (env 20 130) 1 20 park_funded
  = Revert "Only owner can call this function".
Proof.
  pose proof (only_the_deployer_is_owner 500 1 park_funding) as [Ho Hall].
  split; [exact Ho|].
  assert (msg_sender (env 20 130) <> 1) as H1 by (vm_compute; discriminate).
  exact (proj2 (proj2 (proj2 (Hall (env 20 130) H1 1))) 20).
Defined.

Lemma forceCloseProposal_overrides_witness :
  let t := tx 1 50 (ForceCloseProposal 1 Declined) in
  status (proposal_at (step park_voted t) 1) = Declined /\
  vote (env 11 60) 1 true 11 (step park_voted t)
  = Revert "Proposal is not active".
Proof.
  assert (msg_sender (env 1 50) = owner park_voted) as H1
    by (vm_compute; reflexivity).
  assert (id (proposal_at park_voted 1) <> 0) as H2
    by (vm_compute; discriminate).
  assert (status (proposal_at park_voted 1) = Active) as H3
    by (vm_compute; reflexivity).
  pose proof (forceCloseProposal_overrides (env 1 50) park_voted 1 Declined
                H1 H2 H3) as (_ & Hst & _ & _ & _ & _ & Hterm).
  assert (Declined <> Active) as H4 by discriminate.
  cbn zeta. split; [exact Hst|].
  exact (proj1 (Hterm H4 (env 11 60)) true 11).
Defined.

Lemma funding_flag_is_final_witness :
  totalFundsRaised (proposal_at park_voted 1) = 0 /\
  fundingEnabled
    (proposal_at (run park_funded [tx 1 130 (SetFundingGoal 1 0)]) 1) = true /\
  totalFundsRaised
    (proposal_at (run three_parks [tx 20 130 (DonateToProposal 5 2)]) 2) = 0.
Proof.
  split; [|split].
  - assert (reachable park_voted) as Hr by apply reachable_run.
    apply (proj1 (funding_flag_is_final park_voted 1 Hr)).
    vm_compute; reflexivity.
  - assert (reachable park_funded) as Hr by apply reachable_run.
    apply (proj1 (proj2 (funding_flag_is_final park_funded 1 Hr))).
    vm_compute; reflexivity.
  - assert (reachable three_parks) as Hr by apply reachable_run.
    apply (proj2 (proj2 (funding_flag_is_final three_parks 2 Hr))).
    + vm_compute; discriminate.
    + vm_compute; reflexivity.
Defined.

Lemma escrow_is_covered_witness :
  escrowed park_funded <= balance park_funded /\
  outcome (tx 1 130 (WithdrawFunds 1 77)) park_funded
  = Ok (RetNone, [Transfer 77 800; Emit (FundsWithdrawn 1 77 800 130)]).
Proof.
  assert (Forall (fun t => 0 <= value_sent t) park_funding) as H1
    by (repeat constructor; vm_compute; discriminate).
  pose proof (escrow_is_covered 500 1 park_funding H1) as [Hcov Hwithdraw].
  split; [exact Hcov|].
  apply (Hwithdraw (env 1 130) 1 77); vm_compute;
    (reflexivity || discriminate).
Defined.

Lemma surplus_never_leaves_witness :
  balance (step park_funded (tx 30 130 (Receive 25))) = 800 + 25 /\
  escrowed (step park_funded (tx 30 130 (Receive 25))) = escrowed park_funded
  /\ balance (step park_funded (tx 1 130 (WithdrawFunds 1 500))) = 800.
Proof.
  assert (reachable park_funded) as Hr by apply reachable_run.
  split; [|split].
  - assert (0 <= value_sent (tx 30 130 (Receive 25))) as H1
      by (vm_compute; discriminate).
    pose proof (surplus_never_leaves park_funded _ Hr H1) as (_ & Hrecv & _).
    exact (proj1 (Hrecv (env 30 130) 25 eq_refl)).
  - assert (0 <= value_sent (tx 30 130 (Receive 25))) as H1
      by (vm_compute; discriminate).
    pose proof (surplus_never_leaves park_funded _ Hr H1) as (_ & Hrecv & _).
    exact (proj1 (proj2 (Hrecv (env 30 130) 25 eq_refl))).
  - assert (0 <= value_sent (tx 1 130 (WithdrawFunds 1 500))) as H1
      by (vm_compute; discriminate).
    pose proof (surplus_never_leaves park_funded _ Hr H1) as (_ & _ & Hself).
    apply (Hself (env 1 130) 1); vm_compute;
      try reflexivity; try discriminate; by split.
Defined.

Lemma createProposal_requirements_witness :
  createProposal (env 7 100) "Elm Park" "park-1" "" 100
    zero_EnvironmentalData zero_Demographics "0.0.7" true 0 deployed
  = Revert "End date must be in the future" /\
  succeeds (createProposal (env 7 99) "Elm Park" "park-1" "" 100
              zero_EnvironmentalData zero_Demographics "0.0.7" true 0)
    deployed = true.
Proof.
  split.
  - apply (proj1 (proj2 (proj2 (proj2 (proj2
             (createProposal_requirements (env 7 100) "Elm Park" "park-1" ""
                100 zero_EnvironmentalData zero_Demographics "0.0.7" true 0
                deployed))))));
      vm_compute; discriminate.
  - apply (proj1 (createProposal_requirements (env 7 99) "Elm Park" "park-1"
                    "" 100 zero_EnvironmentalData zero_Demographics "0.0.7"
                    true 0 deployed)).
    repeat split; vm_compute; (reflexivity || discriminate).
Defined.

Lemma donateToProposal_requirements_witness :
  succeeds (donateToProposal (env 22 125) 50 1) park_funded = true /\
  donateToProposal (env 22 125) 0 1 park_funded = Revert "Must send HBAR" /\
  donateToProposal (env 22 125) 50 3 three_parks
  = Revert "Proposal not accepted".
Proof.
  split; [|split].
  - assert (reachable park_funded) as Hr by apply reachable_run.
    apply (proj1 (donateToProposal_requirements (env 22 125) 50 1
                    park_funded Hr)).
    repeat split; vm_compute; (reflexivity || discriminate).
  - assert (reachable park_funded) as Hr by apply reachable_run.
    apply (proj2 (proj2 (proj2 (proj2
             (donateToProposal_requirements (env 22 125) 0 1
                park_funded Hr)))));
      vm_compute; (reflexivity || discriminate).
  - assert (reachable three_parks) as Hr by apply reachable_run.
    apply (proj1 (proj2 (proj2
             (donateToProposal_requirements (env 22 125) 50 3
                three_parks Hr))));
      vm_compute; discriminate.
Defined.

Lemma one_sender_can_cast_every_vote_witness :
  let s := step deployed (tx 7 10 (new_park 100 1000)) in
  let s' := run s (votes_for (env 5 50) 1 true [21; 22; 23]) in
  yesVotes (proposal_at s' 1) = 3 /\
  vote (env 22 60) 1 false 22 s' = Revert "User has already voted".
Proof.
  cbn zeta. set (s := step deployed _).
  assert (id (proposal_at s 1) <> 0) as H1 by (vm_compute; discriminate).
  assert (status (proposal_at s 1) = Active) as H2
    by (vm_compute; reflexivity).
  assert (block_timestamp (env 5 50) <= endDate (proposal_at s 1)) as H3
    by (vm_compute; discriminate).
  assert (NoDup [21; 22; 23]) as H4.
  { repeat constructor; intros Hx;
      repeat (apply elem_of_cons in Hx as [Hx|Hx]; [discriminate Hx|]);
      by apply elem_of_nil in Hx. }
  assert (Forall (fun u => hasVoted_at s 1 u = false) [21; 22; 23]) as H5
    by (repeat (constructor; [vm_compute; reflexivity|]); constructor).
  assert ((if true then yesVotes (proposal_at s 1)
           else noVotes (proposal_at s 1))
          + Z.of_nat (length [21; 22; 23]) <= uint64_max) as H6
    by (vm_compute; discriminate).
  pose proof (one_sender_can_cast_every_vote (env 5 50) s 1 true [21; 22; 23]
                H1 H2 H3 H4 H5 H6) as (Hy & _ & _ & Hin & _).
  split.
  - rewrite Hy. vm_compute. reflexivity.
  - apply Hin. vm_compute. do 1 constructor 2. constructor.
Defined.

Lemma closeProposal_closes_by_the_tallies_witness :
  exists t,
    closeProposal (env 1 50) 60000 1 park_voted = Some t /\
    outcome t park_voted
    = Ok (RetNone, [Emit (ProposalStatusUpdated 1 Accepted)]) /\
    status (proposal_at (step park_voted t) 1) = Accepted /\
    fundingEnabled (proposal_at (step park_voted t) 1) = true.
Proof.
  assert (msg_sender (env 1 50) = owner park_voted) as H1
    by (vm_compute; reflexivity).
  assert (id (proposal_at park_voted 1) <> 0) as H2
    by (vm_compute; discriminate).
  assert (status (proposal_at park_voted 1) = Active) as H3
    by (vm_compute; reflexivity).
  assert (js_exact (yesVotes (proposal_at park_voted 1))) as H4
    by (vm_compute; split; discriminate).
  assert (js_exact (noVotes (proposal_at park_voted 1))) as H5
    by (vm_compute; split; discriminate).
  assert (js_exact (endDate (proposal_at park_voted 1) * 1000)) as H6
    by (vm_compute; split; discriminate).
  pose proof (proj2 (closeProposal_closes_by_the_tallies (env 1 50) 60000
                       park_voted 1) H1 H2 H3 H4 H5 H6) as (t & Ht & Hok & _).
  assert (60000 <= endDate (proposal_at park_voted 1) * 1000
          \/ endDate (proposal_at park_voted 1) < block_timestamp (env 1 50))
    as H7 by (left; vm_compute; discriminate).
  specialize (Hok H7).
  exists t. split; [exact Ht|].
  unfold outcome, step, commit. rewrite Hok.
  rewrite proposal_at_set_proposal_eq.
  repeat split; vm_compute; reflexivity.
Defined.

Lemma strangers_neither_close_nor_withdraw_witness :
  let t := tx 30 130 (DonateToProposal 5 1) in
  status (proposal_at (step park_funded t) 1) = Accepted /\
  totalFundsRaised (proposal_at park_funded 1)
    <= totalFundsRaised (proposal_at (step park_funded t) 1) /\
  balance park_funded <= balance (step park_funded t).
Proof.
  assert (reachable park_funded) as H1 by apply reachable_run.
  assert (id (proposal_at park_funded 1) <> 0) as H2
    by (vm_compute; discriminate).
  assert (msg_sender (tx_env (tx 30 130 (DonateToProposal 5 1)))
          <> owner park_funded) as H3 by (vm_compute; discriminate).
  assert (0 <= value_sent (tx 30 130 (DonateToProposal 5 1))) as H4
    by (vm_compute; discriminate).
  pose proof (strangers_neither_close_nor_withdraw park_funded _ 1
                H1 H2 H3 H4) as (Hst & _ & _ & _ & Hfunds & Hbal & _).
  cbn zeta. split; [|by split].
  rewrite Hst. vm_compute. reflexivity.
Defined.

(** C1 fails on the contract for a recipient that calls back: the recipient
    of [refunding_withdrawal] donates what it receives to the proposal it
    comes from, so that the proposal holds 800 again when the withdrawal
    returns, and a second withdrawal goes through. *)
Lemma withdrawFunds_recipient_donates_back :
  ~ (forall now sender proposalId recipient call_backs accepts s,
       reachable s ->
       0 < totalFundsRaised (proposal_at s proposalId) ->
       let n := NestedCall sender (WithdrawFunds proposalId recipient)
                  call_backs accepts in
       succeeds (exec_nested now n) s = true ->
       totalFundsRaised (proposal_at (step_nested now s n) proposalId) = 0 /\
       forall now2 sender2 recipient2 call_backs2 accepts2,
         succeeds
           (exec_nested now2
              (NestedCall sender2 (WithdrawFunds proposalId recipient2)
                 call_backs2 accepts2))
           (step_nested now s n) = false).
Proof.
  intros H.
  specialize (H 130 1 1 77 [NestedCall 77 (DonateToProposal 800 1) [] true]
                true park_funded).
  cbn zeta in H. destruct H as [H _].
  - apply reachable_run.
  - vm_compute; reflexivity.
  - vm_compute; reflexivity.
  - vm_compute in H. discriminate H.
Qed.

Example refunding_withdrawal_returns :
  let s' := step_nested 130 park_funded refunding_withdrawal in
  exec_nested 130 refunding_withdrawal park_funded
  = Ok (RetNone, s',
        [Transfer 77 800; Emit (DonationReceived 1 77 800 130);
         Emit (FundsWithdrawn 1 77 800 130)]) /\
  totalFundsRaised (proposal_at s' 1) = 800 /\
  balance s' = 800 /\
  outcome (tx 1 131 (WithdrawFunds 1 77)) s'
  = Ok (RetNone, [Transfer 77 800; Emit (FundsWithdrawn 1 77 800 131)]).
Proof. vm_compute. repeat split. Qed.

Lemma withdrawFunds_all_or_nothing_witness :
  let call_backs := [NestedCall 77 (new_park 200 0) [] true] in
  (exists s' l,
     withdrawFunds_during (call_back 130 call_backs) (env 1 130) 1 77
       park_funded
     = Ok (tt, s',
           Transfer 77 800 :: l ++ [Emit (FundsWithdrawn 1 77 800 130)]) /\
     totalFundsRaised (proposal_at s' 1) = 0 /\
     withdrawFunds_during (call_back 131 []) (env 1 131) 1 77 s'
     = Revert "No funds to withdraw") /\
  (let refusing := {| msg_sender := 1; block_timestamp := 130;
                      call_ok := false |} in
   withdrawFunds_during (call_back 130 call_backs) refusing 1 77 park_funded
   = Revert "Transfer failed").
Proof.
  cbn zeta. set (call_backs := [NestedCall 77 (new_park 200 0) [] true]).
  assert (reachable park_funded) as H0 by apply reachable_run.
  assert (id (proposal_at park_funded 1) <> 0) as H2
    by (vm_compute; discriminate).
  assert (0 < totalFundsRaised (proposal_at park_funded 1)) as H3
    by (vm_compute; reflexivity).
  split.
  - assert (msg_sender (env 1 130) = owner park_funded) as H1
      by (vm_compute; reflexivity).
    pose proof (withdrawFunds_all_or_nothing (env 1 130) park_funded 1 77
                  call_backs H0 H1 H2 H3) as [Hok _].
    assert (transfer_accepted (env 1 130) park_funded 77
              (totalFundsRaised (proposal_at park_funded 1)) = true) as H4
      by (vm_compute; reflexivity).
    destruct (Hok H4) as (s' & l & Hw & _ & _ & Hzero & Hagain).
    assert (77 = this park_funded \/
            Forall (fun c => donation_to 1 c = false)
              (calls_of_all call_backs)) as H5
      by (right; repeat constructor).
    exists s', l. split; [exact Hw|]. split; [exact (Hzero H5)|].
    apply (Hagain (Hzero H5) (env 1 131) 77 []). vm_compute; reflexivity.
  - set (e := {| msg_sender := 1; block_timestamp := 130; call_ok := false |}).
    assert (msg_sender e = owner park_funded) as H1
      by (vm_compute; reflexivity).
    pose proof (withdrawFunds_all_or_nothing e park_funded 1 77 call_backs
                  H0 H1 H2 H3) as [_ Hfail].
    assert (transfer_accepted e park_funded 77
              (totalFundsRaised (proposal_at park_funded 1)) = false) as H4
      by (vm_compute; reflexivity).
    exact (proj1 (Hfail H4)).
Defined.
